(** * The credential and token layer of [backend/internal/data/models.go]

    A shallow embedding of the Go package [data]: the [User] and [Token]
    models, their SQL statements, token generation and the bearer-token
    check, followed by the properties the design document states about
    them.

    Conventions.
    - A Go [string] and a Go [[]byte] are byte sequences: [string] here is
      Rocq's [string] (a list of 8-bit characters), [[]byte] is [list byte].
    - A Go [int] is a [Z]; the code does no arithmetic on ids.
    - A [time.Time] is a [Z], nanoseconds since the Unix epoch, and is
      printed in UTC; a [time.Duration] is a [Z] of nanoseconds.
    - The process talks to three things outside itself: the datastore, the
      clock and the random source.  They are the fields of [World], and
      every function of the package is a state transformer over it.
    - [New], which stores the connection pool, and [GetUserWithToken] and
      [VaildateToken], which nothing calls and the design does not
      describe, are left out. *)

From Stdlib Require Import ZArith List String Ascii Bool Lia.
From Stdlib Require Import Strings.Byte.
From Stdlib Require Import DecimalString.
Import ListNotations.

Local Open Scope string_scope.
Local Open Scope list_scope.
Local Open Scope Z_scope.

(** ** Go values *)

Module Go.

(** [error] values that occur in the package.  [errors.New] and a
    [fmt.Errorf] without [%w] give a plain message; [fmt.Errorf] with [%w]
    keeps the wrapped error. *)
Inductive error : Type :=
| errors_New (msg : string)
| fmt_Errorf_w (prefix : string) (cause : error)
| sql_ErrNoRows
| driver_error (msg : string)
| rand_error (msg : string)
| bcrypt_ErrMismatchedHashAndPassword
| bcrypt_error (msg : string)
| context_DeadlineExceeded.

Inductive result (A : Type) : Type :=
| Ok (a : A)
| Err (e : error).
Arguments Ok {A} a.
Arguments Err {A} e.

Definition is_Err {A} (r : result A) : bool :=
  match r with Ok _ => false | Err _ => true end.

Definition error_eq_dec : forall a b : error, {a = b} + {a <> b}.
Proof. decide equality; apply string_dec. Defined.

Definition error_eqb (a b : error) : bool :=
  if error_eq_dec a b then true else false.

(** [err.Error()] *)
Fixpoint Error (e : error) : string :=
  match e with
  | errors_New m => m
  | fmt_Errorf_w p c => p ++ Error c
  | sql_ErrNoRows => "sql: no rows in result set"
  | driver_error m => m
  | rand_error m => m
  | bcrypt_ErrMismatchedHashAndPassword =>
      "crypto/bcrypt: hashedPassword is not the hash of the given password"
  | bcrypt_error m => m
  | context_DeadlineExceeded => "context deadline exceeded"
  end.

(** [errors.Is(err, target)]: [err] or an error it wraps is [target]. *)
Fixpoint errors_Is (e target : error) : bool :=
  error_eqb e target ||
  match e with
  | fmt_Errorf_w _ c => errors_Is c target
  | _ => false
  end.

(** The [%d] verb on an [int]. *)
Definition itoa (n : Z) : string := NilEmpty.string_of_int (Z.to_int n).

(** [strings.Split(s, " ")]: the pieces of [s] between single spaces; a
    string without a space is its only piece, two spaces in a row leave an
    empty piece between them. *)
Definition space : ascii := " "%char.

Fixpoint strings_Split_space (s : string) : list string :=
  match s with
  | EmptyString => [EmptyString]
  | String c s' =>
      if Ascii.eqb c space then EmptyString :: strings_Split_space s'
      else match strings_Split_space s' with
           | piece :: rest => String c piece :: rest
           | [] => [String c EmptyString]
           end
  end.

(** [len(s)] of a string: its number of bytes. *)
Definition len (s : string) : Z := Z.of_nat (String.length s).

(** [time.Second] *)
Definition time_Second : Z := 1000000000.

(** Does [s] contain the byte [c]? *)
Fixpoint contains (c : ascii) (s : string) : bool :=
  match s with
  | EmptyString => false
  | String d s' => Ascii.eqb d c || contains c s'
  end.

End Go.
Import Go.

(** ** The datastore

    The package sends SQL text through [database/sql].  Statements are kept
    as the text has them: the table, the columns in the order written, and
    the condition.  A table knows the names of its columns, and a statement
    that names a column the table does not have is refused, as the database
    refuses it when it parses the statement.  Unquoted identifiers are
    folded to lower case before they are looked up. *)

Module Sql.

Inductive value : Type :=
| VNull
| VInt (n : Z)
| VText (s : string)
| VBytea (b : list byte)
| VTime (t : Z).

Definition value_eq_dec : forall a b : value, {a = b} + {a <> b}.
Proof.
  decide equality; try apply Z.eq_dec; try apply string_dec.
  apply list_eq_dec. apply Byte.byte_eq_dec.
Defined.

(** [a = b] in a condition: never true of NULL. *)
Definition value_eqb (a b : value) : bool :=
  match a, b with
  | VNull, _ | _, VNull => false
  | _, _ => if value_eq_dec a b then true else false
  end.

(** A stored row gives a value to some columns; the others are NULL. *)
Definition row : Type := list (string * value).

Fixpoint get (c : string) (r : row) : value :=
  match r with
  | [] => VNull
  | (k, v) :: r' => if String.eqb k c then v else get c r'
  end.

Fixpoint set (c : string) (v : value) (r : row) : row :=
  match r with
  | [] => [(c, v)]
  | (k, w) :: r' => if String.eqb k c then (k, v) :: r' else (k, w) :: set c v r'
  end.

Record table : Type := {
  columns : list string;   (* the names of the table's columns *)
  serial : Z;              (* the next generated id *)
  rows : list row
}.

Record database : Type := {
  users : table;
  tokens : table
}.

Definition fold_char (c : ascii) : ascii :=
  let n := nat_of_ascii c in
  if (andb (Nat.leb 65 n) (Nat.leb n 90)) then ascii_of_nat (n + 32) else c.

Fixpoint fold_ident (s : string) : string :=
  match s with
  | EmptyString => EmptyString
  | String c s' => String (fold_char c) (fold_ident s')
  end.

Definition has_column (t : table) (c : string) : bool :=
  existsb (String.eqb (fold_ident c)) (columns t).

Inductive stmt : Type :=
| SELECT (cols : list string) (from : string) (where_ : option (string * value))
| INSERT (into : string) (cols : list string) (vals : list value)
         (returning : option string)
| UPDATE (tbl : string) (sets : list (string * value)) (where_ : string * value)
| DELETE (from : string) (where_ : string * value).

Definition undefined_column (c : string) : error :=
  driver_error ("pq: column " ++ fold_ident c ++ " does not exist").

Definition undefined_table (t : string) : error :=
  driver_error ("pq: relation " ++ fold_ident t ++ " does not exist").

(** The first column of [cs] that [t] does not have. *)
Fixpoint missing_column (t : table) (cs : list string) : option string :=
  match cs with
  | [] => None
  | c :: cs' => if has_column t c then missing_column t cs' else Some c
  end.

Definition find_table (d : database) (name : string) : option table :=
  let n := fold_ident name in
  if String.eqb n "users" then Some (users d)
  else if String.eqb n "tokens" then Some (tokens d)
  else None.

Definition put_table (d : database) (name : string) (t : table) : database :=
  let n := fold_ident name in
  if String.eqb n "users" then {| users := t; tokens := tokens d |}
  else if String.eqb n "tokens" then {| users := users d; tokens := t |}
  else d.

Definition matches (w : string * value) (r : row) : bool :=
  value_eqb (get (fold_ident (fst w)) r) (snd w).

Definition project (cols : list string) (r : row) : list value :=
  map (fun c => get (fold_ident c) r) cols.

Definition assign (sets : list (string * value)) (r : row) : row :=
  fold_left (fun acc cv => set (fold_ident (fst cv)) (snd cv) acc) sets r.

Definition where_columns (w : option (string * value)) : list string :=
  match w with Some (c, _) => [c] | None => [] end.

(** What a statement does to the database, and the rows it returns.  The
    generated [id] of an inserted row comes from the table's sequence. *)
Definition exec (q : stmt) (d : database) : result (database * list (list value)) :=
  match q with
  | SELECT cols from w =>
      match find_table d from with
      | None => Err (undefined_table from)
      | Some t =>
          match missing_column t (cols ++ where_columns w) with
          | Some c => Err (undefined_column c)
          | None =>
              let hit := match w with
                         | Some cond => filter (matches cond) (rows t)
                         | None => rows t
                         end in
              Ok (d, map (project cols) hit)
          end
      end
  | INSERT into cols vals returning =>
      match find_table d into with
      | None => Err (undefined_table into)
      | Some t =>
          match missing_column t (cols ++ match returning with Some c => [c] | None => [] end) with
          | Some c => Err (undefined_column c)
          | None =>
              if negb (Nat.eqb (List.length cols) (List.length vals))
              then Err (driver_error "pq: INSERT has more target columns than expressions")
              else
                let r := assign (combine cols vals) [("id", VInt (serial t))] in
                let t' := {| columns := columns t; serial := serial t + 1;
                             rows := rows t ++ [r] |} in
                Ok (put_table d into t',
                    match returning with
                    | Some c => [project [c] r]
                    | None => []
                    end)
          end
      end
  | UPDATE tbl sets w =>
      match find_table d tbl with
      | None => Err (undefined_table tbl)
      | Some t =>
          match missing_column t (map fst sets ++ [fst w]) with
          | Some c => Err (undefined_column c)
          | None =>
              let t' := {| columns := columns t; serial := serial t;
                           rows := map (fun r => if matches w r then assign sets r else r)
                                       (rows t) |} in
              Ok (put_table d tbl t', [])
          end
      end
  | DELETE from w =>
      match find_table d from with
      | None => Err (undefined_table from)
      | Some t =>
          match missing_column t [fst w] with
          | Some c => Err (undefined_column c)
          | None =>
              let t' := {| columns := columns t; serial := serial t;
                           rows := filter (fun r => negb (matches w r)) (rows t) |} in
              Ok (put_table d from t', [])
          end
      end
  end.

End Sql.
Import Sql.

(** ** Bytes as numbers *)

Definition Z_of_byte (b : byte) : Z := Z.of_N (Byte.to_N b).

Definition byte_of_Z (z : Z) : byte :=
  match Byte.of_N (Z.to_N (z mod 256)) with
  | Some b => b
  | None => x00
  end.

(** [[]byte(s)] and [string(b)] *)
Definition bytes_of_string (s : string) : list byte := list_byte_of_string s.
Definition string_of_bytes (b : list byte) : string := string_of_list_byte b.

(** ** [encoding/base32]: [StdEncoding.WithPadding(NoPadding)] *)

Module Base32.

(** [encodeStd], the alphabet of RFC 4648. *)
Definition encodeStd : string := "ABCDEFGHIJKLMNOPQRSTUVWXYZ234567".

Definition in_alphabet (c : ascii) : bool := Go.contains c encodeStd.

(** [enc.encode[i]] *)
Definition encode_char (i : Z) : ascii :=
  match String.get (Z.to_nat i) encodeStd with
  | Some c => c
  | None => "?"%char
  end.

(** A left shift of a [byte] keeps its low eight bits. *)
Definition shl8 (x n : Z) : Z := Z.land (Z.shiftl x n) 255.

(** One quantum: five source bytes unpacked into eight 5-bit blocks, as
    [Encode] does; a source byte past the end of the input leaves its bits
    zero. *)
Definition quantum (s0 s1 s2 s3 s4 : Z) : list Z :=
  [ Z.shiftr s0 3;
    Z.lor (Z.land (shl8 s0 2) 31) (Z.land (Z.shiftr s1 6) 31);
    Z.land (Z.shiftr s1 1) 31;
    Z.lor (Z.land (shl8 s1 4) 31) (Z.land (Z.shiftr s2 4) 31);
    Z.lor (Z.land (shl8 s2 1) 31) (Z.shiftr s3 7);
    Z.land (Z.shiftr s3 2) 31;
    Z.lor (Z.land (shl8 s3 3) 31) (Z.shiftr s4 5);
    Z.land s4 31 ].

(** The 5-bit blocks of the whole input; without padding the last, partial
    quantum gives 2, 4, 5 or 7 blocks for 1, 2, 3 or 4 bytes. *)
Fixpoint blocks (src : list Z) : list Z :=
  match src with
  | [] => []
  | [a] => firstn 2 (quantum a 0 0 0 0)
  | [a; b] => firstn 4 (quantum a b 0 0 0)
  | [a; b; c] => firstn 5 (quantum a b c 0 0)
  | [a; b; c; d] => firstn 7 (quantum a b c d 0)
  | a :: b :: c :: d :: e :: rest => quantum a b c d e ++ blocks rest
  end.

Definition EncodeToString (src : list byte) : string :=
  string_of_list_ascii (map encode_char (blocks (map Z_of_byte src))).

End Base32.

(** ** [crypto/sha256]: [Sum256], as FIPS 180-4 defines it *)

Module Sha256.

Definition w32 (x : Z) : Z := x mod 2 ^ 32.
Definition add32 (a b : Z) : Z := w32 (a + b).
Definition rotr (n x : Z) : Z := Z.lor (Z.shiftr x n) (w32 (Z.shiftl x (32 - n))).

Definition Ch (x y z : Z) : Z := Z.lxor (Z.land x y) (Z.land (w32 (Z.lnot x)) z).
Definition Maj (x y z : Z) : Z :=
  Z.lxor (Z.lxor (Z.land x y) (Z.land x z)) (Z.land y z).
Definition bsig0 (x : Z) : Z := Z.lxor (Z.lxor (rotr 2 x) (rotr 13 x)) (rotr 22 x).
Definition bsig1 (x : Z) : Z := Z.lxor (Z.lxor (rotr 6 x) (rotr 11 x)) (rotr 25 x).
Definition ssig0 (x : Z) : Z := Z.lxor (Z.lxor (rotr 7 x) (rotr 18 x)) (Z.shiftr x 3).
Definition ssig1 (x : Z) : Z := Z.lxor (Z.lxor (rotr 17 x) (rotr 19 x)) (Z.shiftr x 10).

(** The constants are fractional parts of roots of the first primes: the
    initial hash value takes the first 32 bits of the square roots of the
    first eight, the round constants those of the cube roots of the first
    sixty-four. *)
Definition primes : list Z :=
  [2; 3; 5; 7; 11; 13; 17; 19; 23; 29; 31; 37; 41; 43; 47; 53;
   59; 61; 67; 71; 73; 79; 83; 89; 97; 101; 103; 107; 109; 113; 127; 131;
   137; 139; 149; 151; 157; 163; 167; 173; 179; 181; 191; 193; 197; 199; 211; 223;
   227; 229; 233; 239; 241; 251; 257; 263; 269; 271; 277; 281; 283; 293; 307; 311].

(** The integer cube root of [n < 2^(3*bits)], one bit at a time. *)
Fixpoint cube_root (bits : nat) (acc n : Z) : Z :=
  match bits with
  | O => acc
  | S k =>
      let cand := acc + 2 ^ Z.of_nat k in
      cube_root k (if cand * cand * cand <=? n then cand else acc) n
  end.

Definition init_hash : list Z :=
  map (fun p => w32 (Z.sqrt (p * 2 ^ 64))) (firstn 8 primes).

Definition round_constants : list Z :=
  map (fun p => w32 (cube_root 36 0 (p * 2 ^ 96))) primes.

(** Padding: a single 1 bit, zeros, and the length in bits as 64 bits, up
    to a multiple of 64 bytes. *)
Definition be_bytes (n : nat) (x : Z) : list Z :=
  map (fun i => Z.land (Z.shiftr x (8 * Z.of_nat i)) 255) (rev (seq 0 n)).

Definition pad (msg : list Z) : list Z :=
  let l := Z.of_nat (List.length msg) in
  msg ++ [128] ++ repeat 0 (Z.to_nat ((55 - l) mod 64)) ++ be_bytes 8 (8 * l).

Fixpoint be_words (bs : list Z) : list Z :=
  match bs with
  | a :: b :: c :: d :: rest =>
      (Z.shiftl a 24 + Z.shiftl b 16 + Z.shiftl c 8 + d) :: be_words rest
  | _ => []
  end.

(** The message schedule: sixteen words of the block, then forty-eight
    derived ones. *)
Fixpoint extend (n : nat) (w : list Z) : list Z :=
  match n with
  | O => w
  | S k =>
      let t := List.length w in
      let at_ i := nth (t - i) w 0 in
      extend k (w ++ [add32 (add32 (ssig1 (at_ 2%nat)) (at_ 7%nat))
                            (add32 (ssig0 (at_ 15%nat)) (at_ 16%nat))])
  end.

Record state : Type := {
  ha : Z; hb : Z; hc : Z; hd : Z; he : Z; hf : Z; hg : Z; hh : Z
}.

Definition round (s : state) (kw : Z * Z) : state :=
  let t1 := add32 (add32 (add32 (hh s) (bsig1 (he s))) (Ch (he s) (hf s) (hg s)))
                  (add32 (fst kw) (snd kw)) in
  let t2 := add32 (bsig0 (ha s)) (Maj (ha s) (hb s) (hc s)) in
  {| ha := add32 t1 t2; hb := ha s; hc := hb s; hd := hc s;
     he := add32 (hd s) t1; hf := he s; hg := hf s; hh := hg s |}.

Definition compress (s : state) (block : list Z) : state :=
  let w := extend 48 (be_words block) in
  let r := fold_left round (combine round_constants w) s in
  {| ha := add32 (ha s) (ha r); hb := add32 (hb s) (hb r);
     hc := add32 (hc s) (hc r); hd := add32 (hd s) (hd r);
     he := add32 (he s) (he r); hf := add32 (hf s) (hf r);
     hg := add32 (hg s) (hg r); hh := add32 (hh s) (hh r) |}.

Fixpoint absorb (nblocks : nat) (s : state) (bs : list Z) : state :=
  match nblocks with
  | O => s
  | S k => absorb k (compress s (firstn 64 bs)) (skipn 64 bs)
  end.

Definition start : state :=
  let v i := nth i init_hash 0 in
  {| ha := v 0%nat; hb := v 1%nat; hc := v 2%nat; hd := v 3%nat;
     he := v 4%nat; hf := v 5%nat; hg := v 6%nat; hh := v 7%nat |}.

Definition words (s : state) : list Z :=
  [ha s; hb s; hc s; hd s; he s; hf s; hg s; hh s].

Definition digest_words (msg : list byte) : list Z :=
  let p := pad (map Z_of_byte msg) in
  words (absorb (List.length p / 64) start p).

(** [sha256.Sum256(data)]: the 32 bytes of the digest. *)
Definition Sum256 (data : list byte) : list byte :=
  map byte_of_Z (flat_map (be_bytes 4) (digest_words data)).

End Sha256.

(** ** The world outside the process *)

(** What the process does that can be seen from outside, in order. *)
Inductive event : Type :=
| Statement (q : stmt) (failure : option error)
| Sleep (d : Z)
| Log (msg : string).

(** What the environment does to a statement.  [Fails e] makes it fail
    at once with [e], before it touches a table (a connection that is
    refused, a constraint of the schema).  [Hangs] leaves it without an
    answer: the call returns when the deadline of its context passes, with
    the error of the context, and no table is touched.  [Breaks after e]
    lets it run and breaks the stream of its rows with [e] once [after] of
    them were delivered: that is what a caller sees who fetches the rows
    one by one with [rows.Next]; a call that reads no row, or its first row
    only, is answered as if nothing happened. *)
Inductive fault : Type :=
| Fails (e : error)
| Hangs
| Breaks (after : nat) (e : error).

(** [faults] is what the environment does to the statements to come, one
    entry for each: [Some f] is the fault [f]; [None], or no entry, lets
    the statement run.  [entropy] is what [crypto/rand] will deliver;
    reading past its end is the failure of the random source.  [now] is
    the clock.  It moves when the package sleeps and when a call of
    [Insert], whose context lasts for the whole loop, waits for a
    statement that hangs.  The time that hashing or an answered statement
    takes is not counted, nor is the wait of a method that returns as soon
    as its statement failed and does not look at the clock again. *)
Record World : Type := {
  db : database;
  now : Z;
  faults : list (option fault);
  entropy : list byte;
  trace : list event
}.

Definition St (A : Type) : Type := World -> A * World.

Definition ret {A} (a : A) : St A := fun w => (a, w).

Definition bind {A B} (m : St A) (k : A -> St B) : St B :=
  fun w => let (a, w') := m w in k a w'.

Notation "x <- m ;; k" := (bind m (fun x => k))
  (at level 61, m at next level, right associativity).
Notation "m ;;; k" := (bind m (fun _ => k))
  (at level 61, right associativity).

Definition emit (e : event) : St unit :=
  fun w => (tt, {| db := db w; now := now w; faults := faults w;
                   entropy := entropy w; trace := trace w ++ [e] |}).

(** [time.Now()] *)
Definition time_Now : St Z := fun w => (now w, w).

(** [time.Sleep(d)] *)
Definition time_Sleep (d : Z) : St unit :=
  fun w => (tt, {| db := db w; now := now w + d; faults := faults w;
                   entropy := entropy w; trace := trace w ++ [Sleep d] |}).

(** [log.Printf], with the message already formatted. *)
Definition log_Printf (msg : string) : St unit := emit (Log msg).

(** [rand.Read(b)] for a buffer of [n] bytes: all of them, or an error. *)
Definition rand_Read (n : nat) : St (result (list byte)) :=
  fun w =>
    if Nat.ltb (List.length (entropy w)) n
    then (Err (rand_error "crypto/rand: random source failed"), w)
    else (Ok (firstn n (entropy w)),
          {| db := db w; now := now w; faults := faults w;
             entropy := skipn n (entropy w); trace := trace w |}).

(** One statement sent to the datastore. *)
Definition run (q : stmt) : St (result (list (list value))) :=
  fun w =>
    let outcome :=
      match faults w with
      | Some (Fails e) :: _ => Err e
      | Some Hangs :: _ => Err context_DeadlineExceeded
      | _ => exec q (db w)
      end in
    match outcome with
    | Err e =>
        (Err e, {| db := db w; now := now w; faults := tl (faults w);
                   entropy := entropy w;
                   trace := trace w ++ [Statement q (Some e)] |})
    | Ok (d, rs) =>
        (Ok rs, {| db := d; now := now w; faults := tl (faults w);
                   entropy := entropy w;
                   trace := trace w ++ [Statement q None] |})
    end.

(** [db.ExecContext]: the result is dropped by every caller, the error
    kept. *)
Definition db_ExecContext (q : stmt) : St (option error) :=
  r <- run q ;;
  ret (match r with Ok _ => None | Err e => Some e end).

(** [*sql.Rows]: the rows that [Next] delivers before it returns
    [false], and what [Err] reports after that: nothing at the end of the
    rows, the error when the stream broke. *)
Record Rows : Type := {
  Rows_delivered : list (list value);
  Rows_Err : option error
}.

(** [db.QueryContext]: the statement is refused, or it runs and its rows
    are there to fetch, all of them or those delivered before a break. *)
Definition db_QueryContext (q : stmt) : St (result Rows) :=
  fun w =>
    match faults w with
    | Some (Breaks after e) :: _ =>
        match exec q (db w) with
        | Err e' =>
            (Err e', {| db := db w; now := now w; faults := tl (faults w);
                        entropy := entropy w;
                        trace := trace w ++ [Statement q (Some e')] |})
        | Ok (d, rs) =>
            (Ok {| Rows_delivered := firstn after rs; Rows_Err := Some e |},
             {| db := d; now := now w; faults := tl (faults w);
                entropy := entropy w;
                trace := trace w ++ [Statement q (Some e)] |})
        end
    | _ =>
        (r <- run q ;;
         ret (match r with
              | Err e => Err e
              | Ok rs => Ok {| Rows_delivered := rs; Rows_Err := None |}
              end)) w
    end.

(** [db.QueryRowContext]: the first row; [Scan] reports a missing row as
    [sql.ErrNoRows]. *)
Definition db_QueryRowContext (q : stmt) : St (result (list value)) :=
  r <- run q ;;
  ret (match r with
       | Err e => Err e
       | Ok [] => Err sql_ErrNoRows
       | Ok (r :: _) => Ok r
       end).

(** [context.WithTimeout(context.Background(), d)]: the context, as the
    time of its deadline. *)
Definition context_WithTimeout (d : Z) : St Z := fun w => (now w + d, w).

(** [db.QueryRowContext(ctx, ...)] when time has passed since [ctx] was
    made.  [database/sql] looks at the context before it takes a
    connection: a context that is done is refused with its error and
    nothing is sent.  A statement that hangs is given up when the deadline
    passes.  [db_QueryRowContext], [db_QueryContext] and [db_ExecContext]
    above are the calls under a context that was just made, whose deadline
    cannot have passed. *)
Definition db_QueryRowContext_ctx (ctx : Z) (q : stmt) : St (result (list value)) :=
  fun w =>
    if ctx <=? now w then (Err context_DeadlineExceeded, w)
    else
      match faults w with
      | Some Hangs :: _ =>
          (Err context_DeadlineExceeded,
           {| db := db w; now := ctx; faults := tl (faults w);
              entropy := entropy w;
              trace := trace w ++ [Statement q (Some context_DeadlineExceeded)] |})
      | _ => db_QueryRowContext q w
      end.

(** ** The models *)

Record Token : Type := {
  Token_ID : Z;
  Token_UserID : Z;
  Token_Email : string;
  Token_Token : string;
  Token_TokenHash : list byte;
  Token_CreatedAt : Z;
  Token_UpdatedAt : Z;
  Token_Expiry : Z
}.

Record User : Type := {
  User_ID : Z;
  User_Email : string;
  User_FirstName : string;
  User_LastName : string;
  User_Password : string;
  User_CreatedAt : Z;
  User_UpdatedAt : Z;
  User_Token : Token
}.

(** The zero [time.Time] (January 1, year 1) and the zero structs. *)
Definition time_zero : Z := -62135596800 * time_Second.

Definition Token_zero : Token :=
  {| Token_ID := 0; Token_UserID := 0; Token_Email := ""; Token_Token := "";
     Token_TokenHash := []; Token_CreatedAt := time_zero;
     Token_UpdatedAt := time_zero; Token_Expiry := time_zero |}.

(** [row.Scan]: each column converted to the type of its destination. *)
Definition scan_error : error :=
  driver_error "sql: Scan error: unsupported conversion".

Definition scan_int (v : value) : result Z :=
  match v with VInt n => Ok n | _ => Err scan_error end.

Definition scan_string (v : value) : result string :=
  match v with
  | VText s => Ok s
  | VBytea b => Ok (string_of_bytes b)
  | _ => Err scan_error
  end.

Definition scan_bytes (v : value) : result (list byte) :=
  match v with
  | VBytea b => Ok b
  | VText s => Ok (bytes_of_string s)
  | VNull => Ok []
  | _ => Err scan_error
  end.

Definition scan_time (v : value) : result Z :=
  match v with VTime t => Ok t | _ => Err scan_error end.

Definition and_then {A B} (r : result A) (k : A -> result B) : result B :=
  match r with Ok a => k a | Err e => Err e end.

Notation "x <~ r ;; k" := (and_then r (fun x => k))
  (at level 61, r at next level, right associativity).

(** [Scan(&user.ID, &user.Email, &user.FirstName, &user.LastName,
    &user.Password, &user.CreatedAt, &user.UpdatedAt)] *)
Definition scan_User (vs : list value) : result User :=
  match vs with
  | [v1; v2; v3; v4; v5; v6; v7] =>
      id <~ scan_int v1 ;; email <~ scan_string v2 ;;
      first <~ scan_string v3 ;; last <~ scan_string v4 ;;
      pw <~ scan_string v5 ;; created <~ scan_time v6 ;;
      updated <~ scan_time v7 ;;
      Ok {| User_ID := id; User_Email := email; User_FirstName := first;
            User_LastName := last; User_Password := pw;
            User_CreatedAt := created; User_UpdatedAt := updated;
            User_Token := Token_zero |}
  | _ => Err (driver_error "sql: wrong number of destination arguments in Scan")
  end.

(** [Scan(&token.ID, &token.UserID, &token.Email, &token.Token,
    &token.TokenHash, &token.CreatedAt, &token.UpdatedAt, &token.Expiry)] *)
Definition scan_Token (vs : list value) : result Token :=
  match vs with
  | [v1; v2; v3; v4; v5; v6; v7; v8] =>
      id <~ scan_int v1 ;; uid <~ scan_int v2 ;;
      email <~ scan_string v3 ;; tok <~ scan_string v4 ;;
      hash <~ scan_bytes v5 ;; created <~ scan_time v6 ;;
      updated <~ scan_time v7 ;; expiry <~ scan_time v8 ;;
      Ok {| Token_ID := id; Token_UserID := uid; Token_Email := email;
            Token_Token := tok; Token_TokenHash := hash;
            Token_CreatedAt := created; Token_UpdatedAt := updated;
            Token_Expiry := expiry |}
  | _ => Err (driver_error "sql: wrong number of destination arguments in Scan")
  end.

(** [time.Time.String] for a time in UTC that carries no monotonic clock
    reading: the layout [2006-01-02 15:04:05.999999999 -0700 MST].  The
    date is that of the proleptic Gregorian calendar, counted from the
    days since 1970-01-01. *)
Fixpoint zeros (n : nat) : string :=
  match n with O => "" | S n' => String "0" (zeros n') end.

(** [appendInt(b, x, width)]: [x] in decimal, padded with zeros. *)
Definition appendInt (x : Z) (width : nat) : string :=
  let digits := itoa (Z.abs x) in
  (if x <? 0 then "-" else "")
  ++ zeros (width - String.length digits) ++ digits.

(** Year, month and day of the day [days] after 1970-01-01. *)
Definition civil (days : Z) : Z * Z * Z :=
  let z := days + 719468 in
  let era := z / 146097 in
  let doe := z mod 146097 in
  let yoe := (doe - doe / 1460 + doe / 36524 - doe / 146096) / 365 in
  let doy := doe - (365 * yoe + yoe / 4 - yoe / 100) in
  let mp := (5 * doy + 2) / 153 in
  let d := doy - (153 * mp + 2) / 5 + 1 in
  let m := if mp <? 10 then mp + 3 else mp - 9 in
  let y := yoe + era * 400 + (if m <=? 2 then 1 else 0) in
  (y, m, d).

(** The fraction of a second, [.999999999]: nothing when it is zero,
    otherwise the nanoseconds without their trailing zeros. *)
Fixpoint trim_zeros (s : string) : string :=
  match s with
  | EmptyString => EmptyString
  | String c s' =>
      match trim_zeros s' with
      | EmptyString => if Ascii.eqb c "0" then EmptyString else String c EmptyString
      | rest => String c rest
      end
  end.

Definition fraction (nsec : Z) : string :=
  if nsec =? 0 then "" else "." ++ trim_zeros (appendInt nsec 9).

Definition time_String (t : Z) : string :=
  let sec := t / time_Second in
  let nsec := t mod time_Second in
  let '(y, m, d) := civil (sec / 86400) in
  let rem := sec mod 86400 in
  appendInt y 4 ++ "-" ++ appendInt m 2 ++ "-" ++ appendInt d 2 ++ " "
  ++ appendInt (rem / 3600) 2 ++ ":" ++ appendInt (rem mod 3600 / 60) 2 ++ ":"
  ++ appendInt (rem mod 60) 2 ++ fraction nsec ++ " +0000 UTC".

(** The [%v] verb on a [Token]: its fields between braces, the bytes of
    the hash as numbers, each time as [time.Time.String] prints it. *)
Definition fmt_v_bytes (b : list byte) : string :=
  "[" ++ String.concat " " (map (fun x => itoa (Z_of_byte x)) b) ++ "]".

Definition fmt_v_Token (t : Token) : string :=
  "{" ++ itoa (Token_ID t) ++ " " ++ itoa (Token_UserID t) ++ " "
      ++ Token_Email t ++ " " ++ Token_Token t ++ " "
      ++ fmt_v_bytes (Token_TokenHash t) ++ " "
      ++ time_String (Token_CreatedAt t) ++ " "
      ++ time_String (Token_UpdatedAt t) ++ " "
      ++ time_String (Token_Expiry t) ++ "}".

(** An inbound request, as far as the package reads it: its header. *)
Record Request : Type := {
  Header : list (string * list string)
}.

(** [r.Header.Get(key)]: the first value under [key], or the empty string. *)
Fixpoint Header_Get (h : list (string * list string)) (key : string) : string :=
  match h with
  | [] => ""
  | (k, vs) :: h' =>
      if String.eqb k key then match vs with v :: _ => v | [] => "" end
      else Header_Get h' key
  end.

(** [const dbTimeout = time.Second * 3] *)
Definition dbTimeout : Z := time_Second * 3.

Section Package.

(** [golang.org/x/crypto/bcrypt], the adaptive salted hash.  Hashing is a
    function of the password, the cost and the 16 salt bytes it draws from
    [crypto/rand]; comparing gives no error, the mismatch error, or another
    error when the stored hash cannot be used. *)
Variable bcrypt_hash : list byte -> Z -> list byte -> result (list byte).
Variable bcrypt_CompareHashAndPassword : list byte -> list byte -> option error.

Definition bcrypt_GenerateFromPassword (password : list byte) (cost : Z)
  : St (result (list byte)) :=
  r <- rand_Read 16 ;;
  ret (match r with
       | Err e => Err e
       | Ok salt => bcrypt_hash password cost salt
       end).

(** *** Credential Store: methods of [*User] *)

(** The loop [for rows.Next()] of [GetAll] over the rows that [Next]
    delivers: the first row that cannot be read ends it with the error.
    When [Next] returns [false] the loop is over and the users read so far
    are returned: [rows.Err()] is not read, and the deferred [rows.Close()]
    has nothing to report. *)
Fixpoint scan_all (rs : list (list value)) : result (list User) :=
  match rs with
  | [] => Ok []
  | r :: rs' => u <~ scan_User r ;; us <~ scan_all rs' ;; Ok (u :: us)
  end.

Definition GetAll : St (result (list User)) :=
  r <- db_QueryContext
         (SELECT ["id"; "email"; "first_name"; "last_name"; "password";
                  "created_at"; "updated_at"] "users" None) ;;
  ret (match r with
       | Err e => Err e
       | Ok rows => scan_all (Rows_delivered rows)
       end).

Definition GetByEmail (email : string) : St (result User) :=
  r <- db_QueryRowContext
         (SELECT ["id"; "email"; "first_name"; "last_name"; "password";
                  "created_at"; "updated_at"] "users"
                 (Some ("email", VText email))) ;;
  match and_then r scan_User with
  | Err e =>
      if errors_Is e sql_ErrNoRows
      then ret (Err (errors_New ("no user found with email " ++ email)))
      else log_Printf ("failed to get user by email: " ++ Error e) ;;;
           ret (Err e)
  | Ok user => ret (Ok user)
  end.

Definition GetByID (id : Z) : St (result User) :=
  r <- db_QueryRowContext
         (SELECT ["id"; "email"; "first_name"; "last_name"; "password";
                  "created_at"; "updated_at"] "users"
                 (Some ("id", VInt id))) ;;
  match and_then r scan_User with
  | Err e =>
      if errors_Is e sql_ErrNoRows
      then ret (Err (errors_New "user not found"))
      else log_Printf ("failed to get user by ID: " ++ Error e) ;;;
           ret (Err e)
  | Ok user => ret (Ok user)
  end.

Definition Update (user : User) : St (option error) :=
  err <- db_ExecContext
           (UPDATE "users"
                   [("email", VText (User_Email user));
                    ("first_name", VText (User_FirstName user));
                    ("last_name", VText (User_LastName user));
                    ("updated_at", VTime (User_UpdatedAt user))]
                   ("id", VInt (User_ID user))) ;;
  match err with
  | Some e => log_Printf ("failed to update user: " ++ Error e) ;;; ret (Some e)
  | None => ret None
  end.

Definition Delete (id : Z) : St (option error) :=
  err <- db_ExecContext (DELETE "users" ("id", VInt id)) ;;
  match err with
  | Some e => log_Printf ("failed to delete user: " ++ Error e) ;;; ret (Some e)
  | None => ret None
  end.

(** The statement of [Insert]: [hashedPassword] goes into [password]. *)
Definition insert_user (user : User) (hashedPassword : list byte) : stmt :=
  INSERT "users"
         ["email"; "first_name"; "last_name"; "password"; "created_at"; "updated_at"]
         [VText (User_Email user); VText (User_FirstName user);
          VText (User_LastName user); VBytea hashedPassword;
          VTime (User_CreatedAt user); VTime (User_UpdatedAt user)]
         (Some "id").

(** [Scan(&newID)] *)
Definition scan_newID (vs : list value) : result Z :=
  match vs with
  | [v] => scan_int v
  | _ => Err (driver_error "sql: wrong number of destination arguments in Scan")
  end.

(** The loop [for retries := 0; retries < retryCount; retries++]: [left]
    counts the turns that remain, [retryCount - retries]; [err] is the
    error of the turn before; every turn makes its call under [ctx], the
    one context of [Insert].  Every [return] of [Insert] gives 0 as the
    id: [newID] is stored in the parameter [user], a copy, and dropped. *)
Fixpoint Insert_loop (left : nat) (retries retryCount : Z) (ctx : Z) (q : stmt)
                     (err : error)
  : St (Z * option error) :=
  match left with
  | O =>
      ret (0, Some (fmt_Errorf_w
                      ("failed to insert user after " ++ itoa retryCount ++ " attempts: ")
                      err))
  | S left' =>
      r <- db_QueryRowContext_ctx ctx q ;;
      match and_then r scan_newID with
      | Ok newID => ret (0, None)
      | Err e =>
          log_Printf ("failed to insert user, attempt " ++ itoa (retries + 1)
                      ++ ": " ++ Error e) ;;;
          (if retries <? retryCount - 1 then time_Sleep (time_Second * 2) else ret tt) ;;;
          Insert_loop left' (retries + 1) retryCount ctx q e
      end
  end.

(** The context is made first, before the password is hashed, and is the
    same for every turn of the loop. *)
Definition Insert (user : User) : St (Z * option error) :=
  ctx <- context_WithTimeout dbTimeout ;;
  h <- bcrypt_GenerateFromPassword (bytes_of_string (User_Password user)) 12 ;;
  match h with
  | Err e =>
      log_Printf ("failed to generate hashed password: " ++ Error e) ;;;
      ret (0, Some e)
  | Ok hashedPassword =>
      let retryCount := 3 in
      Insert_loop (Z.to_nat retryCount) 0 retryCount ctx
                  (insert_user user hashedPassword) (errors_New "")
  end.

Definition ResetPassword (u : User) (password : string) : St (option error) :=
  err <- db_ExecContext
           (UPDATE "users" [("password", VText password)] ("id", VInt (User_ID u))) ;;
  match err with
  | Some e => log_Printf ("failed to update user: " ++ Error e) ;;; ret None
  | None => ret None
  end.

Definition PasswordMatches (u : User) (password : string) : bool * option error :=
  match bcrypt_CompareHashAndPassword (bytes_of_string (User_Password u))
                                      (bytes_of_string password) with
  | Some err =>
      if errors_Is err bcrypt_ErrMismatchedHashAndPassword
      then (false, None)
      else (false, Some err)
  | None => (true, None)
  end.

End Package.

(** *** Token Store and Token Issuer: methods of [*Token] *)

Definition GetByToken (plainText : string) : St (result Token) :=
  r <- db_QueryRowContext
         (SELECT ["id"; "user_id"; "email"; "plainText"; "token_hash";
                  "created_at"; "updated_at"; "expiry"] "tokens"
                 (Some ("plainText", VText plainText))) ;;
  match and_then r scan_Token with
  | Err e =>
      if errors_Is e sql_ErrNoRows
      then ret (Err (errors_New ("no plainText found with plainText " ++ plainText)))
      else log_Printf ("failed to get plainText by plainText: " ++ Error e) ;;;
           ret (Err e)
  | Ok token => ret (Ok token)
  end.

Definition GetUserByToken (token : Token) : St (result User) :=
  r <- db_QueryRowContext
         (SELECT ["id"; "email"; "first_name"; "last_name"; "password";
                  "created_at"; "updated_at"] "users"
                 (Some ("id", VInt (Token_UserID token)))) ;;
  match and_then r scan_User with
  | Err e =>
      if errors_Is e sql_ErrNoRows
      then ret (Err (errors_New ("no user found with token " ++ fmt_v_Token token)))
      else log_Printf ("failed to get user by token (token user ID: "
                       ++ itoa (Token_UserID token) ++ "): " ++ Error e) ;;;
           ret (Err e)
  | Ok user => ret (Ok user)
  end.

Definition GenerateToken (userID : Z) (ttl : Z) : St (result Token) :=
  n <- time_Now ;;
  r <- rand_Read 16 ;;
  match r with
  | Err e =>
      log_Printf ("failed to generate random bytes: " ++ Error e) ;;;
      ret (Err e)
  | Ok randomBytes =>
      let plain := Base32.EncodeToString randomBytes in
      let hash := Sha256.Sum256 (bytes_of_string plain) in
      ret (Ok {| Token_ID := 0; Token_UserID := userID; Token_Email := "";
                 Token_Token := plain; Token_TokenHash := hash;
                 Token_CreatedAt := time_zero; Token_UpdatedAt := time_zero;
                 Token_Expiry := n + ttl |})
  end.

Definition DeleteToken (plainText : string) : St (option error) :=
  err <- db_ExecContext (DELETE "tokens" ("plainText", VText plainText)) ;;
  match err with
  | Some e => log_Printf ("failed to delete token: " ++ Error e) ;;; ret (Some e)
  | None => ret None
  end.

Definition InsertToken (token : Token) : St (option error) :=
  err <- DeleteToken (Token_Token token) ;;
  match err with
  | Some e => log_Printf ("failed to delete token: " ++ Error e) ;;; ret (Some e)
  | None =>
      created <- time_Now ;;
      updated <- time_Now ;;
      err <- db_ExecContext
               (INSERT "tokens"
                       ["user_id"; "email"; "token"; "token_hash";
                        "created_at"; "updated_at"; "expiry"]
                       [VInt (Token_UserID token); VText (Token_Email token);
                        VText (Token_Token token); VBytea (Token_TokenHash token);
                        VTime created; VTime updated; VTime (Token_Expiry token)]
                       None) ;;
      match err with
      | Some e => log_Printf ("failed to insert token: " ++ Error e) ;;; ret (Some e)
      | None => ret None
      end
  end.

(** *** Request Authenticator *)

(** The messages of [AuthenticationToken], one per failed check. *)
Definition no_token_provided : error := errors_New "no token provided".
Definition invalid_token_format : error := errors_New "invalid token format".
Definition invalid_token_length : error := errors_New "invalid token length".
Definition no_matching_token_found : error := errors_New "no matching token found".
Definition token_expired : error := errors_New "token expired".
Definition no_matching_user_found : error := errors_New "no matching user found".

Definition AuthenticationToken (r : Request) : St (result User) :=
  let token := Header_Get (Header r) "Authorization" in
  if String.eqb token "" then ret (Err no_token_provided)
  else
    let headerParts := strings_Split_space token in
    if negb (Nat.eqb (List.length headerParts) 2)
       || negb (String.eqb (nth 0 headerParts "") "Bearer")
    then ret (Err invalid_token_format)
    else
      let tk := nth 1 headerParts "" in
      if negb (len tk =? 26) then ret (Err invalid_token_length)
      else
        found <- GetByToken tk ;;
        match found with
        | Err _ => ret (Err no_matching_token_found)
        | Ok tokenModel =>
            n <- time_Now ;;
            if Token_Expiry tokenModel <? n then ret (Err token_expired)
            else
              u <- GetUserByToken tokenModel ;;
              match u with
              | Err _ => ret (Err no_matching_user_found)
              | Ok user => ret (Ok user)
              end
        end.

(** The failure kinds of the design, read off the message. *)
Inductive failure : Type :=
| MalformedHeader
| InvalidTokenLength
| TokenNotFound
| TokenExpired
| UserNotFound.

Definition failure_of (e : error) : option failure :=
  if error_eqb e no_token_provided then Some MalformedHeader
  else if error_eqb e invalid_token_format then Some MalformedHeader
  else if error_eqb e invalid_token_length then Some InvalidTokenLength
  else if error_eqb e no_matching_token_found then Some TokenNotFound
  else if error_eqb e token_expired then Some TokenExpired
  else if error_eqb e no_matching_user_found then Some UserNotFound
  else None.

(** ** The schema

    The tables are created outside the package; the statements of the
    package and section 6 of the design agree on their columns, but for
    the column that [GetByToken] and [DeleteToken] call [plainText]. *)

(** Modelled from the spec: the table
    [users(id, email, first_name, last_name, password, created_at,
    updated_at)] of section 6, whose declaration is not part of the
    package. *)
Definition users_columns : list string :=
  ["id"; "email"; "first_name"; "last_name"; "password"; "created_at"; "updated_at"].

(** Modelled from the spec: the table
    [tokens(id, user_id, email, token, token_hash, created_at, updated_at,
    expiry)] of section 6, whose declaration is not part of the package.
    The INSERT of [InsertToken] names the same columns. *)
Definition tokens_columns : list string :=
  ["id"; "user_id"; "email"; "token"; "token_hash"; "created_at"; "updated_at"; "expiry"].

(** The tables of the world have the columns of the design. *)
Definition schema_of_design (w : World) : Prop :=
  columns (users (db w)) = users_columns /\
  columns (tokens (db w)) = tokens_columns.

(** ** Vocabulary of the properties *)

(** *** Worlds and statements *)

(** The world after statement [q] was sent and ended as [o], the database
    being [d] from then on. *)
Definition sent (q : stmt) (o : option error) (d : database) (w : World) : World :=
  {| db := d; now := now w; faults := tl (faults w); entropy := entropy w;
     trace := trace w ++ [Statement q o] |}.

(** The world after a line was logged. *)
Definition logged (msg : string) (w : World) : World :=
  {| db := db w; now := now w; faults := faults w; entropy := entropy w;
     trace := trace w ++ [Log msg] |}.

(** The world after a statement hung until the time [ctx]. *)
Definition hung (ctx : Z) (q : stmt) (w : World) : World :=
  {| db := db w; now := ctx; faults := tl (faults w); entropy := entropy w;
     trace := trace w ++ [Statement q (Some context_DeadlineExceeded)] |}.

(** The world after a sleep of [d]. *)
Definition slept (d : Z) (w : World) : World :=
  {| db := db w; now := now w + d; faults := faults w; entropy := entropy w;
     trace := trace w ++ [Sleep d] |}.

(** The world after [n] bytes were drawn from the random source. *)
Definition drawn (n : nat) (w : World) : World :=
  {| db := db w; now := now w; faults := faults w;
     entropy := skipn n (entropy w); trace := trace w |}.

(** The statements of the package, by name. *)
Definition lookup_token (plainText : string) : stmt :=
  SELECT ["id"; "user_id"; "email"; "plainText"; "token_hash";
          "created_at"; "updated_at"; "expiry"] "tokens"
         (Some ("plainText", VText plainText)).

Definition lookup_user (id : Z) : stmt :=
  SELECT ["id"; "email"; "first_name"; "last_name"; "password";
          "created_at"; "updated_at"] "users" (Some ("id", VInt id)).

Definition delete_token (plainText : string) : stmt :=
  DELETE "tokens" ("plainText", VText plainText).

Definition insert_token (token : Token) (created updated : Z) : stmt :=
  INSERT "tokens"
         ["user_id"; "email"; "token"; "token_hash";
          "created_at"; "updated_at"; "expiry"]
         [VInt (Token_UserID token); VText (Token_Email token);
          VText (Token_Token token); VBytea (Token_TokenHash token);
          VTime created; VTime updated; VTime (Token_Expiry token)]
         None.

(** The row that the INSERT of [InsertToken] stores: the id comes from the
    sequence, the two timestamps from the clock of the server. *)
Definition inserted_row (token : Token) (id created updated : Z) : row :=
  [("id", VInt id); ("user_id", VInt (Token_UserID token));
   ("email", VText (Token_Email token)); ("token", VText (Token_Token token));
   ("token_hash", VBytea (Token_TokenHash token));
   ("created_at", VTime created); ("updated_at", VTime updated);
   ("expiry", VTime (Token_Expiry token))].

(** The row that the INSERT of [Insert] stores. *)
Definition user_row (user : User) (hashedPassword : list byte) (id : Z) : row :=
  [("id", VInt id); ("email", VText (User_Email user));
   ("first_name", VText (User_FirstName user));
   ("last_name", VText (User_LastName user));
   ("password", VBytea hashedPassword);
   ("created_at", VTime (User_CreatedAt user));
   ("updated_at", VTime (User_UpdatedAt user))].

(** The database after that INSERT. *)
Definition inserted (user : User) (hashedPassword : list byte) (d : database)
  : database :=
  {| users := {| columns := columns (users d);
                 serial := serial (users d) + 1;
                 rows := rows (users d)
                         ++ [user_row user hashedPassword (serial (users d))] |};
     tokens := tokens d |}.

(** The rows of the users table whose id is not [id]. *)
Definition without_id (id : Z) (rs : list row) : list row :=
  filter (fun r => negb (value_eqb (get "id" r) (VInt id))) rs.

(** Some row of the tokens table holds [tk] in one of its columns. *)
Definition token_stored (w : World) (tk : string) : Prop :=
  exists r c, In r (rows (tokens (db w))) /\ get c r = VText tk.

(** *** The request and its header *)

(** A request whose only header is [Authorization: h]. *)
Definition request (h : string) : Request :=
  {| Header := [("Authorization", [h])] |}.

(** The value of its [Authorization] header. *)
Definition authorization (r : Request) : string :=
  Header_Get (Header r) "Authorization".

(** The header [Bearer], one space, and [tk], which has no space. *)
Definition bearer (h tk : string) : Prop :=
  h = ("Bearer " ++ tk)%string /\ contains space tk = false.

(** What [AuthenticationToken] does with the result of the lookup: the
    rest of its body. *)
Definition after_lookup (found : result Token) : St (result User) :=
  match found with
  | Err _ => ret (Err no_matching_token_found)
  | Ok tokenModel =>
      n <- time_Now ;;
      if Token_Expiry tokenModel <? n then ret (Err token_expired)
      else
        u <- GetUserByToken tokenModel ;;
        match u with
        | Err _ => ret (Err no_matching_user_found)
        | Ok user => ret (Ok user)
        end
  end.

(** *** Base32 blocks *)

Definition block_ok (v : Z) : Prop := 0 <= v < 32.

(** *** What an operation sends, and when it stops *)

Definition is_Log (e : event) : bool :=
  match e with Log _ => true | _ => false end.

Definition is_failed (e : event) : bool :=
  match e with Statement _ (Some _) => true | _ => false end.

(** Some statement of [t] failed. *)
Definition failed (t : list event) : bool := existsb is_failed t.

(** Nothing is tried again: [t] has no sleep, and after a statement that
    failed nothing but log lines. *)
Fixpoint no_retry (t : list event) : bool :=
  match t with
  | [] => true
  | Sleep _ :: _ => false
  | Statement _ (Some _) :: rest => forallb is_Log rest
  | _ :: rest => no_retry rest
  end.

(** The events between two worlds, and those of them that are not log
    lines. *)
Definition since (w w' : World) : list event :=
  skipn (List.length (trace w)) (trace w').

Definition timeline (t : list event) : list event :=
  filter (fun e => negb (is_Log e)) t.

(** [m] appends only log lines. *)
Definition only_logs {A} (m : St A) : Prop :=
  forall w, exists msgs, trace (snd (m w)) = trace w ++ map Log msgs.

(** [m] retries nothing, and a failed statement shows in its result:
    [is_error] tells which results are failures. *)
Definition surfaces {A} (is_error : A -> bool) (m : St A) : Prop :=
  forall w, exists l,
    trace (snd (m w)) = trace w ++ l /\
    no_retry l = true /\
    (failed l = true -> is_error (fst (m w)) = true).

Definition is_Some {A} (o : option A) : bool :=
  match o with Some _ => true | None => false end.

Definition two_seconds : Z := time_Second * 2.

(** The runs of the loop, as the statements and sleeps it makes (log
    lines left out), the error it returns, and the time that passes.  The
    context lasts three seconds and a sleep two: the second call is in
    time unless the first hung, and the third call is always late; a call
    that is late is refused and its statement is not sent. *)
Definition gives_up : option error :=
  Some (fmt_Errorf_w "failed to insert user after 3 attempts: "
                     context_DeadlineExceeded).

Inductive Insert_run (q : stmt) : list event -> option error -> Z -> Prop :=
| first_try :
    Insert_run q [Statement q None] None 0
| second_try : forall e1,
    Insert_run q [Statement q (Some e1); Sleep two_seconds; Statement q None]
               None two_seconds
| gave_up : forall e1 e2,
    Insert_run q [Statement q (Some e1); Sleep two_seconds;
                  Statement q (Some e2); Sleep two_seconds]
               gives_up (2 * two_seconds)
| second_hung : forall e1,
    Insert_run q [Statement q (Some e1); Sleep two_seconds;
                  Statement q (Some context_DeadlineExceeded); Sleep two_seconds]
               gives_up (dbTimeout + two_seconds)
| first_hung :
    Insert_run q [Statement q (Some context_DeadlineExceeded);
                  Sleep two_seconds; Sleep two_seconds]
               gives_up (dbTimeout + 2 * two_seconds).

(** The methods of the package embedded above, [Insert] apart. *)
Inductive operation : Type :=
| op_GetAll
| op_GetByEmail (email : string)
| op_GetByID (id : Z)
| op_Update (user : User)
| op_Delete (id : Z)
| op_ResetPassword (u : User) (password : string)
| op_PasswordMatches (u : User) (candidate : string)
| op_GetByToken (plainText : string)
| op_GetUserByToken (token : Token)
| op_GenerateToken (userID ttl : Z)
| op_AuthenticationToken (r : Request)
| op_InsertToken (token : Token)
| op_DeleteToken (plainText : string).

Definition error_of {A} (r : result A) : option error :=
  match r with Ok _ => None | Err e => Some e end.

(** An operation run for the error it returns. *)
Definition perform (compare : list byte -> list byte -> option error)
                   (op : operation) : St (option error) :=
  match op with
  | op_GetAll => r <- GetAll ;; ret (error_of r)
  | op_GetByEmail email => r <- GetByEmail email ;; ret (error_of r)
  | op_GetByID id => r <- GetByID id ;; ret (error_of r)
  | op_Update user => Update user
  | op_Delete id => Delete id
  | op_ResetPassword u password => ResetPassword u password
  | op_PasswordMatches u candidate => ret (snd (PasswordMatches compare u candidate))
  | op_GetByToken plainText => r <- GetByToken plainText ;; ret (error_of r)
  | op_GetUserByToken token => r <- GetUserByToken token ;; ret (error_of r)
  | op_GenerateToken userID ttl => r <- GenerateToken userID ttl ;; ret (error_of r)
  | op_AuthenticationToken r => u <- AuthenticationToken r ;; ret (error_of u)
  | op_InsertToken token => InsertToken token
  | op_DeleteToken plainText => DeleteToken plainText
  end.

(** The failures that reach no caller: [ResetPassword] logs the error of
    its statement and returns nil; [GetAll] does not ask whether the rows
    ended or broke. *)
Definition unreported (op : operation) (w : World) : Prop :=
  (exists u password, op = op_ResetPassword u password) \/
  (op = op_GetAll /\ exists after e, hd None (faults w) = Some (Breaks after e)).

(** ** Fixtures: two users, a session, and layouts of the tokens table *)

(** A database with the tables of the design and nothing in them. *)
Definition empty_db : database :=
  {| users := {| columns := users_columns; serial := 1; rows := [] |};
     tokens := {| columns := tokens_columns; serial := 1; rows := [] |} |}.

Definition world0 : World :=
  {| db := empty_db; now := 1700000000 * time_Second; faults := [];
     entropy := []; trace := [] |}.

Definition T0 : Z := 1700000000 * time_Second.

Definition the_token : string := "MFRGGZDFMZTWQ2LKNNWG23TPOA".

Definition alice : User :=
  {| User_ID := 1; User_Email := "alice@example.com"; User_FirstName := "Alice";
     User_LastName := "Liddell"; User_Password := "$2a$12$stored.hash";
     User_CreatedAt := T0; User_UpdatedAt := T0; User_Token := Token_zero |}.

Definition alice_row : row :=
  [("id", VInt 1); ("email", VText "alice@example.com");
   ("first_name", VText "Alice"); ("last_name", VText "Liddell");
   ("password", VText "$2a$12$stored.hash");
   ("created_at", VTime T0); ("updated_at", VTime T0)].

(** A session row of alice; [col] is the name of the column that holds the
    token text. *)
Definition session_row (col : string) (expiry : Z) : row :=
  [("id", VInt 1); ("user_id", VInt 1); ("email", VText "alice@example.com");
   (col, VText the_token); ("token_hash", VBytea [x01; x02; x03]);
   ("created_at", VTime T0); ("updated_at", VTime T0); ("expiry", VTime expiry)].

Definition stored_session (col : string) (expiry : Z) : database :=
  {| users := {| columns := users_columns; serial := 2; rows := [alice_row] |};
     tokens := {| columns := ["id"; "user_id"; "email"; col; "token_hash";
                              "created_at"; "updated_at"; "expiry"];
                  serial := 2; rows := [session_row col expiry] |} |}.

(** The world at time [at_], with the session stored under column [col]. *)
Definition world_at (col : string) (expiry at_ : Z) : World :=
  {| db := stored_session col expiry; now := at_; faults := [];
     entropy := []; trace := [] |}.

(** A world whose tokens table has both a [token] and a [plaintext]
    column. *)
Definition two_columns : World :=
  {| db := {| users := {| columns := users_columns; serial := 2; rows := [alice_row] |};
              tokens := {| columns := ["id"; "user_id"; "email"; "token"; "plaintext";
                                       "token_hash"; "created_at"; "updated_at";
                                       "expiry"];
                           serial := 1; rows := [] |} |};
     now := T0; faults := []; entropy := []; trace := [] |}.

(** A session of alice as [GenerateToken] would make it, for a day. *)
Definition alice_session : Token :=
  {| Token_ID := 0; Token_UserID := 1; Token_Email := "alice@example.com";
     Token_Token := the_token; Token_TokenHash := [x01; x02; x03];
     Token_CreatedAt := time_zero; Token_UpdatedAt := time_zero;
     Token_Expiry := T0 + 86400 * time_Second |}.

(** The random source delivers the bytes [abcdefghijklmnop]. *)
Definition world_with_entropy : World :=
  {| db := empty_db; now := T0; faults := [];
     entropy := bytes_of_string "abcdefghijklmnopqrstuvwxyz0123456789";
     trace := [] |}.

(** The token that [GenerateToken] issues to user 1 for a day in that
    world. *)
Definition issued : Token :=
  {| Token_ID := 0; Token_UserID := 1; Token_Email := "";
     Token_Token := the_token;
     Token_TokenHash := Sha256.Sum256 (bytes_of_string the_token);
     Token_CreatedAt := time_zero; Token_UpdatedAt := time_zero;
     Token_Expiry := T0 + 86400 * time_Second |}.

(** A stand-in with the interface of bcrypt for the examples: the hash is
    the salt followed by the SHA-256 digest of salt and password; a stored
    hash of another length cannot be read. *)
Definition stand_in_hash (password : list byte) (cost : Z) (salt : list byte)
  : result (list byte) :=
  Ok (salt ++ Sha256.Sum256 (salt ++ password)).

Definition stand_in_compare (hashed password : list byte) : option error :=
  if negb (Nat.eqb (List.length hashed) 48)
  then Some (bcrypt_error "crypto/bcrypt: hashedSecret too short to be a bcrypted password")
  else
    let salt := firstn 16 hashed in
    if list_eq_dec Byte.byte_eq_dec hashed (salt ++ Sha256.Sum256 (salt ++ password))
    then None
    else Some bcrypt_ErrMismatchedHashAndPassword.

Definition stand_in_digest (password : string) : string :=
  match stand_in_hash (bytes_of_string password) 12 (repeat x2a 16) with
  | Ok h => string_of_bytes h
  | Err _ => ""
  end.

Definition bob (stored : string) : User :=
  {| User_ID := 2; User_Email := "bob@example.com"; User_FirstName := "Bob";
     User_LastName := ""; User_Password := stored;
     User_CreatedAt := T0; User_UpdatedAt := T0; User_Token := Token_zero |}.

(** The hash that [stand_in_hash] gives [secret] with the salt drawn in
    the worlds below. *)
Definition bobs_salted_hash : list byte :=
  repeat x2a 16 ++ Sha256.Sum256 (repeat x2a 16 ++ bytes_of_string "secret").

(** The datastore is unreachable for two statements and back after that. *)
Definition two_failures : World :=
  {| db := empty_db; now := T0;
     faults := [Some (Fails (driver_error "dial tcp: connection refused"));
                Some (Fails (driver_error "dial tcp: connection refused"))];
     entropy := repeat x2a 16; trace := [] |}.

(** ** Vocabulary of the further properties *)

(** The environment lets the next statement run; the next two. *)
Definition next_runs (w : World) : Prop := hd None (faults w) = None.

Definition next_two_run (w : World) : Prop :=
  hd None (faults w) = None /\ hd None (tl (faults w)) = None.

(** The users table of the world has the columns of the design. *)
Definition users_of_design (w : World) : Prop :=
  columns (users (db w)) = users_columns.

(** No row of the users table has this id; this email. *)
Definition no_user_with_id (id : Z) (w : World) : Prop :=
  forall r, In r (rows (users (db w))) -> get "id" r <> VInt id.

Definition no_user_with_email (email : string) (w : World) : Prop :=
  forall r, In r (rows (users (db w))) -> get "email" r <> VText email.

(** The [User] that a lookup returns for the row [Insert] stored for
    [user]: the generated id, the hash as password, no token. *)
Definition stored_user (user : User) (hashedPassword : list byte) (id : Z) : User :=
  {| User_ID := id; User_Email := User_Email user;
     User_FirstName := User_FirstName user; User_LastName := User_LastName user;
     User_Password := string_of_bytes hashedPassword;
     User_CreatedAt := User_CreatedAt user; User_UpdatedAt := User_UpdatedAt user;
     User_Token := Token_zero |}.

(** [u] with another password; with the fields that [Update] writes taken
    from [user]. *)
Definition with_password (u : User) (password : string) : User :=
  {| User_ID := User_ID u; User_Email := User_Email u;
     User_FirstName := User_FirstName u; User_LastName := User_LastName u;
     User_Password := password;
     User_CreatedAt := User_CreatedAt u; User_UpdatedAt := User_UpdatedAt u;
     User_Token := User_Token u |}.

Definition updated_from (u user : User) : User :=
  {| User_ID := User_ID u; User_Email := User_Email user;
     User_FirstName := User_FirstName user; User_LastName := User_LastName user;
     User_Password := User_Password u;
     User_CreatedAt := User_CreatedAt u; User_UpdatedAt := User_UpdatedAt user;
     User_Token := User_Token u |}.

(** The statements of [GetByEmail], [Update] and [ResetPassword]. *)
Definition lookup_email (email : string) : stmt :=
  SELECT ["id"; "email"; "first_name"; "last_name"; "password";
          "created_at"; "updated_at"] "users" (Some ("email", VText email)).

Definition update_user (user : User) : stmt :=
  UPDATE "users"
         [("email", VText (User_Email user));
          ("first_name", VText (User_FirstName user));
          ("last_name", VText (User_LastName user));
          ("updated_at", VTime (User_UpdatedAt user))]
         ("id", VInt (User_ID user)).

Definition reset_password (id : Z) (password : string) : stmt :=
  UPDATE "users" [("password", VText password)] ("id", VInt id).

(** The columns that the lookups of users select. *)
Definition user_fields : list string :=
  ["id"; "email"; "first_name"; "last_name"; "password"; "created_at"; "updated_at"].

(** The hash that [stand_in_hash] gives [secret] with the salt drawn in
    [world_with_entropy]. *)
Definition bobs_hash : list byte :=
  firstn 16 (entropy world_with_entropy)
  ++ Sha256.Sum256 (firstn 16 (entropy world_with_entropy) ++ bytes_of_string "secret").

(** A row after the [UPDATE] of [Update]; after that of [ResetPassword]. *)
Definition updated_row (user : User) (r : row) : row :=
  set "updated_at" (VTime (User_UpdatedAt user))
      (set "last_name" (VText (User_LastName user))
           (set "first_name" (VText (User_FirstName user))
                (set "email" (VText (User_Email user)) r))).

Definition reset_row (password : string) (r : row) : row :=
  set "password" (VText password) r.

(** The database after the rows of the users table with this id went
    through [change]. *)
Definition users_changed (id : Z) (change : row -> row) (d : database) : database :=
  {| users := {| columns := columns (users d); serial := serial (users d);
                 rows := map (fun r => if value_eqb (get "id" r) (VInt id)
                                       then change r else r)
                             (rows (users d)) |};
     tokens := tokens d |}.

(** The six messages that [AuthenticationToken] can return. *)
Definition authentication_errors : list error :=
  [no_token_provided; invalid_token_format; invalid_token_length;
   no_matching_token_found; token_expired; no_matching_user_found].

(** The datastore is down when the token is looked up: alice's session is
    stored where the lookup would find it, and the first statement fails. *)
Definition datastore_down : World :=
  {| db := stored_session "plaintext" (T0 + 1); now := T0;
     faults := [Some (Fails (driver_error "dial tcp 10.0.0.5:5432: connection refused"))];
     entropy := []; trace := [] |}.

(** The statement of [GetAll]. *)
Definition select_users : stmt := SELECT user_fields "users" None.

(** Users as [Insert] stores them: what was given, the hash, the id. *)
Definition entry : Type := (User * list byte * Z)%type.

Definition entry_row (e : entry) : row :=
  user_row (fst (fst e)) (snd (fst e)) (snd e).

Definition entry_user (e : entry) : User :=
  stored_user (fst (fst e)) (snd (fst e)) (snd e).

(** A world whose users table holds alice and bob as [Insert] stored
    them. *)
Definition two_users : World :=
  {| db := {| users := {| columns := users_columns; serial := 3;
                          rows := [entry_row (alice, [x01; x02], 1);
                                   entry_row (bob "secret", [x03], 2)] |};
              tokens := {| columns := tokens_columns; serial := 1; rows := [] |} |};
     now := T0; faults := []; entropy := []; trace := [] |}.

(** The datastore does not answer the next statement. *)
Definition no_answer : World :=
  {| db := empty_db; now := T0; faults := [Some Hangs];
     entropy := repeat x2a 16; trace := [] |}.

(** The connection is lost while the rows of the next query are read,
    after the first of them. *)
Definition rows_break : World :=
  {| db := db two_users; now := T0;
     faults := [Some (Breaks 1 (driver_error "unexpected EOF"))];
     entropy := []; trace := [] |}.

(** ** Decoding base32

    The package only encodes; the decoder is here to state that the text
    of a token keeps all of its random bytes. *)

(** The position of [c] in [s], counted from [i]. *)
Fixpoint index_of (c : ascii) (s : string) (i : Z) : Z :=
  match s with
  | EmptyString => i
  | String d s' => if Ascii.eqb d c then i else index_of c s' (i + 1)
  end.

Definition decode_char (c : ascii) : Z := index_of c Base32.encodeStd 0.

(** The five bytes of a quantum from its eight blocks. *)
Definition dec0 (b0 b1 : Z) : Z := b0 * 8 + b1 / 4.
Definition dec1 (b1 b2 b3 : Z) : Z := (b1 mod 4) * 64 + b2 * 2 + b3 / 16.
Definition dec2 (b3 b4 : Z) : Z := (b3 mod 16) * 16 + b4 / 2.
Definition dec3 (b4 b5 b6 : Z) : Z := (b4 mod 2) * 128 + b5 * 4 + b6 / 8.
Definition dec4 (b6 b7 : Z) : Z := (b6 mod 8) * 32 + b7.

Fixpoint unblocks (bs : list Z) : list Z :=
  match bs with
  | b0 :: b1 :: b2 :: b3 :: b4 :: b5 :: b6 :: b7 :: rest =>
      dec0 b0 b1 :: dec1 b1 b2 b3 :: dec2 b3 b4 :: dec3 b4 b5 b6 :: dec4 b6 b7
      :: unblocks rest
  | [b0; b1; b2; b3; b4; b5; b6] =>
      [dec0 b0 b1; dec1 b1 b2 b3; dec2 b3 b4; dec3 b4 b5 b6]
  | [b0; b1; b2; b3; b4] => [dec0 b0 b1; dec1 b1 b2 b3; dec2 b3 b4]
  | [b0; b1; b2; b3] => [dec0 b0 b1; dec1 b1 b2 b3]
  | [b0; b1] => [dec0 b0 b1]
  | _ => []
  end.

Definition base32_Decode (s : string) : list byte :=
  map byte_of_Z (unblocks (map decode_char (list_ascii_of_string s))).

(** The 256 values of a byte, and a check of all of them. *)
Definition byte_values : list Z := map Z.of_nat (seq 0 256).

Definition for_all_bytes (f : Z -> bool) : bool := forallb f byte_values.

Definition is_byte (z : Z) : Prop := 0 <= z < 256.

(** The token of the next call, for user 2 and an hour: the random source
    delivers [qrstuvwxyz012345]. *)
Definition issued_next : Token :=
  {| Token_ID := 0; Token_UserID := 2; Token_Email := "";
     Token_Token := "OFZHG5DVOZ3XQ6L2GAYTEMZUGU";
     Token_TokenHash := Sha256.Sum256 (bytes_of_string "OFZHG5DVOZ3XQ6L2GAYTEMZUGU");
     Token_CreatedAt := time_zero; Token_UpdatedAt := time_zero;
     Token_Expiry := T0 + 3600 * time_Second |}.

(** The columns that the lookup of [GetByToken] names. *)
Definition token_fields : list string :=
  ["id"; "user_id"; "email"; "plainText"; "token_hash";
   "created_at"; "updated_at"; "expiry"].

(** The tokens table of the world has those columns, as the datastore
    spells them. *)
Definition tokens_as_looked_up (w : World) : Prop :=
  columns (tokens (db w)) = map fold_ident token_fields.

(** * Properties *)

(** ** Printing a time *)

Example time_String_2023 :
  time_String (1700000000 * time_Second) = "2023-11-14 22:13:20 +0000 UTC".
Proof. reflexivity. Qed.

Example time_String_zero : time_String time_zero = "0001-01-01 00:00:00 +0000 UTC".
Proof. reflexivity. Qed.

Example time_String_leap_day :
  time_String (951868799 * time_Second + 500000000)
  = "2000-02-29 23:59:59.5 +0000 UTC".
Proof. reflexivity. Qed.

(** ** Test vectors of the encodings *)

Example base32_foobar :
  Base32.EncodeToString (bytes_of_string "foobar") = "MZXW6YTBOI".
Proof. reflexivity. Qed.

Example base32_f : Base32.EncodeToString (bytes_of_string "f") = "MY".
Proof. reflexivity. Qed.

Example sha256_constants :
  firstn 2 Sha256.round_constants = [0x428a2f98; 0x71374491] /\
  nth 63 Sha256.round_constants 0 = 0xc67178f2 /\
  firstn 2 Sha256.init_hash = [0x6a09e667; 0xbb67ae85].
Proof. vm_compute. repeat split. Qed.

Example sha256_abc :
  Sha256.digest_words (bytes_of_string "abc") =
  [0xba7816bf; 0x8f01cfea; 0x414140de; 0x5dae2223;
   0xb00361a3; 0x96177a9c; 0xb410ff61; 0xf20015ad].
Proof. vm_compute. reflexivity. Qed.

Example sha256_empty :
  Sha256.digest_words [] =
  [0xe3b0c442; 0x98fc1c14; 0x9afbf4c8; 0x996fb924;
   0x27ae41e4; 0x649b934c; 0xa495991b; 0x7852b855].
Proof. vm_compute. reflexivity. Qed.

Example sha256_two_blocks :
  Sha256.digest_words
    (bytes_of_string "abcdbcdecdefdefgefghfghighijhijkijkljklmklmnlmnomnopnopq") =
  [0x248d6a61; 0xd20638b8; 0xe5c02693; 0x0c3e6039;
   0xa33ce459; 0x64ff2167; 0xf6ecedd4; 0x19db06c1].
Proof. vm_compute. reflexivity. Qed.

(** ** Splitting a header *)

Lemma Split_nonempty : forall s, strings_Split_space s <> [].
Proof.
  induction s as [|c s IH]; simpl; [discriminate|].
  destruct (Ascii.eqb c space); [discriminate|].
  destruct (strings_Split_space s); [contradiction|discriminate].
Qed.

(** Joining the pieces with single spaces gives the string back. *)
Lemma Split_join : forall s, String.concat " " (strings_Split_space s) = s.
Proof.
  induction s as [|c s IH]; simpl; [reflexivity|].
  destruct (Ascii.eqb c space) eqn:Hc.
  - apply Ascii.eqb_eq in Hc. subst c.
    destruct (strings_Split_space s) as [|p ps] eqn:Hs.
    + exfalso. exact (Split_nonempty s Hs).
    + simpl in *. rewrite IH. reflexivity.
  - destruct (strings_Split_space s) as [|p ps] eqn:Hs.
    + exfalso. exact (Split_nonempty s Hs).
    + destruct ps; simpl in *; rewrite IH; reflexivity.
Qed.

(** No piece contains a space. *)
Lemma Split_pieces : forall s,
  Forall (fun p => contains space p = false) (strings_Split_space s).
Proof.
  induction s as [|c s IH]; simpl.
  - constructor; [reflexivity|constructor].
  - destruct (Ascii.eqb c space) eqn:Hc.
    + constructor; [reflexivity|exact IH].
    + destruct (strings_Split_space s) as [|p ps].
      * constructor; [simpl; rewrite Hc; reflexivity|constructor].
      * inversion IH; subst. constructor; [simpl; rewrite Hc; assumption|assumption].
Qed.

Lemma Split_no_space : forall s,
  contains space s = false -> strings_Split_space s = [s].
Proof.
  induction s as [|c s IH]; simpl; intros H; [reflexivity|].
  apply orb_false_iff in H. destruct H as [Hc Hs].
  rewrite Hc, (IH Hs). reflexivity.
Qed.

Lemma Split_Bearer : forall tk,
  contains space tk = false ->
  strings_Split_space ("Bearer " ++ tk) = ["Bearer"; tk].
Proof.
  intros tk H. simpl. rewrite (Split_no_space tk H). reflexivity.
Qed.

(** A header passes the shape check exactly when it is [Bearer], one
    space, and a value without a space. *)
Lemma shape_check : forall h,
  Nat.eqb (List.length (strings_Split_space h)) 2 = true ->
  String.eqb (nth 0 (strings_Split_space h) "") "Bearer" = true ->
  h = ("Bearer " ++ nth 1 (strings_Split_space h) "")%string /\
  contains space (nth 1 (strings_Split_space h) "") = false.
Proof.
  intros h Hlen Hhd.
  pose proof (Split_join h) as Hj.
  pose proof (Split_pieces h) as Hp.
  destruct (strings_Split_space h) as [|p0 [|p1 [|p2 ps]]]; try discriminate.
  simpl in *. apply String.eqb_eq in Hhd. subst p0.
  apply Forall_inv_tail in Hp. apply Forall_inv in Hp.
  split; [symmetry; exact Hj|exact Hp].
Qed.

Lemma Bearer_not_empty : forall tk, String.eqb ("Bearer " ++ tk) "" = false.
Proof. reflexivity. Qed.

Lemma len_26 : forall s, (len s =? 26) = Nat.eqb (String.length s) 26.
Proof.
  intros s. unfold len.
  destruct (Nat.eqb (String.length s) 26) eqn:H.
  - apply Nat.eqb_eq in H. rewrite H. reflexivity.
  - apply Nat.eqb_neq in H. apply Z.eqb_neq. lia.
Qed.

(** ** The datastore, one statement at a time *)

Lemma run_cases : forall q w,
  (exists e, run q w = (Err e, sent q (Some e) (db w) w)) \/
  (exists d rs, (forall e, hd None (faults w) <> Some (Fails e)) /\
                exec q (db w) = Ok (d, rs) /\
                run q w = (Ok rs, sent q None d w)).
Proof.
  intros q w. unfold run, sent.
  destruct (faults w) as [|[[e| |after e]|] fs] eqn:Hf; simpl;
    try (left; exists e; reflexivity);
    try (left; exists context_DeadlineExceeded; reflexivity);
    (destruct (exec q (db w)) as [[d rs]|e'] eqn:Hx;
     [right; exists d, rs; split; [discriminate|auto]
     |left; exists e'; reflexivity]).
Qed.

Lemma exec_SELECT : forall cols from cond d d' rs,
  exec (SELECT cols from (Some cond)) d = Ok (d', rs) ->
  d' = d /\
  exists t, find_table d from = Some t /\
            rs = map (project cols) (filter (matches cond) (rows t)).
Proof.
  intros cols from cond d d' rs H. simpl in H.
  destruct (find_table d from) as [t|]; [|discriminate].
  destruct (missing_column t _); [discriminate|].
  inversion H; subst. split; [reflexivity|]. exists t. auto.
Qed.

(** A row that [QueryRowContext] hands to [Scan] is a stored row that meets
    the condition; the statement leaves the database as it was. *)
Lemma QueryRow_SELECT : forall cols from cond w,
  exists res o,
    db_QueryRowContext (SELECT cols from (Some cond)) w
    = (res, sent (SELECT cols from (Some cond)) o (db w) w) /\
    (forall vs, res = Ok vs ->
       exists t r, find_table (db w) from = Some t /\ In r (rows t) /\
                   matches cond r = true /\ vs = project cols r).
Proof.
  intros cols from cond w. unfold db_QueryRowContext, bind.
  destruct (run_cases (SELECT cols from (Some cond)) w)
    as [[e H]|[d [rs [_ [Hx H]]]]]; rewrite H.
  - exists (Err e), (Some e). split; [reflexivity|discriminate].
  - apply exec_SELECT in Hx. destruct Hx as [-> [t [Ht ->]]].
    destruct (filter (matches cond) (rows t)) as [|r0 rest] eqn:Hf; simpl.
    + exists (Err sql_ErrNoRows), None. split; [reflexivity|discriminate].
    + exists (Ok (project cols r0)), None. split; [reflexivity|].
      intros vs Hvs. inversion Hvs; subst. exists t, r0.
      assert (Hin : In r0 (filter (matches cond) (rows t)))
        by (rewrite Hf; left; reflexivity).
      apply filter_In in Hin. destruct Hin as [Hin Hm]. auto.
Qed.

Lemma value_eqb_true : forall a b, value_eqb a b = true -> a = b.
Proof.
  intros a b H. unfold value_eqb in H.
  destruct a, b; try discriminate;
    match type of H with
    | (if ?c then _ else _) = _ => destruct c; [assumption|discriminate]
    end.
Qed.

(** ** The two lookups of the authenticator *)

Lemma GetByToken_cases : forall p w,
  exists res o msgs,
    GetByToken p w = (res, fold_left (fun v m => logged m v) msgs
                                     (sent (lookup_token p) o (db w) w)) /\
    (forall t, res = Ok t ->
       msgs = [] /\
       exists r, In r (rows (tokens (db w))) /\ get "plaintext" r = VText p).
Proof.
  intros p w. unfold GetByToken, bind.
  destruct (QueryRow_SELECT
              ["id"; "user_id"; "email"; "plainText"; "token_hash";
               "created_at"; "updated_at"; "expiry"] "tokens"
              ("plainText", VText p) w) as [res [o [H Hrow]]].
  rewrite H. fold (lookup_token p).
  destruct res as [vs|e]; simpl.
  - destruct (scan_Token vs) as [t|e] eqn:Hs.
    + exists (Ok t), o, []. split; [reflexivity|].
      intros t' _. split; [reflexivity|].
      destruct (Hrow vs eq_refl) as [tb [r [Ht [Hin [Hm _]]]]].
      unfold find_table in Ht. simpl in Ht. inversion Ht; subst tb.
      exists r. split; [exact Hin|].
      apply value_eqb_true in Hm. exact Hm.
    + destruct (errors_Is e sql_ErrNoRows).
      * eexists (Err _), o, []. split; [reflexivity|discriminate].
      * eexists (Err _), o, [_]. split; [reflexivity|discriminate].
  - destruct (errors_Is e sql_ErrNoRows).
    + eexists (Err _), o, []. split; [reflexivity|discriminate].
    + eexists (Err _), o, [_]. split; [reflexivity|discriminate].
Qed.

Lemma GetUserByToken_cases : forall t w,
  exists res o msgs,
    GetUserByToken t w
    = (res, fold_left (fun v m => logged m v) msgs
                      (sent (lookup_user (Token_UserID t)) o (db w) w)).
Proof.
  intros t w. unfold GetUserByToken, bind.
  destruct (QueryRow_SELECT
              ["id"; "email"; "first_name"; "last_name"; "password";
               "created_at"; "updated_at"] "users"
              ("id", VInt (Token_UserID t)) w) as [res [o [H _]]].
  rewrite H. fold (lookup_user (Token_UserID t)).
  destruct (and_then res scan_User) as [u|e].
  - exists (Ok u), o, []. reflexivity.
  - destruct (errors_Is e sql_ErrNoRows).
    + eexists _, o, []. reflexivity.
    + eexists _, o, [_]. reflexivity.
Qed.

Lemma logged_all_db : forall msgs w,
  db (fold_left (fun v m => logged m v) msgs w) = db w /\
  now (fold_left (fun v m => logged m v) msgs w) = now w /\
  trace (fold_left (fun v m => logged m v) msgs w) = trace w ++ map Log msgs.
Proof.
  induction msgs as [|m ms IH]; intros w; simpl.
  - rewrite app_nil_r. auto.
  - destruct (IH (logged m w)) as [Hd [Hn Ht]].
    rewrite Hd, Hn, Ht. simpl. rewrite <- app_assoc. auto.
Qed.

(** ** The checks of the authenticator, in order *)

Lemma AuthenticationToken_cases : forall r w,
  (authorization r = "" /\
   AuthenticationToken r w = (Err no_token_provided, w)) \/
  (authorization r <> "" /\ (forall tk, ~ bearer (authorization r) tk) /\
   AuthenticationToken r w = (Err invalid_token_format, w)) \/
  (exists tk, bearer (authorization r) tk /\ String.length tk <> 26%nat /\
   AuthenticationToken r w = (Err invalid_token_length, w)) \/
  (exists tk, bearer (authorization r) tk /\ String.length tk = 26%nat /\
   AuthenticationToken r w = bind (GetByToken tk) after_lookup w).
Proof.
  intros r w. unfold AuthenticationToken. fold (authorization r).
  destruct (String.eqb (authorization r) "") eqn:He.
  { left. apply String.eqb_eq in He. auto. }
  apply String.eqb_neq in He. right.
  destruct (Nat.eqb (List.length (strings_Split_space (authorization r))) 2) eqn:Hn;
    [destruct (String.eqb (nth 0 (strings_Split_space (authorization r)) "") "Bearer") eqn:Hb|].
  - destruct (shape_check _ Hn Hb) as [Hh Hs].
    set (tk := nth 1 (strings_Split_space (authorization r)) "") in *.
    simpl. rewrite len_26.
    destruct (Nat.eqb (String.length tk) 26) eqn:Hl; simpl.
    + right. right. exists tk. apply Nat.eqb_eq in Hl.
      split; [split; assumption|]. split; [assumption|reflexivity].
    + right. left. exists tk. apply Nat.eqb_neq in Hl.
      split; [split; assumption|]. split; [assumption|reflexivity].
  - left. split; [assumption|]. split; [|reflexivity].
    intros tk [Hh Hs]. rewrite Hh, (Split_Bearer tk Hs) in Hb. discriminate Hb.
  - left. split; [assumption|]. split; [|reflexivity].
    intros tk [Hh Hs]. rewrite Hh, (Split_Bearer tk Hs) in Hn. discriminate Hn.
Qed.

Lemma bearer_unique : forall h tk tk', bearer h tk -> bearer h tk' -> tk = tk'.
Proof.
  intros h tk tk' [H _] [H' _]. rewrite H in H'. simpl in H'.
  inversion H'. reflexivity.
Qed.

(** A header of the shape [Bearer tk] with a 26-byte [tk] reaches the
    lookup. *)
Lemma AuthenticationToken_lookup : forall r w tk,
  bearer (authorization r) tk -> String.length tk = 26%nat ->
  AuthenticationToken r w = bind (GetByToken tk) after_lookup w.
Proof.
  intros r w tk Hb Hl.
  destruct (AuthenticationToken_cases r w)
    as [[He _]|[[_ [Hno _]]|[[tk' [Hb' [Hl' _]]]|[tk' [Hb' [_ H]]]]]].
  - destruct Hb as [Hh _]. rewrite Hh in He. discriminate He.
  - exfalso. exact (Hno tk Hb).
  - rewrite (bearer_unique _ _ _ Hb Hb') in Hl. contradiction.
  - rewrite (bearer_unique _ _ _ Hb Hb'). exact H.
Qed.

Lemma after_lookup_world : forall found w,
  db (snd (after_lookup found w)) = db w /\
  now (snd (after_lookup found w)) = now w.
Proof.
  intros [t|e] w; simpl; [|auto].
  unfold bind, time_Now.
  destruct (Token_Expiry t <? now w); simpl; [auto|].
  destruct (GetUserByToken_cases t w) as [res [o [msgs H]]]. rewrite H.
  destruct (logged_all_db msgs (sent (lookup_user (Token_UserID t)) o (db w) w))
    as [Hd [Hn _]].
  destruct res; simpl; rewrite Hd, Hn; auto.
Qed.

(** The authenticator only reads: whatever it answers, the tables are as
    they were, and so is the clock. *)
Lemma AuthenticationToken_reads_only : forall r w,
  db (snd (AuthenticationToken r w)) = db w /\
  now (snd (AuthenticationToken r w)) = now w.
Proof.
  intros r w.
  destruct (AuthenticationToken_cases r w)
    as [[_ H]|[[_ [_ H]]|[[tk [_ [_ H]]]|[tk [_ [_ H]]]]]]; rewrite H; simpl; auto.
  unfold bind.
  destruct (GetByToken_cases tk w) as [res [o [msgs [Hg _]]]]. rewrite Hg.
  destruct (logged_all_db msgs (sent (lookup_token tk) o (db w) w)) as [Hd [Hn _]].
  destruct (after_lookup_world res
              (fold_left (fun v m => logged m v) msgs
                         (sent (lookup_token tk) o (db w) w))) as [Hd' Hn'].
  rewrite Hd', Hn', Hd, Hn. auto.
Qed.

Lemma GetByToken_now : forall p w, now (snd (GetByToken p w)) = now w.
Proof.
  intros p w. destruct (GetByToken_cases p w) as [res [o [msgs [Hg _]]]].
  rewrite Hg. simpl.
  destruct (logged_all_db msgs (sent (lookup_token p) o (db w) w)) as [_ [Hn _]].
  exact Hn.
Qed.

Lemma after_lookup_trace : forall found w,
  exists rest, trace (snd (after_lookup found w)) = trace w ++ rest.
Proof.
  intros [t|e] w; simpl; [|exists []; rewrite app_nil_r; reflexivity].
  unfold bind, time_Now.
  destruct (Token_Expiry t <? now w); simpl;
    [exists []; rewrite app_nil_r; reflexivity|].
  destruct (GetUserByToken_cases t w) as [res [o [msgs H]]]. rewrite H.
  destruct (logged_all_db msgs (sent (lookup_user (Token_UserID t)) o (db w) w))
    as [_ [_ Ht]].
  exists (Statement (lookup_user (Token_UserID t)) o :: map Log msgs).
  destruct res; simpl; rewrite Ht; simpl; rewrite <- app_assoc; reflexivity.
Qed.

Lemma after_lookup_result : forall found w,
  fst (after_lookup found w) = Err no_matching_token_found \/
  fst (after_lookup found w) = Err token_expired \/
  fst (after_lookup found w) = Err no_matching_user_found \/
  exists user, fst (after_lookup found w) = Ok user.
Proof.
  intros [t|e] w; simpl; [|auto].
  unfold bind, time_Now.
  destruct (Token_Expiry t <? now w); simpl; [auto|].
  destruct (GetUserByToken t w) as [[u|e] w']; simpl; eauto.
Qed.

Example the_token_is_base32 :
  Base32.EncodeToString (bytes_of_string "abcdefghijklmnop") = the_token.
Proof. reflexivity. Qed.

Example design_world : schema_of_design (world_at "token" T0 T0).
Proof. split; reflexivity. Qed.

(** ** Request Authenticator: the properties *)

(** C6.  [AuthenticationToken] runs its checks in order and stops at the
    first that fails.  An empty [Authorization] header is refused with the
    message of a malformed header, before anything else is looked at; a
    non-empty header that is not [Bearer], one space and a value without a
    space is refused as malformed as well; a header of that shape whose
    value is not 26 bytes long is refused for its length; these three leave
    the world untouched, so no lookup was made.  A header of that shape
    with a 26-byte value that no row of the tokens table holds is refused
    as not found. *)
Theorem C6_rejections_in_order : forall (r : Request) (w : World),
  (authorization r = "" ->
     AuthenticationToken r w = (Err no_token_provided, w)) /\
  (authorization r <> "" -> (forall tk, ~ bearer (authorization r) tk) ->
     AuthenticationToken r w = (Err invalid_token_format, w)) /\
  (forall tk, bearer (authorization r) tk -> String.length tk <> 26%nat ->
     AuthenticationToken r w = (Err invalid_token_length, w)) /\
  (forall tk, bearer (authorization r) tk -> String.length tk = 26%nat ->
     ~ token_stored w tk ->
     fst (AuthenticationToken r w) = Err no_matching_token_found) /\
  failure_of no_token_provided = Some MalformedHeader /\
  failure_of invalid_token_format = Some MalformedHeader /\
  failure_of invalid_token_length = Some InvalidTokenLength /\
  failure_of no_matching_token_found = Some TokenNotFound.
Proof.
  intros r w.
  destruct (AuthenticationToken_cases r w)
    as [[He H]|[[Hne [Hno H]]|[[tk0 [Hb [Hl H]]]|[tk0 [Hb [Hl H]]]]]].
  - repeat split; try reflexivity.
    + intros _. exact H.
    + intros Hne _. contradiction.
    + intros tk [Hh _] _. rewrite Hh in He. discriminate He.
    + intros tk [Hh _] _ _. rewrite Hh in He. discriminate He.
  - repeat split; try reflexivity.
    + intros He. contradiction.
    + intros _ _. exact H.
    + intros tk Hb _. exfalso. exact (Hno tk Hb).
    + intros tk Hb _ _. exfalso. exact (Hno tk Hb).
  - repeat split; try reflexivity.
    + intros He. destruct Hb as [Hh _]. rewrite Hh in He. discriminate He.
    + intros _ Hno. exfalso. exact (Hno tk0 Hb).
    + intros _ _ _. exact H.
    + intros tk Hb' Hl' _. rewrite (bearer_unique _ _ _ Hb' Hb) in Hl'.
      contradiction.
  - repeat split; try reflexivity.
    + intros He. destruct Hb as [Hh _]. rewrite Hh in He. discriminate He.
    + intros _ Hno. exfalso. exact (Hno tk0 Hb).
    + intros tk Hb' Hl'. rewrite (bearer_unique _ _ _ Hb' Hb) in Hl'.
      contradiction.
    + intros tk Hb' _ Hns. rewrite (bearer_unique _ _ _ Hb' Hb) in Hns.
      rewrite H. unfold bind.
      destruct (GetByToken_cases tk0 w) as [res [o [msgs [Hg Hok]]]].
      rewrite Hg. destruct res as [t|e]; [|reflexivity].
      exfalso. apply Hns. destruct (proj2 (Hok t eq_refl)) as [row [Hin Hget]].
      exists row, "plaintext". auto.
Qed.

(** The four rejections of the design's list, in a database that holds a
    session of alice under another token. *)
Lemma C6_rejections_witness :
  AuthenticationToken (request "") (world_at "token" T0 T0)
  = (Err no_token_provided, world_at "token" T0 T0) /\
  AuthenticationToken (request "Token abc") (world_at "token" T0 T0)
  = (Err invalid_token_format, world_at "token" T0 T0) /\
  AuthenticationToken (request "Bearer ab") (world_at "token" T0 T0)
  = (Err invalid_token_length, world_at "token" T0 T0) /\
  fst (AuthenticationToken (request "Bearer ZZZZZZZZZZZZZZZZZZZZZZZZZZ")
                           (world_at "token" T0 T0))
  = Err no_matching_token_found.
Proof.
  split; [|split; [|split]].
  - apply (proj1 (C6_rejections_in_order (request "") (world_at "token" T0 T0))).
    reflexivity.
  - apply (proj1 (proj2 (C6_rejections_in_order (request "Token abc")
                                                (world_at "token" T0 T0)))).
    + discriminate.
    + intros tk [H _]. discriminate H.
  - apply (proj1 (proj2 (proj2 (C6_rejections_in_order (request "Bearer ab")
                                                       (world_at "token" T0 T0))))
             "ab").
    + split; reflexivity.
    + discriminate.
  - apply (proj1 (proj2 (proj2 (proj2
             (C6_rejections_in_order (request "Bearer ZZZZZZZZZZZZZZZZZZZZZZZZZZ")
                                     (world_at "token" T0 T0)))))
             "ZZZZZZZZZZZZZZZZZZZZZZZZZZ").
    + split; reflexivity.
    + reflexivity.
    + intros [row [c [Hin Hget]]]. simpl in Hin. destruct Hin as [<-|[]].
      simpl in Hget.
      repeat match type of Hget with
             | (if ?b then _ else _) = _ => destruct b; [discriminate Hget|]
             end.
      discriminate Hget.
Defined.

(** C10.  Only the length of the token text is checked, not its alphabet:
    for every header made of [Bearer], one space and any 26-byte value
    without a space in it, the shape and the length checks pass, and the
    request goes on to the Token Store lookup with that value: the lookup
    statement for it is the next thing sent to the datastore, and the
    answer is none of the header rejections. *)
Theorem C10_only_the_length_is_checked : forall (r : Request) (w : World) (tk : string),
  bearer (authorization r) tk -> String.length tk = 26%nat ->
  AuthenticationToken r w = bind (GetByToken tk) after_lookup w /\
  (exists o rest,
     trace (snd (AuthenticationToken r w))
     = trace w ++ Statement (lookup_token tk) o :: rest) /\
  fst (AuthenticationToken r w) <> Err no_token_provided /\
  fst (AuthenticationToken r w) <> Err invalid_token_format /\
  fst (AuthenticationToken r w) <> Err invalid_token_length.
Proof.
  intros r w tk Hb Hl.
  pose proof (AuthenticationToken_lookup r w tk Hb Hl) as H.
  split; [exact H|]. rewrite H. unfold bind.
  destruct (GetByToken_cases tk w) as [res [o [msgs [Hg _]]]]. rewrite Hg.
  set (w1 := fold_left (fun v m => logged m v) msgs
                       (sent (lookup_token tk) o (db w) w)).
  split.
  - destruct (after_lookup_trace res w1) as [rest Hr].
    destruct (logged_all_db msgs (sent (lookup_token tk) o (db w) w))
      as [_ [_ Ht]].
    exists o, (map Log msgs ++ rest). rewrite Hr. unfold w1. rewrite Ht.
    simpl. rewrite <- !app_assoc. reflexivity.
  - destruct (after_lookup_result res w1) as [E|[E|[E|[u E]]]];
      rewrite E; repeat split; discriminate.
Qed.

(** A 26-byte value with characters outside the base32 alphabet reaches
    the lookup. *)
Lemma C10_witness :
  forallb Base32.in_alphabet (list_ascii_of_string "not-base32_token!0189abcde") = false /\
  exists o rest,
    trace (snd (AuthenticationToken (request "Bearer not-base32_token!0189abcde")
                                    (world_at "token" T0 T0)))
    = trace (world_at "token" T0 T0)
      ++ Statement (lookup_token "not-base32_token!0189abcde") o :: rest.
Proof.
  split; [reflexivity|].
  apply (proj1 (proj2 (C10_only_the_length_is_checked
                         (request "Bearer not-base32_token!0189abcde")
                         (world_at "token" T0 T0)
                         "not-base32_token!0189abcde"
                         (conj eq_refl eq_refl) eq_refl))).
Defined.

(** A value with a space in it does not have the shape: the header then
    splits into three pieces. *)
Example a_space_in_the_value :
  AuthenticationToken (request "Bearer ABCDEFGHIJKL MNOPQRSTUVWXY") world0
  = (Err invalid_token_format, world0).
Proof. reflexivity. Qed.

(** C1 (as amended).  [AuthenticationToken] only reads, so a stored row is
    left as it is whatever the answer.  It answers that the token is
    expired only after the lookup returned a row whose expiry is strictly
    before the current time; and when the lookup returns a row, that is
    exactly when it answers so: a row whose expiry is the current time, or
    later, passes the check and the request goes on to resolve the user. *)
Theorem C1_expired_when_strictly_before_now : forall (r : Request) (w : World),
  db (snd (AuthenticationToken r w)) = db w /\
  (fst (AuthenticationToken r w) = Err token_expired ->
     exists tk tm w1,
       bearer (authorization r) tk /\ GetByToken tk w = (Ok tm, w1) /\
       Token_Expiry tm < now w) /\
  (forall tk tm w1,
     bearer (authorization r) tk -> String.length tk = 26%nat ->
     GetByToken tk w = (Ok tm, w1) ->
     (Token_Expiry tm < now w ->
        AuthenticationToken r w = (Err token_expired, w1)) /\
     (now w <= Token_Expiry tm ->
        AuthenticationToken r w
        = bind (GetUserByToken tm)
               (fun u => ret (match u with
                              | Err _ => Err no_matching_user_found
                              | Ok user => Ok user
                              end)) w1)).
Proof.
  intros r w. split; [exact (proj1 (AuthenticationToken_reads_only r w))|]. split.
  - destruct (AuthenticationToken_cases r w)
      as [[_ H]|[[_ [_ H]]|[[tk [_ [_ H]]]|[tk [Hb [_ H]]]]]];
      rewrite H; try (simpl; discriminate).
    unfold bind. pose proof (GetByToken_now tk w) as Hn.
    destruct (GetByToken tk w) as [[tm|e] w1] eqn:Hg; simpl in *; [|discriminate].
    unfold bind, time_Now. rewrite Hn.
    destruct (Token_Expiry tm <? now w) eqn:Hlt.
    + intros _. exists tk, tm, w1. apply Z.ltb_lt in Hlt. auto.
    + destruct (GetUserByToken tm w1) as [[u|e] w2]; simpl; discriminate.
  - intros tk tm w1 Hb Hl Hg.
    rewrite (AuthenticationToken_lookup r w tk Hb Hl).
    pose proof (GetByToken_now tk w) as Hn. rewrite Hg in Hn. simpl in Hn.
    split; intros Hc; unfold bind at 1; rewrite Hg; simpl;
      unfold bind at 1, time_Now; rewrite Hn.
    + rewrite (proj2 (Z.ltb_lt _ _) Hc). reflexivity.
    + rewrite (proj2 (Z.ltb_ge _ _) Hc). unfold bind.
      destruct (GetUserByToken tm w1) as [[u|e] w2]; reflexivity.
Qed.

(** A session that expired a nanosecond ago is refused as expired, where
    the lookup returns its row. *)
Lemma C1_expired_witness :
  AuthenticationToken (request ("Bearer " ++ the_token))
                      (world_at "plaintext" T0 (T0 + 1))
  = (Err token_expired,
     snd (GetByToken the_token (world_at "plaintext" T0 (T0 + 1)))) /\
  db (snd (AuthenticationToken (request ("Bearer " ++ the_token))
                               (world_at "plaintext" T0 (T0 + 1))))
  = stored_session "plaintext" T0.
Proof.
  pose proof (C1_expired_when_strictly_before_now
                (request ("Bearer " ++ the_token))
                (world_at "plaintext" T0 (T0 + 1))) as [Hdb [_ H]].
  split; [|exact Hdb].
  refine (proj1 (H the_token
                   {| Token_ID := 1; Token_UserID := 1;
                      Token_Email := "alice@example.com";
                      Token_Token := the_token;
                      Token_TokenHash := [x01; x02; x03];
                      Token_CreatedAt := T0; Token_UpdatedAt := T0;
                      Token_Expiry := T0 |}
                   (snd (GetByToken the_token (world_at "plaintext" T0 (T0 + 1))))
                   (conj eq_refl eq_refl) eq_refl _) _).
  - vm_compute. reflexivity.
  - vm_compute. reflexivity.
Defined.

(** C1, as the design states it, fails when the current time is the expiry
    itself.  Alice's session is stored and expires at [T0]; at [T0] a
    request with its token is not refused as expired: where the lookup
    returns the row the request is authenticated as alice, and in the
    tables of the design, where the lookup names a column the table does
    not have, it is refused as not found. *)
Lemma C1_counterexample_at_expiry :
  token_stored (world_at "plaintext" T0 T0) the_token /\
  now (world_at "plaintext" T0 T0) = T0 /\
  fst (AuthenticationToken (request ("Bearer " ++ the_token))
                           (world_at "plaintext" T0 T0)) = Ok alice /\
  token_stored (world_at "token" T0 T0) the_token /\
  now (world_at "token" T0 T0) = T0 /\
  fst (AuthenticationToken (request ("Bearer " ++ the_token))
                           (world_at "token" T0 T0)) = Err no_matching_token_found.
Proof.
  repeat split.
  - exists (session_row "plaintext" T0), "plaintext".
    split; [left; reflexivity|reflexivity].
  - exists (session_row "token" T0), "token".
    split; [left; reflexivity|reflexivity].
Qed.

(** ** Credential Store: [Delete] *)

Lemma value_eqb_false : forall a b, a <> b -> value_eqb a b = false.
Proof.
  intros a b H. unfold value_eqb.
  destruct a, b; try reflexivity;
    match goal with
    | |- (if ?c then _ else _) = _ => destruct c; [contradiction|reflexivity]
    end.
Qed.

Lemma filter_all : forall (A : Type) (f : A -> bool) (l : list A),
  (forall x, In x l -> f x = true) -> filter f l = l.
Proof.
  intros A f l. induction l as [|x l IH]; intros H; simpl; [reflexivity|].
  rewrite (H x (or_introl eq_refl)). f_equal. apply IH.
  intros y Hy. apply H. right. exact Hy.
Qed.

Lemma run_DELETE_users : forall id w,
  columns (users (db w)) = users_columns -> hd None (faults w) = None ->
  run (DELETE "users" ("id", VInt id)) w
  = (Ok [],
     sent (DELETE "users" ("id", VInt id)) None
          {| users := {| columns := columns (users (db w));
                         serial := serial (users (db w));
                         rows := without_id id (rows (users (db w))) |};
             tokens := tokens (db w) |} w).
Proof.
  intros id w Hc Hf. unfold run.
  assert (Hx : exec (DELETE "users" ("id", VInt id)) (db w)
               = Ok ({| users := {| columns := columns (users (db w));
                                    serial := serial (users (db w));
                                    rows := without_id id (rows (users (db w))) |};
                        tokens := tokens (db w) |}, [])).
  { simpl. unfold has_column. rewrite Hc. reflexivity. }
  unfold sent. rewrite Hx.
  destruct (faults w) as [|[e|] fs]; simpl in Hf; try discriminate; reflexivity.
Qed.

(** C3 (as amended).  [Delete] sends one DELETE statement.  When the
    statement runs, every row of the users table with that id is gone, the
    others and the tokens table stay, and no error is reported, also when
    no row has the id: then nothing changes at all.  An error is reported
    only when the statement itself fails, and then nothing is removed. *)
Theorem C3_Delete_reports_only_a_failed_statement : forall (id : Z) (w : World),
  (columns (users (db w)) = users_columns -> hd None (faults w) = None ->
     fst (Delete id w) = None /\
     rows (users (db (snd (Delete id w)))) = without_id id (rows (users (db w))) /\
     tokens (db (snd (Delete id w))) = tokens (db w) /\
     ((forall r, In r (rows (users (db w))) -> get "id" r <> VInt id) ->
        db (snd (Delete id w)) = db w)) /\
  (forall e, fst (Delete id w) = Some e -> db (snd (Delete id w)) = db w).
Proof.
  intros id w. split.
  - intros Hc Hf. unfold Delete, db_ExecContext, bind.
    rewrite (run_DELETE_users id w Hc Hf). simpl.
    split; [reflexivity|]. split; [reflexivity|]. split; [reflexivity|].
    intros Hno. unfold without_id. rewrite filter_all.
    + destruct (db w) as [[uc us ur] tt]. reflexivity.
    + intros r Hr. rewrite (value_eqb_false _ _ (Hno r Hr)). reflexivity.
  - intros e. unfold Delete, db_ExecContext, bind.
    destruct (run_cases (DELETE "users" ("id", VInt id)) w)
      as [[e' H]|[d [rs [_ [_ H]]]]]; rewrite H; simpl.
    + intros _. reflexivity.
    + discriminate.
Qed.

(** Deleting an id that no row has: no error, nothing changed. *)
Lemma C3_Delete_witness :
  fst (Delete 7 (world_at "token" T0 T0)) = None /\
  db (snd (Delete 7 (world_at "token" T0 T0))) = db (world_at "token" T0 T0) /\
  rows (users (db (snd (Delete 1 (world_at "token" T0 T0))))) = [].
Proof.
  pose proof (proj1 (C3_Delete_reports_only_a_failed_statement
                       7 (world_at "token" T0 T0)) eq_refl eq_refl)
    as [Hnone [_ [_ Hsame]]].
  pose proof (proj1 (C3_Delete_reports_only_a_failed_statement
                       1 (world_at "token" T0 T0)) eq_refl eq_refl)
    as [_ [Hrows _]].
  split; [exact Hnone|]. split; [|exact Hrows].
  apply Hsame. intros r [<-|[]]. discriminate.
Defined.

(** C3, as the design states it, fails: no user has id 7, and [Delete 7]
    reports no error. *)
Lemma C3_counterexample_missing_id :
  (forall r, In r (rows (users (db (world_at "token" T0 T0)))) ->
             get "id" r <> VInt 7) /\
  fst (Delete 7 (world_at "token" T0 T0)) = None /\
  trace (snd (Delete 7 (world_at "token" T0 T0)))
  = [Statement (DELETE "users" ("id", VInt 7)) None].
Proof.
  split; [|split; reflexivity].
  intros r [<-|[]]. discriminate.
Qed.

(** ** Token Store: [DeleteToken] and [InsertToken] *)

(** In the tables of the design the DELETE of [DeleteToken] is refused: it
    names the column [plainText], and the token text is in [token]. *)
Lemma exec_delete_token_design : forall p d,
  columns (tokens d) = tokens_columns ->
  exec (delete_token p) d = Err (undefined_column "plainText").
Proof.
  intros p d Hc. simpl. unfold has_column. rewrite Hc. reflexivity.
Qed.

Lemma DeleteToken_design : forall p w,
  columns (tokens (db w)) = tokens_columns ->
  exists e,
    DeleteToken p w
    = (Some e, logged ("failed to delete token: " ++ Error e)
                      (sent (delete_token p) (Some e) (db w) w)).
Proof.
  intros p w Hc. unfold DeleteToken, db_ExecContext, bind.
  fold (delete_token p).
  destruct (run_cases (delete_token p) w) as [[e H]|[d [rs [_ [Hx _]]]]].
  - rewrite H. exists e. reflexivity.
  - rewrite (exec_delete_token_design p (db w) Hc) in Hx. discriminate Hx.
Qed.

(** C7.  The design has [DeleteToken] remove the matching row and succeed
    again when it is called a second time.  In the tables of the design
    the code does neither: its DELETE names a column the table does not
    have, so every call reports an error and removes nothing. *)
Theorem C7_DeleteToken_is_refused : forall (p : string) (w : World),
  schema_of_design w ->
  exists e e',
    fst (DeleteToken p w) = Some e /\
    db (snd (DeleteToken p w)) = db w /\
    fst (DeleteToken p (snd (DeleteToken p w))) = Some e' /\
    db (snd (DeleteToken p (snd (DeleteToken p w)))) = db w.
Proof.
  intros p w [_ Hc].
  destruct (DeleteToken_design p w Hc) as [e H].
  assert (Hc' : columns (tokens (db (snd (DeleteToken p w)))) = tokens_columns)
    by (rewrite H; exact Hc).
  destruct (DeleteToken_design p _ Hc') as [e' H'].
  exists e, e'. rewrite H'. rewrite H. simpl. auto.
Qed.

(** Alice's session is stored; deleting its token fails, and the row is
    still there. *)
Lemma C7_DeleteToken_witness :
  (exists e e',
     fst (DeleteToken the_token (world_at "token" T0 T0)) = Some e /\
     db (snd (DeleteToken the_token (world_at "token" T0 T0)))
     = db (world_at "token" T0 T0) /\
     fst (DeleteToken the_token (snd (DeleteToken the_token (world_at "token" T0 T0))))
     = Some e' /\
     db (snd (DeleteToken the_token
                (snd (DeleteToken the_token (world_at "token" T0 T0)))))
     = db (world_at "token" T0 T0)) /\
  fst (DeleteToken the_token (world_at "token" T0 T0))
  = Some (driver_error "pq: column plaintext does not exist") /\
  rows (tokens (db (snd (DeleteToken the_token (world_at "token" T0 T0)))))
  = [session_row "token" T0].
Proof.
  split.
  - exact (C7_DeleteToken_is_refused the_token (world_at "token" T0 T0)
             (conj eq_refl eq_refl)).
  - split; reflexivity.
Defined.

Lemma exec_delete_token_Ok : forall p d d' rs,
  exec (delete_token p) d = Ok (d', rs) ->
  users d' = users d /\
  columns (tokens d') = columns (tokens d) /\
  serial (tokens d') = serial (tokens d) /\
  rows (tokens d')
  = filter (fun r => negb (value_eqb (get "plaintext" r) (VText p))) (rows (tokens d)).
Proof.
  intros p d d' rs H. simpl in H.
  destruct (has_column (tokens d) "plainText"); [|discriminate].
  inversion H; subst. simpl. auto.
Qed.

Lemma exec_insert_token : forall t c u d,
  exec (insert_token t c u) d
  = match missing_column (tokens d)
                         ["user_id"; "email"; "token"; "token_hash";
                          "created_at"; "updated_at"; "expiry"] with
    | Some col => Err (undefined_column col)
    | None =>
        Ok ({| users := users d;
               tokens := {| columns := columns (tokens d);
                            serial := serial (tokens d) + 1;
                            rows := rows (tokens d)
                                    ++ [inserted_row t (serial (tokens d)) c u] |} |},
            [])
    end.
Proof. reflexivity. Qed.

Lemma exec_insert_token_Ok : forall t c u d d' rs,
  exec (insert_token t c u) d = Ok (d', rs) ->
  users d' = users d /\
  rows (tokens d') = rows (tokens d) ++ [inserted_row t (serial (tokens d)) c u].
Proof.
  intros t c u d d' rs H. rewrite exec_insert_token in H.
  destruct (missing_column (tokens d) _); [discriminate|].
  inversion H; subst. simpl. auto.
Qed.

Lemma GetByToken_design : forall p w,
  columns (tokens (db w)) = tokens_columns ->
  is_Err (fst (GetByToken p w)) = true.
Proof.
  intros p w Hc. unfold GetByToken, db_QueryRowContext, bind.
  destruct (run_cases (lookup_token p) w) as [[e H]|[d [rs [_ [Hx _]]]]].
  - unfold lookup_token in H. rewrite H. simpl.
    destruct (errors_Is e sql_ErrNoRows); reflexivity.
  - exfalso. simpl in Hx. unfold has_column in Hx. rewrite Hc in Hx.
    simpl in Hx. discriminate Hx.
Qed.

Lemma InsertToken_design : forall t w,
  columns (tokens (db w)) = tokens_columns ->
  exists e, fst (InsertToken t w) = Some e /\ db (snd (InsertToken t w)) = db w.
Proof.
  intros t w Hc. unfold InsertToken, bind.
  destruct (DeleteToken_design (Token_Token t) w Hc) as [e H]. rewrite H.
  exists e. split; reflexivity.
Qed.

(** [InsertToken] reports an error, or both of its statements ran. *)
Lemma InsertToken_cases : forall t w,
  (exists e w', InsertToken t w = (Some e, w')) \/
  (exists d rs d2 rs2,
     exec (delete_token (Token_Token t)) (db w) = Ok (d, rs) /\
     exec (insert_token t (now w) (now w)) d = Ok (d2, rs2) /\
     InsertToken t w
     = (None, sent (insert_token t (now w) (now w)) None d2
                   (sent (delete_token (Token_Token t)) None d w))).
Proof.
  intros t w. unfold InsertToken, DeleteToken, db_ExecContext, bind.
  fold (delete_token (Token_Token t)).
  destruct (run_cases (delete_token (Token_Token t)) w)
    as [[e H]|[d [rs [_ [Hx H]]]]]; rewrite H; simpl.
  { left. eexists _, _. reflexivity. }
  unfold time_Now. simpl. fold (insert_token t (now w) (now w)).
  destruct (run_cases (insert_token t (now w) (now w))
                      (sent (delete_token (Token_Token t)) None d w))
    as [[e H2]|[d2 [rs2 [_ [Hx2 H2]]]]]; rewrite H2; simpl.
  { left. eexists _, _. reflexivity. }
  right. exists d, rs, d2, rs2. simpl in Hx2. auto.
Qed.

(** After an [InsertToken] that reported no error, no row holds the token
    text in the column that [GetByToken] searches: the rows that did were
    deleted, and the new row has the text in [token]. *)
Lemma InsertToken_Ok_rows : forall t w,
  fst (InsertToken t w) = None ->
  forall r, In r (rows (tokens (db (snd (InsertToken t w))))) ->
            get "plaintext" r <> VText (Token_Token t).
Proof.
  intros t w.
  destruct (InsertToken_cases t w)
    as [[e [w' H]]|[d [rs [d2 [rs2 [Hx [Hx2 H]]]]]]]; rewrite H; simpl;
    [discriminate|].
  intros _ r Hin.
  apply exec_delete_token_Ok in Hx. destruct Hx as [_ [_ [_ Hrows]]].
  apply exec_insert_token_Ok in Hx2. destruct Hx2 as [_ Hrows2].
  rewrite Hrows2, Hrows in Hin. apply in_app_or in Hin. destruct Hin as [Hin|Hin].
  - apply filter_In in Hin. destruct Hin as [_ Hm]. intros Heq.
    rewrite Heq in Hm. unfold value_eqb in Hm.
    destruct (value_eq_dec (VText (Token_Token t)) (VText (Token_Token t)));
      [discriminate Hm|contradiction].
  - destruct Hin as [<-|[]]. simpl. discriminate.
Qed.

(** C5.  The design has [GetByToken] return, after [InsertToken], a record
    with the user id and the expiry that were inserted.  The code does
    not.  In the tables of the design [InsertToken] reports an error and
    stores nothing, because the DELETE it starts with is refused, and
    [GetByToken] of the token then fails; and whatever columns the table
    has, an [InsertToken] that did report no error is followed by a
    [GetByToken] of the same token that returns no record: the INSERT
    writes the text to the column [token], the SELECT searches the column
    [plainText]. *)
Theorem C5_InsertToken_then_GetByToken_fails : forall (t : Token) (w : World),
  (schema_of_design w ->
     exists e, fst (InsertToken t w) = Some e /\
               db (snd (InsertToken t w)) = db w /\
               is_Err (fst (GetByToken (Token_Token t) (snd (InsertToken t w)))) = true) /\
  (fst (InsertToken t w) = None ->
     is_Err (fst (GetByToken (Token_Token t) (snd (InsertToken t w)))) = true).
Proof.
  intros t w. split.
  - intros [_ Hc]. destruct (InsertToken_design t w Hc) as [e [He Hd]].
    exists e. split; [exact He|]. split; [exact Hd|].
    apply GetByToken_design. rewrite Hd. exact Hc.
  - intros Hok. pose proof (InsertToken_Ok_rows t w Hok) as Hrows.
    destruct (GetByToken_cases (Token_Token t) (snd (InsertToken t w)))
      as [res [o [msgs [Hg Hres]]]].
    rewrite Hg. destruct res as [tm|e]; [|reflexivity].
    exfalso. destruct (proj2 (Hres tm eq_refl)) as [r [Hin Hget]].
    exact (Hrows r Hin Hget).
Qed.

(** In the tables of the design the insert fails; in a table with both
    columns it succeeds and the record cannot be read back. *)
Lemma C5_round_trip_witness :
  fst (InsertToken alice_session world0)
  = Some (driver_error "pq: column plaintext does not exist") /\
  rows (tokens (db (snd (InsertToken alice_session world0)))) = [] /\
  is_Err (fst (GetByToken the_token (snd (InsertToken alice_session world0)))) = true /\
  fst (InsertToken alice_session two_columns) = None /\
  rows (tokens (db (snd (InsertToken alice_session two_columns))))
  = [inserted_row alice_session 1 T0 T0] /\
  is_Err (fst (GetByToken the_token (snd (InsertToken alice_session two_columns)))) = true.
Proof.
  destruct (proj1 (C5_InsertToken_then_GetByToken_fails alice_session world0)
                  (conj eq_refl eq_refl)) as [e [_ [_ Hget]]].
  pose proof (proj2 (C5_InsertToken_then_GetByToken_fails alice_session two_columns)
                    eq_refl) as Hget2.
  split; [reflexivity|]. split; [reflexivity|]. split; [exact Hget|].
  split; [reflexivity|]. split; [reflexivity|exact Hget2].
Defined.

(** ** Token Issuer: [GenerateToken] *)

Lemma Z_of_byte_range : forall b, 0 <= Z_of_byte b < 256.
Proof.
  intros b. unfold Z_of_byte. pose proof (Byte.to_N_bounded b) as H.
  lia.
Qed.

Lemma land31_range : forall x, 0 <= Z.land x 31 < 32.
Proof.
  intros x. change 31 with (Z.ones 5). rewrite Z.land_ones by lia.
  apply Z.mod_pos_bound. reflexivity.
Qed.

Lemma lor_range : forall a b, 0 <= a < 32 -> 0 <= b < 32 -> 0 <= Z.lor a b < 32.
Proof.
  intros a b Ha Hb.
  assert (Ea : a = Z.land a 31).
  { change 31 with (Z.ones 5). rewrite Z.land_ones by lia.
    symmetry. apply Z.mod_small. exact Ha. }
  assert (Eb : b = Z.land b 31).
  { change 31 with (Z.ones 5). rewrite Z.land_ones by lia.
    symmetry. apply Z.mod_small. exact Hb. }
  rewrite Ea, Eb, <- Z.land_lor_distr_l. apply land31_range.
Qed.

Lemma shiftr_range : forall s n, 0 <= s < 256 -> 3 <= n -> 0 <= Z.shiftr s n < 32.
Proof.
  intros s n Hs Hn. rewrite Z.shiftr_div_pow2 by lia.
  assert (H8 : 2 ^ 3 <= 2 ^ n) by (apply Z.pow_le_mono_r; lia).
  assert (Hp : 0 < 2 ^ n) by lia.
  split; [apply Z.div_pos; lia|].
  apply Z.div_lt_upper_bound; [exact Hp|]. change (2 ^ 3) with 8 in H8. nia.
Qed.

Ltac block_range :=
  unfold block_ok;
  first [ apply land31_range
        | apply shiftr_range; [assumption|lia]
        | apply lor_range; block_range
        | lia ].

Lemma quantum_range : forall s0 s1 s2 s3 s4,
  0 <= s0 < 256 -> 0 <= s3 < 256 -> 0 <= s4 < 256 ->
  Forall block_ok (Base32.quantum s0 s1 s2 s3 s4).
Proof.
  intros s0 s1 s2 s3 s4 H0 H3 H4. unfold Base32.quantum.
  repeat (apply Forall_cons; [block_range|]). apply Forall_nil.
Qed.

Lemma zero_is_a_byte : 0 <= 0 < 256.
Proof. lia. Qed.

Lemma blocks_range : forall n src,
  (List.length src <= n)%nat ->
  Forall (fun b => 0 <= b < 256) src ->
  Forall block_ok (Base32.blocks src).
Proof.
  induction n as [|n IH]; intros src Hlen Hsrc.
  - destruct src; [constructor|simpl in Hlen; lia].
  - destruct src as [|a [|b [|c [|d [|e rest]]]]]; simpl.
    + constructor.
    + inversion Hsrc; subst.
      pose proof zero_is_a_byte as Hz.
      repeat (apply Forall_cons; [block_range|]). apply Forall_nil.
    + inversion Hsrc; subst.
      pose proof zero_is_a_byte as Hz.
      repeat (apply Forall_cons; [block_range|]). apply Forall_nil.
    + inversion Hsrc; subst.
      pose proof zero_is_a_byte as Hz.
      repeat (apply Forall_cons; [block_range|]). apply Forall_nil.
    + inversion Hsrc as [|? ? Ha H1]; subst. inversion H1 as [|? ? Hb H2]; subst.
      inversion H2 as [|? ? Hc H3]; subst. inversion H3 as [|? ? Hd H4]; subst.
      pose proof zero_is_a_byte as Hz.
      repeat (apply Forall_cons; [block_range|]). apply Forall_nil.
    + inversion Hsrc as [|? ? Ha H1]; subst. inversion H1 as [|? ? Hb H2]; subst.
      inversion H2 as [|? ? Hc H3]; subst. inversion H3 as [|? ? Hd H4]; subst.
      inversion H4 as [|? ? He H5]; subst.
      repeat (apply Forall_cons; [block_range|]).
      apply IH; [simpl in Hlen; lia|exact H5].
Qed.

Lemma encode_char_in_alphabet : forall i,
  block_ok i -> Base32.in_alphabet (Base32.encode_char i) = true.
Proof.
  intros i [Hlo Hhi]. unfold Base32.encode_char.
  assert (Hn : (Z.to_nat i < 32)%nat) by lia.
  destruct (Z.to_nat i) as [|n]; [reflexivity|].
  do 31 (destruct n as [|n]; [reflexivity|]).
  lia.
Qed.

(** Every character of an encoding is a letter of the alphabet. *)
Lemma EncodeToString_alphabet : forall src,
  forallb Base32.in_alphabet (list_ascii_of_string (Base32.EncodeToString src)) = true.
Proof.
  intros src. unfold Base32.EncodeToString.
  rewrite list_ascii_of_string_of_list_ascii. apply forallb_forall.
  intros c Hc. apply in_map_iff in Hc. destruct Hc as [i [<- Hi]].
  apply encode_char_in_alphabet.
  assert (H : Forall block_ok (Base32.blocks (map Z_of_byte src))).
  { apply (blocks_range (List.length (map Z_of_byte src))); [lia|].
    apply Forall_forall. intros z Hz. apply in_map_iff in Hz.
    destruct Hz as [b [<- _]]. apply Z_of_byte_range. }
  rewrite Forall_forall in H. exact (H i Hi).
Qed.

Lemma length_string_of_list_ascii : forall l,
  String.length (string_of_list_ascii l) = List.length l.
Proof. induction l as [|c l IH]; simpl; [reflexivity|rewrite IH; reflexivity]. Qed.

(** Sixteen bytes encode to twenty-six characters. *)
Lemma EncodeToString_16 : forall src,
  List.length src = 16%nat -> String.length (Base32.EncodeToString src) = 26%nat.
Proof.
  intros src H. unfold Base32.EncodeToString.
  rewrite length_string_of_list_ascii, length_map.
  do 16 (destruct src as [|? src]; [discriminate H|]).
  destruct src; [reflexivity|discriminate H].
Qed.

(** A digest is 32 bytes, whatever the message. *)
Lemma Sum256_length : forall data, List.length (Sha256.Sum256 data) = 32%nat.
Proof. intros data. unfold Sha256.Sum256. rewrite length_map. reflexivity. Qed.

(** [GenerateToken] fails only when the random source does. *)
Lemma GenerateToken_succeeds : forall userID ttl w,
  (16 <= List.length (entropy w))%nat ->
  exists tok w', GenerateToken userID ttl w = (Ok tok, w').
Proof.
  intros userID ttl w H. unfold GenerateToken, bind, time_Now, rand_Read.
  destruct (Nat.ltb (List.length (entropy w)) 16) eqn:E.
  - apply Nat.ltb_lt in E. lia.
  - eexists _, _. reflexivity.
Qed.

(** C4.  A token that [GenerateToken] returns has as its text the unpadded
    base32 encoding of the 16 bytes it drew from the random source: 26
    characters, each a letter of the base32 alphabet; its hash is the
    SHA-256 digest of that text, 32 bytes; its expiry is the time of the
    call plus [ttl]; and it belongs to [userID]. *)
Theorem C4_GenerateToken : forall (userID ttl : Z) (w w' : World) (tok : Token),
  GenerateToken userID ttl w = (Ok tok, w') ->
  String.length (Token_Token tok) = 26%nat /\
  forallb Base32.in_alphabet (list_ascii_of_string (Token_Token tok)) = true /\
  List.length (firstn 16 (entropy w)) = 16%nat /\
  Token_Token tok = Base32.EncodeToString (firstn 16 (entropy w)) /\
  entropy w' = skipn 16 (entropy w) /\
  Token_TokenHash tok = Sha256.Sum256 (bytes_of_string (Token_Token tok)) /\
  List.length (Token_TokenHash tok) = 32%nat /\
  Token_Expiry tok = now w + ttl /\
  Token_UserID tok = userID.
Proof.
  intros userID ttl w w' tok. unfold GenerateToken, bind, time_Now, rand_Read.
  destruct (Nat.ltb (List.length (entropy w)) 16) eqn:E; simpl.
  - discriminate.
  - intros H. inversion H; subst; clear H.
    cbn [Token_Token Token_TokenHash Token_Expiry Token_UserID entropy].
    apply Nat.ltb_ge in E.
    assert (Hlen : List.length (firstn 16 (entropy w)) = 16%nat)
      by (rewrite length_firstn; lia).
    split; [apply EncodeToString_16; exact Hlen|].
    split; [apply EncodeToString_alphabet|].
    split; [exact Hlen|]. split; [reflexivity|]. split; [reflexivity|].
    split; [reflexivity|]. split; [apply Sum256_length|]. split; reflexivity.
Qed.

Lemma C4_GenerateToken_witness :
  GenerateToken 1 (86400 * time_Second) world_with_entropy
  = (Ok issued, drawn 16 world_with_entropy) /\
  Token_Token issued = the_token /\
  String.length (Token_Token issued) = 26%nat /\
  forallb Base32.in_alphabet (list_ascii_of_string (Token_Token issued)) = true /\
  Token_TokenHash issued = Sha256.Sum256 (bytes_of_string (Token_Token issued)) /\
  List.length (Token_TokenHash issued) = 32%nat /\
  Token_Expiry issued = now world_with_entropy + 86400 * time_Second.
Proof.
  assert (E : GenerateToken 1 (86400 * time_Second) world_with_entropy
              = (Ok issued, drawn 16 world_with_entropy))
    by (vm_compute; reflexivity).
  destruct (C4_GenerateToken 1 (86400 * time_Second) world_with_entropy
                             (drawn 16 world_with_entropy) issued E)
    as [Hlen [Halpha [_ [_ [_ [Hhash [H32 [Hexp _]]]]]]]].
  split; [exact E|]. split; [reflexivity|]. split; [exact Hlen|].
  split; [exact Halpha|]. split; [exact Hhash|]. split; [exact H32|exact Hexp].
Defined.

(** ** Credential Store: [PasswordMatches] *)

(** C9.  [PasswordMatches] answers [true] without an error when the
    comparison of the candidate with the stored hash reports nothing,
    [false] without an error when it reports the mismatch, and [false]
    with the error itself when it reports anything else, such as a stored
    hash that cannot be read. *)
Theorem C9_PasswordMatches :
  forall (compare : list byte -> list byte -> option error)
         (u : User) (candidate : string),
  (compare (bytes_of_string (User_Password u)) (bytes_of_string candidate) = None ->
     PasswordMatches compare u candidate = (true, None)) /\
  (compare (bytes_of_string (User_Password u)) (bytes_of_string candidate)
   = Some bcrypt_ErrMismatchedHashAndPassword ->
     PasswordMatches compare u candidate = (false, None)) /\
  (forall e,
     compare (bytes_of_string (User_Password u)) (bytes_of_string candidate) = Some e ->
     errors_Is e bcrypt_ErrMismatchedHashAndPassword = false ->
     PasswordMatches compare u candidate = (false, Some e)).
Proof.
  intros compare u candidate. unfold PasswordMatches.
  split; [|split].
  - intros H. rewrite H. reflexivity.
  - intros H. rewrite H. reflexivity.
  - intros e H He. rewrite H, He. reflexivity.
Qed.

Lemma C9_PasswordMatches_witness :
  PasswordMatches stand_in_compare (bob (stand_in_digest "secret")) "secret"
  = (true, None) /\
  PasswordMatches stand_in_compare (bob (stand_in_digest "secret")) "secretx"
  = (false, None) /\
  PasswordMatches stand_in_compare (bob "corrupted") "secret"
  = (false, Some (bcrypt_error
                    "crypto/bcrypt: hashedSecret too short to be a bcrypted password")).
Proof.
  split; [|split].
  - apply (proj1 (C9_PasswordMatches stand_in_compare
                    (bob (stand_in_digest "secret")) "secret")).
    vm_compute. reflexivity.
  - apply (proj1 (proj2 (C9_PasswordMatches stand_in_compare
                           (bob (stand_in_digest "secret")) "secretx"))).
    vm_compute. reflexivity.
  - apply (proj2 (proj2 (C9_PasswordMatches stand_in_compare
                           (bob "corrupted") "secret"))).
    + vm_compute. reflexivity.
    + reflexivity.
Defined.

(** ** Retries *)

(** *** What an operation sends, and when it stops *)

Lemma since_app : forall w w' l, trace w' = trace w ++ l -> since w w' = l.
Proof.
  intros w w' l H. unfold since. rewrite H. clear H.
  induction (trace w) as [|e t IH]; simpl; [reflexivity|exact IH].
Qed.

Lemma forallb_is_Log_map : forall msgs, forallb is_Log (map Log msgs) = true.
Proof. induction msgs; simpl; auto. Qed.

Lemma failed_logs : forall msgs, failed (map Log msgs) = false.
Proof. induction msgs; simpl; auto. Qed.

Lemma no_retry_logs : forall msgs, no_retry (map Log msgs) = true.
Proof. induction msgs; simpl; auto. Qed.

Lemma failed_app : forall l1 l2, failed (l1 ++ l2) = failed l1 || failed l2.
Proof. intros. unfold failed. apply existsb_app. Qed.

Lemma no_retry_app_logs : forall l msgs,
  no_retry l = true -> no_retry (l ++ map Log msgs) = true.
Proof.
  induction l as [|e l IH]; intros msgs H; simpl in *.
  - apply no_retry_logs.
  - destruct e as [q [err|]| |]; try discriminate; try (apply IH; exact H).
    rewrite forallb_app, H, forallb_is_Log_map. reflexivity.
Qed.

Lemma no_retry_app : forall l1 l2,
  failed l1 = false -> no_retry l1 = true -> no_retry l2 = true ->
  no_retry (l1 ++ l2) = true.
Proof.
  induction l1 as [|e l1 IH]; intros l2 Hf H1 H2; simpl in *; [exact H2|].
  destruct e as [q [err|]| |]; simpl in Hf; try discriminate;
    apply IH; assumption.
Qed.

Lemma only_logs_surfaces : forall A (is_error : A -> bool) (m : St A),
  only_logs m -> surfaces is_error m.
Proof.
  intros A is_error m H w. destruct (H w) as [msgs Ht].
  exists (map Log msgs). split; [exact Ht|]. split; [apply no_retry_logs|].
  rewrite failed_logs. discriminate.
Qed.

Lemma only_logs_ret : forall A (a : A), only_logs (ret a).
Proof. intros A a w. exists []. simpl. rewrite app_nil_r. reflexivity. Qed.

Lemma only_logs_log : forall A msg (a : A), only_logs (log_Printf msg ;;; ret a).
Proof. intros A msg a w. exists [msg]. reflexivity. Qed.

Lemma only_logs_time_Now : only_logs time_Now.
Proof. intros w. exists []. simpl. rewrite app_nil_r. reflexivity. Qed.

Lemma only_logs_rand_Read : forall n, only_logs (rand_Read n).
Proof.
  intros n w. exists []. unfold rand_Read.
  destruct (Nat.ltb _ _); simpl; rewrite app_nil_r; reflexivity.
Qed.

(** Sequencing: when a failure of [m] makes [k] only log and fail, and [k]
    itself surfaces after a success of [m], the whole does. *)
Lemma surfaces_bind : forall A B (errA : A -> bool) (errB : B -> bool)
                             (m : St A) (k : A -> St B),
  surfaces errA m ->
  (forall a, errA a = true ->
     only_logs (k a) /\ forall w, errB (fst (k a w)) = true) ->
  (forall a, errA a = false -> surfaces errB (k a)) ->
  surfaces errB (bind m k).
Proof.
  intros A B errA errB m k Hm Herr Hok w. unfold bind.
  destruct (Hm w) as [l1 [Ht1 [Hn1 Hf1]]].
  destruct (m w) as [a w1] eqn:E. simpl in *.
  destruct (errA a) eqn:Ea.
  - destruct (Herr a Ea) as [Hlogs Hres]. destruct (Hlogs w1) as [msgs Ht2].
    exists (l1 ++ map Log msgs). rewrite Ht2, Ht1, app_assoc.
    split; [reflexivity|]. split; [apply no_retry_app_logs; exact Hn1|].
    intros _. apply Hres.
  - destruct (Hok a Ea w1) as [l2 [Ht2 [Hn2 Hf2]]].
    assert (Hnf : failed l1 = false).
    { destruct (failed l1); [|reflexivity]. specialize (Hf1 eq_refl). congruence. }
    exists (l1 ++ l2). rewrite Ht2, Ht1, app_assoc.
    split; [reflexivity|]. split; [apply no_retry_app; assumption|].
    rewrite failed_app, Hnf. simpl. exact Hf2.
Qed.

(** One statement: sent once; when it failed, so did the call. *)
Lemma surfaces_run : forall q, surfaces is_Err (run q).
Proof.
  intros q w. destruct (run_cases q w) as [[e H]|[d [rs [_ [_ H]]]]]; rewrite H.
  - exists [Statement q (Some e)]. simpl. auto.
  - exists [Statement q None]. simpl. split; [reflexivity|]. split; [reflexivity|].
    discriminate.
Qed.

Lemma surfaces_ExecContext : forall q, surfaces is_Some (db_ExecContext q).
Proof.
  intros q. unfold db_ExecContext.
  apply (surfaces_bind _ _ is_Err is_Some); [apply surfaces_run| |].
  - intros [rs|e] H; [discriminate|]. split; [apply only_logs_ret|reflexivity].
  - intros a _. apply only_logs_surfaces. apply only_logs_ret.
Qed.

Lemma surfaces_QueryRowContext : forall q, surfaces is_Err (db_QueryRowContext q).
Proof.
  intros q. unfold db_QueryRowContext.
  apply (surfaces_bind _ _ is_Err is_Err); [apply surfaces_run| |].
  - intros [rs|e] H; [discriminate|]. split; [apply only_logs_ret|reflexivity].
  - intros a _. apply only_logs_surfaces. apply only_logs_ret.
Qed.

(** *** The loop of [Insert] *)

Lemma exec_insert_user : forall user h d,
  exec (insert_user user h) d
  = match missing_column (users d)
                         ["email"; "first_name"; "last_name"; "password";
                          "created_at"; "updated_at"; "id"] with
    | Some col => Err (undefined_column col)
    | None => Ok (inserted user h d, [[VInt (serial (users d))]])
    end.
Proof. reflexivity. Qed.

(** One turn of the loop: the statement failed, or it ran and returned
    the generated id. *)
Lemma attempt_cases : forall user h w,
  (exists e, db_QueryRowContext (insert_user user h) w
             = (Err e, sent (insert_user user h) (Some e) (db w) w)) \/
  db_QueryRowContext (insert_user user h) w
  = (Ok [VInt (serial (users (db w)))],
     sent (insert_user user h) None (inserted user h (db w)) w).
Proof.
  intros user h w. unfold db_QueryRowContext, bind.
  destruct (run_cases (insert_user user h) w) as [[e H]|[d [rs [_ [Hx H]]]]];
    rewrite H.
  - left. exists e. reflexivity.
  - right. rewrite exec_insert_user in Hx.
    destruct (missing_column (users (db w)) _); [discriminate|].
    inversion Hx; subst. reflexivity.
Qed.

(** The call of a turn: late, it is refused and the world is as it was;
    in time, its statement hangs until the deadline, or it is the call
    itself. *)
Lemma call_refused : forall ctx q w,
  ctx <= now w -> db_QueryRowContext_ctx ctx q w = (Err context_DeadlineExceeded, w).
Proof.
  intros ctx q w H. unfold db_QueryRowContext_ctx.
  rewrite (proj2 (Z.leb_le _ _) H). reflexivity.
Qed.

Lemma call_hangs : forall ctx q w,
  now w < ctx -> hd None (faults w) = Some Hangs ->
  db_QueryRowContext_ctx ctx q w = (Err context_DeadlineExceeded, hung ctx q w).
Proof.
  intros ctx q w H Hf. unfold db_QueryRowContext_ctx, hung.
  rewrite (proj2 (Z.leb_gt _ _) H).
  destruct (faults w) as [|[[e| |after e]|] fs]; try discriminate Hf. reflexivity.
Qed.

Lemma call_in_time : forall ctx q w,
  now w < ctx -> hd None (faults w) <> Some Hangs ->
  db_QueryRowContext_ctx ctx q w = db_QueryRowContext q w.
Proof.
  intros ctx q w H Hf. unfold db_QueryRowContext_ctx.
  rewrite (proj2 (Z.leb_gt _ _) H).
  destruct (faults w) as [|[[e| |after e]|] fs]; try reflexivity.
  exfalso. apply Hf. reflexivity.
Qed.

(** A call in time, for the INSERT of a user: it hangs, it fails at once,
    or it runs and returns the generated id. *)
Lemma call_cases : forall user h ctx w,
  now w < ctx ->
  db_QueryRowContext_ctx ctx (insert_user user h) w
  = (Err context_DeadlineExceeded, hung ctx (insert_user user h) w) \/
  (exists e, db_QueryRowContext_ctx ctx (insert_user user h) w
             = (Err e, sent (insert_user user h) (Some e) (db w) w)) \/
  db_QueryRowContext_ctx ctx (insert_user user h) w
  = (Ok [VInt (serial (users (db w)))],
     sent (insert_user user h) None (inserted user h (db w)) w).
Proof.
  intros user h ctx w H.
  destruct (hd None (faults w)) as [[e| |after e]|] eqn:Hf;
    try (left; apply call_hangs; assumption);
    (right; rewrite call_in_time by (assumption || (rewrite Hf; discriminate));
     destruct (attempt_cases user h w) as [[e' Ha]|Ha];
     [left; exists e'; exact Ha|right; exact Ha]).
Qed.

(** The three turns, written out. *)
Lemma Insert_loop_turns : forall ctx q e0,
  Insert_loop 3 0 3 ctx q e0
  = (r <- db_QueryRowContext_ctx ctx q ;;
     match and_then r scan_newID with
     | Ok _ => ret (0, None)
     | Err e1 =>
         log_Printf ("failed to insert user, attempt 1: " ++ Error e1) ;;;
         time_Sleep (time_Second * 2) ;;;
         r <- db_QueryRowContext_ctx ctx q ;;
         match and_then r scan_newID with
         | Ok _ => ret (0, None)
         | Err e2 =>
             log_Printf ("failed to insert user, attempt 2: " ++ Error e2) ;;;
             time_Sleep (time_Second * 2) ;;;
             r <- db_QueryRowContext_ctx ctx q ;;
             match and_then r scan_newID with
             | Ok _ => ret (0, None)
             | Err e3 =>
                 log_Printf ("failed to insert user, attempt 3: " ++ Error e3) ;;;
                 ret tt ;;;
                 ret (0, Some (fmt_Errorf_w "failed to insert user after 3 attempts: "
                                            e3))
             end
         end
     end).
Proof. reflexivity. Qed.

Lemma log_then_sleep : forall A msg d (k : St A) w,
  (log_Printf msg ;;; time_Sleep d ;;; k) w = k (slept d (logged msg w)).
Proof. reflexivity. Qed.

(** The loop under the context that [Insert] has made when it starts. *)
Lemma Insert_loop_outcome : forall user h e0 w,
  exists err w' l elapsed,
    Insert_loop 3 0 3 (now w + dbTimeout) (insert_user user h) e0 w = ((0, err), w') /\
    trace w' = trace w ++ l /\
    now w' = now w + elapsed /\
    Insert_run (insert_user user h) (timeline l) err elapsed /\
    entropy w' = entropy w /\
    db w' = match err with
            | None => inserted user h (db w)
            | Some _ => db w
            end.
Proof.
  intros user h e0 w.
  assert (Hctx : 0 < dbTimeout /\ two_seconds < dbTimeout <= 2 * two_seconds)
    by (unfold dbTimeout, two_seconds, time_Second; lia).
  rewrite Insert_loop_turns. unfold bind at 1.
  destruct (call_cases user h (now w + dbTimeout) w) as [H1|[[e1 H1]|H1]];
    [lia| | |]; rewrite H1; clear H1; cbv beta iota delta [and_then].
  - (* the first call hangs: the second and the third are late *)
    rewrite log_then_sleep. unfold bind at 1.
    rewrite call_refused
      by (cbn [now slept logged hung]; fold two_seconds; lia).
    cbv beta iota delta [and_then]. rewrite log_then_sleep. unfold bind at 1.
    rewrite call_refused
      by (cbn [now slept logged hung]; fold two_seconds; lia).
    eexists _, _, _, (dbTimeout + 2 * two_seconds). split; [reflexivity|].
    split; [simpl; rewrite <- !app_assoc; simpl; reflexivity|].
    split; [cbn [now slept logged hung]; fold two_seconds; lia|].
    split; [apply first_hung|]. split; reflexivity.
  - (* the first call fails at once *)
    rewrite log_then_sleep. unfold bind at 1.
    match goal with
    | |- context [db_QueryRowContext_ctx ?c (insert_user user h) ?w1] =>
        destruct (call_cases user h c w1) as [H2|[[e2 H2]|H2]];
          [cbn [now slept logged sent]; fold two_seconds; lia| | |];
          rewrite H2; clear H2; cbv beta iota delta [and_then]
    end.
    + rewrite log_then_sleep. unfold bind at 1.
      rewrite call_refused
        by (cbn [now slept logged hung sent]; fold two_seconds; lia).
      eexists _, _, _, (dbTimeout + two_seconds). split; [reflexivity|].
      split; [simpl; rewrite <- !app_assoc; simpl; reflexivity|].
      split; [cbn [now slept logged hung sent]; fold two_seconds; lia|].
      split; [apply second_hung|]. split; reflexivity.
    + rewrite log_then_sleep. unfold bind at 1.
      rewrite call_refused
        by (cbn [now slept logged hung sent]; fold two_seconds; lia).
      eexists _, _, _, (2 * two_seconds). split; [reflexivity|].
      split; [simpl; rewrite <- !app_assoc; simpl; reflexivity|].
      split; [cbn [now slept logged hung sent]; fold two_seconds; lia|].
      split; [apply gave_up|]. split; reflexivity.
    + eexists _, _, _, two_seconds. split; [reflexivity|].
      split; [simpl; rewrite <- !app_assoc; simpl; reflexivity|].
      split; [cbn [now slept logged hung sent]; fold two_seconds; lia|].
      split; [apply second_try|]. split; reflexivity.
  - eexists _, _, _, 0. split; [reflexivity|].
    split; [simpl; reflexivity|].
    split; [cbn [now sent]; lia|].
    split; [apply first_try|]. split; reflexivity.
Qed.

Lemma Insert_loop_cases : forall user h e0 w0 w,
  now w = now w0 ->
  exists l elapsed,
    trace (snd (Insert_loop 3 0 3 (now w0 + dbTimeout) (insert_user user h) e0 w))
    = trace w ++ l /\
    now (snd (Insert_loop 3 0 3 (now w0 + dbTimeout) (insert_user user h) e0 w))
    = now w + elapsed /\
    Insert_run (insert_user user h) (timeline l)
               (snd (fst (Insert_loop 3 0 3 (now w0 + dbTimeout) (insert_user user h)
                                      e0 w)))
               elapsed /\
    fst (fst (Insert_loop 3 0 3 (now w0 + dbTimeout) (insert_user user h) e0 w)) = 0 /\
    entropy (snd (Insert_loop 3 0 3 (now w0 + dbTimeout) (insert_user user h) e0 w))
    = entropy w /\
    db (snd (Insert_loop 3 0 3 (now w0 + dbTimeout) (insert_user user h) e0 w))
    = match snd (fst (Insert_loop 3 0 3 (now w0 + dbTimeout) (insert_user user h)
                                  e0 w)) with
      | None => inserted user h (db w)
      | Some _ => db w
      end.
Proof.
  intros user h e0 w0 w Hw. rewrite <- Hw.
  destruct (Insert_loop_outcome user h e0 w)
    as [err [w' [l [elapsed [H [Ht [Hn [Hrun [He Hdb]]]]]]]]].
  rewrite H. exists l, elapsed. cbn [fst snd]. auto 10.
Qed.

(** *** The other operations *)

(** [db.QueryContext]: one statement, as [run], when the rows do not
    break; when they do, the rows delivered before the break. *)
Lemma QueryContext_unbroken : forall q w,
  (forall after e, hd None (faults w) <> Some (Breaks after e)) ->
  db_QueryContext q w
  = (r <- run q ;;
     ret (match r with
          | Err e => Err e
          | Ok rs => Ok {| Rows_delivered := rs; Rows_Err := None |}
          end)) w.
Proof.
  intros q w H. unfold db_QueryContext.
  destruct (faults w) as [|[[e| |after e]|] fs]; try reflexivity.
  exfalso. apply (H after e). reflexivity.
Qed.

Lemma QueryContext_broken : forall q w after e,
  hd None (faults w) = Some (Breaks after e) ->
  db_QueryContext q w
  = match exec q (db w) with
    | Err e' => (Err e', sent q (Some e') (db w) w)
    | Ok (d, rs) =>
        (Ok {| Rows_delivered := firstn after rs; Rows_Err := Some e |},
         sent q (Some e) d w)
    end.
Proof.
  intros q w after e H. unfold db_QueryContext, sent.
  destruct (faults w) as [|[[e0| |after0 e0]|] fs]; try discriminate H.
  simpl in H. inversion H; subst. reflexivity.
Qed.

(** [GetAll] sends its statement once; when the rows do not break, a
    failure of the statement is the error it returns. *)
Lemma GetAll_unbroken_runs : forall w,
  (forall after e, hd None (faults w) <> Some (Breaks after e)) ->
  GetAll w
  = (match fst (run select_users w) with
     | Err e => Err e
     | Ok rs => scan_all rs
     end, snd (run select_users w)).
Proof.
  intros w H. unfold GetAll, bind. fold user_fields. fold select_users.
  rewrite (QueryContext_unbroken _ w H). unfold bind.
  destruct (run select_users w) as [[rs|e] w1]; reflexivity.
Qed.

Lemma GetAll_broken_runs : forall w after e,
  hd None (faults w) = Some (Breaks after e) ->
  GetAll w
  = match exec select_users (db w) with
    | Err e' => (Err e', sent select_users (Some e') (db w) w)
    | Ok (d, rs) => (scan_all (firstn after rs), sent select_users (Some e) d w)
    end.
Proof.
  intros w after e H. unfold GetAll, bind. fold user_fields. fold select_users.
  rewrite (QueryContext_broken _ w after e H).
  destruct (exec select_users (db w)) as [[d rs]|e']; reflexivity.
Qed.

Lemma GetAll_unbroken : forall w,
  (forall after e, hd None (faults w) <> Some (Breaks after e)) ->
  exists l,
    trace (snd (GetAll w)) = trace w ++ l /\
    no_retry l = true /\
    (failed l = true -> is_Err (fst (GetAll w)) = true).
Proof.
  intros w H. rewrite (GetAll_unbroken_runs w H).
  destruct (run_cases select_users w) as [[e Hr]|[d [rs [_ [_ Hr]]]]]; rewrite Hr;
    cbv beta iota zeta delta [fst snd].
  - eexists [_]. split; [reflexivity|]. split; [reflexivity|]. intros _. reflexivity.
  - eexists [_]. split; [reflexivity|]. split; [reflexivity|]. discriminate.
Qed.

Lemma GetAll_no_retry : forall w,
  exists l, trace (snd (GetAll w)) = trace w ++ l /\ no_retry l = true.
Proof.
  intros w.
  destruct (hd None (faults w)) as [[e| |after e]|] eqn:Hf.
  - destruct (GetAll_unbroken w) as [l [Ht [Hn _]]].
    + intros after e' H. rewrite Hf in H. discriminate H.
    + exists l. auto.
  - destruct (GetAll_unbroken w) as [l [Ht [Hn _]]].
    + intros after e' H. rewrite Hf in H. discriminate H.
    + exists l. auto.
  - rewrite (GetAll_broken_runs w after e Hf).
    destruct (exec select_users (db w)) as [[d rs]|e'];
      cbv beta iota zeta delta [fst snd].
    + eexists [_]. split; reflexivity.
    + eexists [_]. split; reflexivity.
  - destruct (GetAll_unbroken w) as [l [Ht [Hn _]]].
    + intros after e' H. rewrite Hf in H. discriminate H.
    + exists l. auto.
Qed.

(** When the rows break, the users read before the break are returned
    and the error of the stream is lost. *)
Lemma exec_select_users : forall d,
  columns (users d) = users_columns ->
  exec select_users d = Ok (d, map (project user_fields) (rows (users d))).
Proof.
  intros d Hc. simpl. unfold has_column. rewrite Hc. reflexivity.
Qed.

Lemma scan_all_entries : forall es,
  scan_all (map (project user_fields) (map entry_row es)) = Ok (map entry_user es).
Proof.
  induction es as [|e es IH]; [reflexivity|].
  cbn [map scan_all]. rewrite IH.
  destruct e as [[user h] id]. reflexivity.
Qed.

Lemma GetAll_broken : forall w after e es,
  users_of_design w -> hd None (faults w) = Some (Breaks after e) ->
  rows (users (db w)) = map entry_row es ->
  GetAll w = (Ok (map entry_user (firstn after es)),
              sent select_users (Some e) (db w) w).
Proof.
  intros w after e es Hc Hf Hrows.
  rewrite (GetAll_broken_runs w after e Hf), (exec_select_users (db w) Hc), Hrows.
  rewrite !firstn_map. rewrite scan_all_entries. reflexivity.
Qed.

(** The end of a lookup: a missing row and any other failure are both
    returned as errors, the second after a log line. *)
Ltac lookup_tail :=
  match goal with
  | |- forall a, is_Err a = true -> _ =>
      intros [vs|e] ?; [discriminate|]; simpl;
      destruct (errors_Is e sql_ErrNoRows);
      (split; [first [apply only_logs_ret|apply only_logs_log]|reflexivity])
  | |- forall a, is_Err a = false -> _ =>
      intros a _; apply only_logs_surfaces;
      match goal with
      | |- only_logs (match ?x with _ => _ end) =>
          destruct x as [v|e];
          [apply only_logs_ret
          |destruct (errors_Is e sql_ErrNoRows);
           first [apply only_logs_ret|apply only_logs_log]]
      end
  end.

Lemma GetByEmail_surfaces : forall email, surfaces is_Err (GetByEmail email).
Proof.
  intros email. unfold GetByEmail.
  apply (surfaces_bind _ _ is_Err is_Err);
    [apply surfaces_QueryRowContext|lookup_tail|lookup_tail].
Qed.

Lemma GetByID_surfaces : forall id, surfaces is_Err (GetByID id).
Proof.
  intros id. unfold GetByID.
  apply (surfaces_bind _ _ is_Err is_Err);
    [apply surfaces_QueryRowContext|lookup_tail|lookup_tail].
Qed.

Lemma GetByToken_surfaces : forall p, surfaces is_Err (GetByToken p).
Proof.
  intros p. unfold GetByToken.
  apply (surfaces_bind _ _ is_Err is_Err);
    [apply surfaces_QueryRowContext|lookup_tail|lookup_tail].
Qed.

Lemma GetUserByToken_surfaces : forall t, surfaces is_Err (GetUserByToken t).
Proof.
  intros t. unfold GetUserByToken.
  apply (surfaces_bind _ _ is_Err is_Err);
    [apply surfaces_QueryRowContext|lookup_tail|lookup_tail].
Qed.

(** The end of a statement that returns no rows. *)
Ltac exec_tail :=
  match goal with
  | |- forall a, is_Some a = true -> _ =>
      intros [e|] ?; [|discriminate];
      split; [apply only_logs_log|reflexivity]
  | |- forall a, is_Some a = false -> _ =>
      intros [e|] ?; [discriminate|];
      apply only_logs_surfaces; apply only_logs_ret
  end.

Lemma Update_surfaces : forall user, surfaces is_Some (Update user).
Proof.
  intros user. unfold Update.
  apply (surfaces_bind _ _ is_Some is_Some);
    [apply surfaces_ExecContext|exec_tail|exec_tail].
Qed.

Lemma Delete_surfaces : forall id, surfaces is_Some (Delete id).
Proof.
  intros id. unfold Delete.
  apply (surfaces_bind _ _ is_Some is_Some);
    [apply surfaces_ExecContext|exec_tail|exec_tail].
Qed.

Lemma DeleteToken_surfaces : forall p, surfaces is_Some (DeleteToken p).
Proof.
  intros p. unfold DeleteToken.
  apply (surfaces_bind _ _ is_Some is_Some);
    [apply surfaces_ExecContext|exec_tail|exec_tail].
Qed.

Lemma InsertToken_surfaces : forall t, surfaces is_Some (InsertToken t).
Proof.
  intros t. unfold InsertToken.
  apply (surfaces_bind _ _ is_Some is_Some); [apply DeleteToken_surfaces|exec_tail|].
  intros [e|] H; [discriminate|].
  apply (surfaces_bind _ _ (fun _ => false) is_Some);
    [apply only_logs_surfaces; apply only_logs_time_Now|discriminate|].
  intros created _.
  apply (surfaces_bind _ _ (fun _ => false) is_Some);
    [apply only_logs_surfaces; apply only_logs_time_Now|discriminate|].
  intros updated _.
  apply (surfaces_bind _ _ is_Some is_Some);
    [apply surfaces_ExecContext|exec_tail|exec_tail].
Qed.

Lemma after_lookup_surfaces : forall found,
  is_Err found = false -> surfaces is_Err (after_lookup found).
Proof.
  intros [t|e] H; [|discriminate]. simpl.
  apply (surfaces_bind _ _ (fun _ => false) is_Err);
    [apply only_logs_surfaces; apply only_logs_time_Now|discriminate|].
  intros n _. destruct (Token_Expiry t <? n).
  - apply only_logs_surfaces. apply only_logs_ret.
  - apply (surfaces_bind _ _ is_Err is_Err); [apply GetUserByToken_surfaces| |].
    + intros [u|e] Hu; [discriminate|]. split; [apply only_logs_ret|reflexivity].
    + intros [u|e] Hu; [|discriminate]. apply only_logs_surfaces. apply only_logs_ret.
Qed.

Lemma AuthenticationToken_surfaces : forall r, surfaces is_Err (AuthenticationToken r).
Proof.
  intros r w.
  destruct (AuthenticationToken_cases r w)
    as [[_ H]|[[_ [_ H]]|[[tk [_ [_ H]]]|[tk [_ [_ H]]]]]]; rewrite H;
    try (exists []; simpl; rewrite app_nil_r; repeat split; discriminate).
  revert w H. intros w _.
  apply (surfaces_bind _ _ is_Err is_Err); [apply GetByToken_surfaces| |].
  - intros [t|e] Hf; [discriminate|]. split; [apply only_logs_ret|reflexivity].
  - apply after_lookup_surfaces.
Qed.

Lemma only_logs_GenerateToken : forall userID ttl, only_logs (GenerateToken userID ttl).
Proof.
  intros userID ttl w. unfold GenerateToken, bind, time_Now, rand_Read.
  destruct (Nat.ltb (List.length (entropy w)) 16).
  - exists ["failed to generate random bytes: crypto/rand: random source failed"].
    reflexivity.
  - exists []. simpl. rewrite app_nil_r. reflexivity.
Qed.

(** [ResetPassword]: one statement, never repeated; its failure is logged
    and not returned. *)
Lemma ResetPassword_cases : forall u password w,
  (exists e,
     ResetPassword u password w
     = (None, logged ("failed to update user: " ++ Error e)
                (sent (reset_password (User_ID u) password) (Some e) (db w) w))) \/
  (exists d,
     ResetPassword u password w
     = (None, sent (reset_password (User_ID u) password) None d w)).
Proof.
  intros u password w. unfold ResetPassword, db_ExecContext, bind.
  fold (reset_password (User_ID u) password).
  destruct (run_cases (reset_password (User_ID u) password) w)
    as [[e H]|[d [rs [_ [_ H]]]]]; rewrite H.
  - left. exists e. reflexivity.
  - right. exists d. reflexivity.
Qed.

Lemma ResetPassword_fails : forall u password w e,
  hd None (faults w) = Some (Fails e) ->
  ResetPassword u password w
  = (None, logged ("failed to update user: " ++ Error e)
             (sent (reset_password (User_ID u) password) (Some e) (db w) w)).
Proof.
  intros u password w e Hf. unfold ResetPassword, db_ExecContext, bind, run, sent.
  destruct (faults w) as [|[[e0| |after e0]|] fs]; try discriminate Hf.
  simpl in Hf. inversion Hf; subst. reflexivity.
Qed.

Lemma ResetPassword_no_retry : forall u password w,
  exists l,
    trace (snd (ResetPassword u password w)) = trace w ++ l /\ no_retry l = true.
Proof.
  intros u password w.
  destruct (ResetPassword_cases u password w) as [[e H]|[d H]]; rewrite H.
  - eexists [_; _]. split; [simpl; rewrite <- app_assoc; reflexivity|reflexivity].
  - eexists [_]. split; reflexivity.
Qed.

Lemma surfaces_error_of : forall A (m : St (result A)),
  surfaces is_Err m -> surfaces is_Some (r <- m ;; ret (error_of r)).
Proof.
  intros A m H.
  apply (surfaces_bind _ _ is_Err is_Some); [exact H| |].
  - intros [a|e] He; [discriminate|]. split; [apply only_logs_ret|reflexivity].
  - intros a _. apply only_logs_surfaces. apply only_logs_ret.
Qed.

(** Running an operation for its error leaves the world as the operation
    does. *)
Lemma error_of_run : forall A (m : St (result A)) w,
  (r <- m ;; ret (error_of r)) w = (error_of (fst (m w)), snd (m w)).
Proof. intros A m w. unfold bind, ret. destruct (m w) as [r w1]. reflexivity. Qed.

(** Every operation but the two of [unreported] retries nothing and returns
    an error when a statement of it failed. *)
Lemma perform_surfaces : forall compare op,
  (forall u password, op <> op_ResetPassword u password) -> op <> op_GetAll ->
  surfaces is_Some (perform compare op).
Proof.
  intros compare [] Hr Hg.
  - contradiction.
  - apply surfaces_error_of, GetByEmail_surfaces.
  - apply surfaces_error_of, GetByID_surfaces.
  - apply Update_surfaces.
  - apply Delete_surfaces.
  - exfalso. exact (Hr _ _ eq_refl).
  - apply only_logs_surfaces, only_logs_ret.
  - apply surfaces_error_of, GetByToken_surfaces.
  - apply surfaces_error_of, GetUserByToken_surfaces.
  - apply surfaces_error_of, only_logs_surfaces, only_logs_GenerateToken.
  - apply surfaces_error_of, AuthenticationToken_surfaces.
  - apply InsertToken_surfaces.
  - apply DeleteToken_surfaces.
Qed.

Lemma perform_no_retry : forall compare op w,
  exists l,
    trace (snd (perform compare op w)) = trace w ++ l /\ no_retry l = true.
Proof.
  intros compare op w.
  destruct op as [| | | | |u password| | | | | | |];
    try (match goal with
         | |- context [perform compare ?o] =>
             destruct (perform_surfaces compare o) with (w := w)
               as [l [Ht [Hn _]]]; [discriminate|discriminate|];
             exists l; split; assumption
         end).
  - cbn [perform]. rewrite error_of_run. cbn [snd]. apply GetAll_no_retry.
  - apply ResetPassword_no_retry.
Qed.

Lemma perform_reports : forall compare op w,
  failed (since w (snd (perform compare op w))) = true ->
  fst (perform compare op w) = None ->
  unreported op w.
Proof.
  intros compare op w Hfailed Hnone.
  destruct op as [| | | | |u password| | | | | | |];
    try (exfalso;
         match goal with
         | _ : context [perform compare ?o] |- _ =>
             destruct (perform_surfaces compare o) with (w := w)
               as [l [Ht [_ Hs]]]; [discriminate|discriminate|];
             rewrite (since_app w _ l Ht) in Hfailed;
             specialize (Hs Hfailed); rewrite Hnone in Hs; discriminate Hs
         end).
  - right. split; [reflexivity|].
    destruct (hd None (faults w)) as [[e| |after e]|] eqn:Hf;
      [exfalso|exfalso|exists after, e; reflexivity|exfalso];
      (destruct (GetAll_unbroken w) as [l [Ht [_ Hs]]];
       [intros after' e' H; rewrite Hf in H; discriminate H|]);
      cbn [perform] in Hfailed, Hnone; rewrite error_of_run in Hfailed, Hnone;
      cbn [fst snd] in Hfailed, Hnone;
      rewrite (since_app w _ l Ht) in Hfailed; specialize (Hs Hfailed);
      destruct (fst (GetAll w)); discriminate.
  - left. exists u, password. reflexivity.
Qed.

(** *** [Insert]: the hash first, then the loop *)

Lemma Insert_hashed : forall hash user w hashed,
  (16 <= List.length (entropy w))%nat ->
  hash (bytes_of_string (User_Password user)) 12 (firstn 16 (entropy w)) = Ok hashed ->
  Insert hash user w
  = Insert_loop 3 0 3 (now w + dbTimeout) (insert_user user hashed) (errors_New "")
                (drawn 16 w).
Proof.
  intros hash user w hashed Hlen Hh.
  unfold Insert, context_WithTimeout, bcrypt_GenerateFromPassword, rand_Read, bind, ret.
  destruct (Nat.ltb (List.length (entropy w)) 16) eqn:E.
  - apply Nat.ltb_lt in E. lia.
  - rewrite Hh. reflexivity.
Qed.

(** When the password cannot be hashed nothing is sent to the datastore. *)
Lemma Insert_not_hashed : forall hash user w,
  (List.length (entropy w) < 16)%nat \/
  is_Err (hash (bytes_of_string (User_Password user)) 12 (firstn 16 (entropy w))) = true ->
  exists e msg w0,
    Insert hash user w = ((0, Some e), logged msg w0) /\
    trace w0 = trace w /\ db w0 = db w /\ now w0 = now w.
Proof.
  intros hash user w H.
  unfold Insert, context_WithTimeout, bcrypt_GenerateFromPassword, rand_Read, bind, ret.
  destruct (Nat.ltb (List.length (entropy w)) 16) eqn:E.
  - eexists _, _, w. repeat split.
  - apply Nat.ltb_ge in E. destruct H as [H|H]; [lia|].
    destruct (hash _ _ _) as [h|e]; [discriminate H|].
    eexists _, _, (drawn 16 w). repeat split.
Qed.

(** C2.  The design has [Insert] return the generated id of the new row.
    [Insert] hashes the password at cost 12 with a fresh salt and then
    inserts the row with the hash as its password, and when it reports no
    error exactly that row was added, under the id the sequence of the
    table generated; but the id it returns is 0, whatever id was
    generated. *)
Theorem C2_Insert_returns_zero :
  forall (hash : list byte -> Z -> list byte -> result (list byte))
         (user : User) (w : World),
  fst (fst (Insert hash user w)) = 0 /\
  (snd (fst (Insert hash user w)) = None ->
     exists hashed,
       hash (bytes_of_string (User_Password user)) 12 (firstn 16 (entropy w))
       = Ok hashed /\
       db (snd (Insert hash user w)) = inserted user hashed (db w)).
Proof.
  intros hash user w.
  destruct (Nat.ltb (List.length (entropy w)) 16) eqn:E.
  { apply Nat.ltb_lt in E.
    destruct (Insert_not_hashed hash user w (or_introl E)) as [e [msg [w0 [H _]]]].
    rewrite H. split; [reflexivity|discriminate]. }
  apply Nat.ltb_ge in E.
  destruct (hash (bytes_of_string (User_Password user)) 12 (firstn 16 (entropy w)))
    as [hashed|e] eqn:Hh.
  2: { destruct (Insert_not_hashed hash user w) as [e' [msg [w0 [H _]]]].
       - right. rewrite Hh. reflexivity.
       - rewrite H. split; [reflexivity|discriminate]. }
  rewrite (Insert_hashed hash user w hashed E Hh).
  destruct (Insert_loop_cases user hashed (errors_New "") w (drawn 16 w) eq_refl)
    as [l [elapsed [_ [_ [_ [Hid [_ Hdb]]]]]]].
  split; [exact Hid|].
  intros Hok. exists hashed. split; [reflexivity|].
  rewrite Hdb, Hok. reflexivity.
Qed.

(** The first user of an empty table gets id 1, and [Insert] returns 0. *)
Lemma C2_Insert_witness :
  fst (Insert stand_in_hash (bob "secret") world_with_entropy) = (0, None) /\
  map (get "id") (rows (users (db (snd (Insert stand_in_hash (bob "secret")
                                               world_with_entropy)))))
  = [VInt 1].
Proof.
  destruct (C2_Insert_returns_zero stand_in_hash (bob "secret") world_with_entropy)
    as [Hid Hrow].
  assert (Hok : snd (fst (Insert stand_in_hash (bob "secret") world_with_entropy)) = None)
    by (vm_compute; reflexivity).
  destruct (Hrow Hok) as [hashed [_ Hdb]].
  split.
  - destruct (Insert stand_in_hash (bob "secret") world_with_entropy) as [[id err] w'].
    simpl in *. rewrite Hid, Hok. reflexivity.
  - rewrite Hdb. reflexivity.
Defined.

(** A call in time that the datastore refuses at once. *)
Lemma call_fails : forall ctx q w e,
  now w < ctx -> hd None (faults w) = Some (Fails e) ->
  db_QueryRowContext_ctx ctx q w = (Err e, sent q (Some e) (db w) w).
Proof.
  intros ctx q w e H Hf.
  rewrite call_in_time by (assumption || (rewrite Hf; discriminate)).
  unfold db_QueryRowContext, bind, run, sent.
  destruct (faults w) as [|[[e0| |after e0]|] fs]; try discriminate Hf.
  simpl in Hf. inversion Hf; subst. reflexivity.
Qed.

(** After two calls that failed the third is late: nothing is sent, and what
    the datastore would have done to it is still to come. *)
Lemma Insert_two_failures : forall hash user w hashed e1 e2 rest,
  (16 <= List.length (entropy w))%nat ->
  hash (bytes_of_string (User_Password user)) 12 (firstn 16 (entropy w)) = Ok hashed ->
  faults w = Some (Fails e1) :: Some (Fails e2) :: rest ->
  Insert hash user w
  = ((0, Some (fmt_Errorf_w "failed to insert user after 3 attempts: "
                            context_DeadlineExceeded)),
     logged "failed to insert user, attempt 3: context deadline exceeded"
       (slept two_seconds
          (logged ("failed to insert user, attempt 2: " ++ Error e2)
             (sent (insert_user user hashed) (Some e2) (db w)
                (slept two_seconds
                   (logged ("failed to insert user, attempt 1: " ++ Error e1)
                      (sent (insert_user user hashed) (Some e1) (db w)
                            (drawn 16 w)))))))).
Proof.
  intros hash user w hashed e1 e2 rest Hlen Hh Hf.
  assert (Hctx : two_seconds < dbTimeout <= 2 * two_seconds)
    by (unfold dbTimeout, two_seconds, time_Second; lia).
  rewrite (Insert_hashed hash user w hashed Hlen Hh).
  rewrite Insert_loop_turns. unfold bind at 1.
  rewrite (call_fails _ _ (drawn 16 w) e1)
    by (cbn [now faults drawn]; try rewrite Hf; (reflexivity || lia)).
  cbv beta iota delta [and_then]. rewrite log_then_sleep. unfold bind at 1.
  rewrite (call_fails _ _ _ e2)
    by (cbn [now faults drawn slept logged sent]; fold two_seconds;
        try rewrite Hf; (reflexivity || lia)).
  cbv beta iota delta [and_then]. rewrite log_then_sleep. unfold bind at 1.
  rewrite call_refused
    by (cbn [now faults drawn slept logged sent]; fold two_seconds; lia).
  reflexivity.
Qed.

(** C8.  The design has [Insert] make three attempts and every other
    failure reach the caller.  In the code only [Insert] tries a statement
    again, and no other method sleeps or sends anything after a statement
    that failed; but three things differ.  The three turns of [Insert]
    share one context of three seconds and sleep two seconds in between:
    the third call is always late, and so is the second when the first
    hung; a late call is refused before anything is sent.  So the INSERT
    reaches the datastore at most twice, and when [Insert] gives up the
    error it returns names three attempts and ends with the deadline of
    the context, whatever the datastore would have answered.
    [ResetPassword] logs the failure of its statement and returns nil.
    [GetAll] does not read [rows.Err()]: when the rows break it returns
    the users read so far and no error.  These two are the only failures
    that reach no caller.  A password that cannot be hashed is not
    retried, and a failure of the random source makes [GenerateToken] fail
    at once, without a second read. *)
Theorem C8_only_Insert_retries :
  (forall hash user w hashed,
     (16 <= List.length (entropy w))%nat ->
     hash (bytes_of_string (User_Password user)) 12 (firstn 16 (entropy w))
     = Ok hashed ->
     Insert_run (insert_user user hashed)
                (timeline (since w (snd (Insert hash user w))))
                (snd (fst (Insert hash user w)))
                (now (snd (Insert hash user w)) - now w)) /\
  (forall hash user w hashed e1 e2 rest,
     (16 <= List.length (entropy w))%nat ->
     hash (bytes_of_string (User_Password user)) 12 (firstn 16 (entropy w))
     = Ok hashed ->
     faults w = Some (Fails e1) :: Some (Fails e2) :: rest ->
     fst (Insert hash user w) = (0, gives_up) /\
     db (snd (Insert hash user w)) = db w /\
     faults (snd (Insert hash user w)) = rest) /\
  option_map Error gives_up
  = Some "failed to insert user after 3 attempts: context deadline exceeded" /\
  (forall hash user w,
     (List.length (entropy w) < 16)%nat \/
     is_Err (hash (bytes_of_string (User_Password user)) 12
                  (firstn 16 (entropy w))) = true ->
     timeline (since w (snd (Insert hash user w))) = [] /\
     is_Some (snd (fst (Insert hash user w))) = true) /\
  (forall compare op w,
     no_retry (since w (snd (perform compare op w))) = true) /\
  (forall compare op w,
     failed (since w (snd (perform compare op w))) = true ->
     fst (perform compare op w) = None ->
     unreported op w) /\
  (forall u password w e,
     hd None (faults w) = Some (Fails e) ->
     fst (ResetPassword u password w) = None /\
     failed (since w (snd (ResetPassword u password w))) = true /\
     db (snd (ResetPassword u password w)) = db w) /\
  (forall w after e es,
     users_of_design w -> hd None (faults w) = Some (Breaks after e) ->
     rows (users (db w)) = map entry_row es ->
     fst (GetAll w) = Ok (map entry_user (firstn after es)) /\
     failed (since w (snd (GetAll w))) = true) /\
  (forall userID ttl w,
     (List.length (entropy w) < 16)%nat ->
     is_Err (fst (GenerateToken userID ttl w)) = true /\
     entropy (snd (GenerateToken userID ttl w)) = entropy w /\
     timeline (since w (snd (GenerateToken userID ttl w))) = []).
Proof.
  split; [|split; [|split; [|split; [|split; [|split; [|split; [|split]]]]]]].
  - intros hash user w hashed Hlen Hh.
    rewrite (Insert_hashed hash user w hashed Hlen Hh).
    destruct (Insert_loop_cases user hashed (errors_New "") w (drawn 16 w) eq_refl)
      as [l [elapsed [Ht [Hn [Hrun _]]]]].
    rewrite (since_app w _ l Ht), Hn. simpl.
    replace (now w + elapsed - now w) with elapsed by lia. exact Hrun.
  - intros hash user w hashed e1 e2 rest Hlen Hh Hf.
    rewrite (Insert_two_failures hash user w hashed e1 e2 rest Hlen Hh Hf).
    cbn [fst snd db faults logged slept sent drawn]. rewrite Hf.
    split; [reflexivity|]. split; reflexivity.
  - reflexivity.
  - intros hash user w H.
    destruct (Insert_not_hashed hash user w H) as [e [msg [w0 [Hi [Ht _]]]]].
    rewrite Hi. simpl. split; [|reflexivity].
    rewrite (since_app w _ [Log msg]); [reflexivity|].
    simpl. rewrite Ht. reflexivity.
  - intros compare op w.
    destruct (perform_no_retry compare op w) as [l [Ht Hn]].
    rewrite (since_app w _ l Ht). exact Hn.
  - apply perform_reports.
  - intros u password w e Hf. rewrite (ResetPassword_fails u password w e Hf).
    split; [reflexivity|]. split; [|reflexivity].
    erewrite since_app.
    2: { cbn [snd trace logged sent]. rewrite <- app_assoc. reflexivity. }
    reflexivity.
  - intros w after e es Hc Hf Hrows.
    rewrite (GetAll_broken w after e es Hc Hf Hrows).
    split; [reflexivity|].
    erewrite since_app.
    2: { reflexivity. }
    reflexivity.
  - intros userID ttl w Hlen.
    unfold GenerateToken, bind, time_Now, rand_Read.
    apply Nat.ltb_lt in Hlen. rewrite Hlen. simpl.
    split; [reflexivity|]. split; [reflexivity|].
    unfold since. simpl. rewrite skipn_app, skipn_all, Nat.sub_diag. reflexivity.
Qed.

(** The datastore refuses the INSERT twice and would take it after that:
    [Insert] gives up four seconds later with the deadline of its context
    and stores nothing.  The datastore does not answer: [Insert] sends
    the INSERT once and gives up after seven seconds.  The datastore is
    down: [ResetPassword] returns nil.  The rows break after the first:
    [GetAll] returns alice, without bob and without an error. *)
Lemma C8_failures_witness :
  (fst (Insert stand_in_hash (bob "secret") two_failures) = (0, gives_up) /\
   db (snd (Insert stand_in_hash (bob "secret") two_failures)) = empty_db /\
   faults (snd (Insert stand_in_hash (bob "secret") two_failures)) = []) /\
  now (snd (Insert stand_in_hash (bob "secret") two_failures)) = T0 + 4 * time_Second /\
  map is_failed (timeline (since two_failures
                    (snd (Insert stand_in_hash (bob "secret") two_failures))))
  = [true; false; true; false] /\
  (Insert_run (insert_user (bob "secret") bobs_salted_hash)
              (timeline (since no_answer
                               (snd (Insert stand_in_hash (bob "secret") no_answer))))
              (snd (fst (Insert stand_in_hash (bob "secret") no_answer)))
              (now (snd (Insert stand_in_hash (bob "secret") no_answer))
               - now no_answer) /\
   snd (fst (Insert stand_in_hash (bob "secret") no_answer)) = gives_up /\
   now (snd (Insert stand_in_hash (bob "secret") no_answer)) = T0 + 7 * time_Second /\
   map is_failed (timeline (since no_answer
                     (snd (Insert stand_in_hash (bob "secret") no_answer))))
   = [true; false; false]) /\
  (fst (ResetPassword alice "new password" datastore_down) = None /\
   failed (since datastore_down
                 (snd (ResetPassword alice "new password" datastore_down))) = true /\
   db (snd (ResetPassword alice "new password" datastore_down)) = db datastore_down) /\
  (fst (GetAll rows_break) = Ok [entry_user (alice, [x01; x02], 1)] /\
   failed (since rows_break (snd (GetAll rows_break))) = true).
Proof.
  pose proof C8_only_Insert_retries
    as [Hrun [Hlate [_ [_ [_ [_ [Hreset [Hrows _]]]]]]]].
  split.
  { apply (Hlate stand_in_hash (bob "secret") two_failures bobs_salted_hash
                 (driver_error "dial tcp: connection refused")
                 (driver_error "dial tcp: connection refused") []).
    - vm_compute. lia.
    - reflexivity.
    - reflexivity. }
  split; [vm_compute; reflexivity|]. split; [vm_compute; reflexivity|]. split.
  { split.
    - apply (Hrun stand_in_hash (bob "secret") no_answer bobs_salted_hash).
      + vm_compute. lia.
      + reflexivity.
    - vm_compute. repeat split. }
  split.
  { apply (Hreset alice "new password" datastore_down
                  (driver_error "dial tcp 10.0.0.5:5432: connection refused")).
    reflexivity. }
  apply (Hrows rows_break 1%nat (driver_error "unexpected EOF")
               [(alice, [x01; x02], 1); (bob "secret", [x03], 2)]);
    reflexivity.
Defined.


(** * Further properties *)

(** ** Lookups of users *)

Lemma filter_none : forall (A : Type) (f : A -> bool) (l : list A),
  (forall x, In x l -> f x = false) -> filter f l = [].
Proof.
  intros A f l. induction l as [|x l IH]; intros H; simpl; [reflexivity|].
  rewrite (H x (or_introl eq_refl)). apply IH.
  intros y Hy. apply H. right. exact Hy.
Qed.

(** A SELECT on the users table by one of its columns, when nothing stops
    it: the rows that meet the condition, each as its selected fields. *)
Lemma run_lookup_users : forall col v w,
  users_of_design w -> next_runs w -> In col users_columns ->
  run (SELECT user_fields "users" (Some (col, v))) w
  = (Ok (map (project user_fields) (filter (matches (col, v)) (rows (users (db w))))),
     sent (SELECT user_fields "users" (Some (col, v))) None (db w) w).
Proof.
  intros col v w Hc Hf Hin. unfold run, sent.
  assert (Hx : exec (SELECT user_fields "users" (Some (col, v))) (db w)
               = Ok (db w, map (project user_fields)
                               (filter (matches (col, v)) (rows (users (db w)))))).
  { unfold users_of_design in Hc. simpl. unfold has_column. rewrite Hc.
    simpl in Hin.
    repeat (destruct Hin as [<-|Hin]; [reflexivity|]). contradiction. }
  rewrite Hx. unfold next_runs in Hf.
  destruct (faults w) as [|[e|] fs]; simpl in Hf; try discriminate; reflexivity.
Qed.

Lemma project_user_fields : forall r,
  project user_fields r
  = [get "id" r; get "email" r; get "first_name" r; get "last_name" r;
     get "password" r; get "created_at" r; get "updated_at" r].
Proof. reflexivity. Qed.

Lemma matches_id : forall v r, matches ("id", v) r = value_eqb (get "id" r) v.
Proof. reflexivity. Qed.

Lemma matches_email : forall v r, matches ("email", v) r = value_eqb (get "email" r) v.
Proof. reflexivity. Qed.

(** What [Scan] makes of the fields of a row: the id is that of the row;
    so is the email, when the row has it as text. *)
Lemma scan_User_id : forall r u,
  scan_User (project user_fields r) = Ok u -> get "id" r = VInt (User_ID u).
Proof.
  intros r u. rewrite project_user_fields. unfold scan_User.
  destruct (get "id" r) as [|n|s|b|t]; simpl; try discriminate.
  destruct (scan_string (get "email" r)); simpl; try discriminate.
  destruct (scan_string (get "first_name" r)); simpl; try discriminate.
  destruct (scan_string (get "last_name" r)); simpl; try discriminate.
  destruct (scan_string (get "password" r)); simpl; try discriminate.
  destruct (scan_time (get "created_at" r)); simpl; try discriminate.
  destruct (scan_time (get "updated_at" r)); simpl; try discriminate.
  intros H. inversion H; subst. reflexivity.
Qed.

Lemma scan_User_email : forall r u email,
  scan_User (project user_fields r) = Ok u -> get "email" r = VText email ->
  User_Email u = email.
Proof.
  intros r u email. rewrite project_user_fields. unfold scan_User.
  intros H He. rewrite He in H. simpl in H.
  destruct (scan_int (get "id" r)); simpl in H; try discriminate.
  destruct (scan_string (get "first_name" r)); simpl in H; try discriminate.
  destruct (scan_string (get "last_name" r)); simpl in H; try discriminate.
  destruct (scan_string (get "password" r)); simpl in H; try discriminate.
  destruct (scan_time (get "created_at" r)); simpl in H; try discriminate.
  destruct (scan_time (get "updated_at" r)); simpl in H; try discriminate.
  inversion H; subst. reflexivity.
Qed.

Lemma filter_first : forall (A : Type) (f : A -> bool) (pre : list A) (x : A) (post : list A),
  (forall y, In y pre -> f y = false) -> f x = true ->
  filter f (pre ++ x :: post) = x :: filter f post.
Proof.
  intros A f pre x post Hpre Hx. rewrite filter_app, (filter_none _ f pre Hpre).
  simpl. rewrite Hx. reflexivity.
Qed.

Lemma value_eqb_refl : forall v, v <> VNull -> value_eqb v v = true.
Proof.
  intros v Hv. unfold value_eqb.
  destruct v; try contradiction;
    match goal with
    | |- (if ?c then _ else _) = _ => destruct c; [reflexivity|contradiction]
    end.
Qed.

(** A failed [Scan] is never the missing-row error. *)
Lemma scan_User_Err : forall vs e,
  scan_User vs = Err e -> errors_Is e sql_ErrNoRows = false.
Proof.
  intros vs e. unfold scan_User.
  destruct vs as [|v1 [|v2 [|v3 [|v4 [|v5 [|v6 [|v7 [|v8 vs]]]]]]]];
    try (intros H; inversion H; reflexivity).
  destruct v1, v2, v3, v4, v5, v6, v7; simpl;
    intros H; inversion H; reflexivity.
Qed.

(** [GetByID] when its statement runs: the first row with the id, read
    into a [User]; without such a row, the not-found error. *)
Lemma GetByID_runs : forall id w,
  users_of_design w -> next_runs w ->
  GetByID id w
  = match filter (matches ("id", VInt id)) (rows (users (db w))) with
    | [] => (Err (errors_New "user not found"),
             sent (lookup_user id) None (db w) w)
    | r :: _ =>
        match scan_User (project user_fields r) with
        | Ok u => (Ok u, sent (lookup_user id) None (db w) w)
        | Err e => (Err e, logged ("failed to get user by ID: " ++ Error e)
                                  (sent (lookup_user id) None (db w) w))
        end
    end.
Proof.
  intros id w Hc Hf. unfold GetByID, db_QueryRowContext, bind.
  change (SELECT ["id"; "email"; "first_name"; "last_name"; "password";
                  "created_at"; "updated_at"] "users" (Some ("id", VInt id)))
    with (SELECT user_fields "users" (Some ("id", VInt id))).
  rewrite (run_lookup_users "id" (VInt id) w Hc Hf) by (simpl; auto).
  destruct (filter (matches ("id", VInt id)) (rows (users (db w)))) as [|r rest];
    [reflexivity|].
  cbv beta iota zeta delta [ret map and_then].
  destruct (scan_User (project user_fields r)) as [u|e] eqn:Hs.
  - reflexivity.
  - rewrite (scan_User_Err _ _ Hs). reflexivity.
Qed.

Lemma GetByEmail_runs : forall email w,
  users_of_design w -> next_runs w ->
  GetByEmail email w
  = match filter (matches ("email", VText email)) (rows (users (db w))) with
    | [] => (Err (errors_New ("no user found with email " ++ email)),
             sent (lookup_email email) None (db w) w)
    | r :: _ =>
        match scan_User (project user_fields r) with
        | Ok u => (Ok u, sent (lookup_email email) None (db w) w)
        | Err e => (Err e, logged ("failed to get user by email: " ++ Error e)
                                  (sent (lookup_email email) None (db w) w))
        end
    end.
Proof.
  intros email w Hc Hf. unfold GetByEmail, db_QueryRowContext, bind.
  change (SELECT ["id"; "email"; "first_name"; "last_name"; "password";
                  "created_at"; "updated_at"] "users" (Some ("email", VText email)))
    with (SELECT user_fields "users" (Some ("email", VText email))).
  rewrite (run_lookup_users "email" (VText email) w Hc Hf) by (simpl; auto).
  destruct (filter (matches ("email", VText email)) (rows (users (db w)))) as [|r rest];
    [reflexivity|].
  cbv beta iota zeta delta [ret map and_then].
  destruct (scan_User (project user_fields r)) as [u|e] eqn:Hs.
  - reflexivity.
  - rewrite (scan_User_Err _ _ Hs). reflexivity.
Qed.

(** X1.  [GetByID], when its statement runs on the users table of the
    design: with no row of that id it returns the error [user not found]
    and logs nothing; it returns the first row that has the id, read into
    a [User]; a user it returns has the id that was asked for and comes
    from a stored row; and the tables are as before. *)
Theorem X1_GetByID_by_id : forall (id : Z) (w : World),
  users_of_design w -> next_runs w ->
  (no_user_with_id id w ->
     GetByID id w = (Err (errors_New "user not found"),
                     sent (lookup_user id) None (db w) w)) /\
  (forall pre r post u,
     rows (users (db w)) = pre ++ r :: post ->
     (forall x, In x pre -> get "id" x <> VInt id) ->
     get "id" r = VInt id -> scan_User (project user_fields r) = Ok u ->
     fst (GetByID id w) = Ok u) /\
  (forall u, fst (GetByID id w) = Ok u ->
     User_ID u = id /\
     exists r, In r (rows (users (db w))) /\ get "id" r = VInt id /\
               scan_User (project user_fields r) = Ok u) /\
  db (snd (GetByID id w)) = db w.
Proof.
  intros id w Hc Hf. rewrite (GetByID_runs id w Hc Hf).
  split; [|split; [|split]].
  - intros Hno. rewrite filter_none; [reflexivity|].
    intros r Hr. rewrite matches_id. apply value_eqb_false. exact (Hno r Hr).
  - intros pre r post u Hrows Hpre Hr Hs. rewrite Hrows, filter_first.
    + rewrite Hs. reflexivity.
    + intros x Hx. rewrite matches_id. apply value_eqb_false. exact (Hpre x Hx).
    + rewrite matches_id, Hr. apply value_eqb_refl. discriminate.
  - intros u.
    destruct (filter (matches ("id", VInt id)) (rows (users (db w)))) as [|r rest] eqn:Hfl;
      [discriminate|].
    assert (Hin : In r (filter (matches ("id", VInt id)) (rows (users (db w)))))
      by (rewrite Hfl; left; reflexivity).
    apply filter_In in Hin. destruct Hin as [Hin Hm].
    rewrite matches_id in Hm. apply value_eqb_true in Hm.
    destruct (scan_User (project user_fields r)) as [u'|e] eqn:Hs; simpl;
      [|discriminate].
    intros H. inversion H; subst u'.
    pose proof (scan_User_id r u Hs) as Hid. rewrite Hm in Hid.
    injection Hid as Hid'. split; [symmetry; exact Hid'|]. exists r. auto.
  - destruct (filter (matches ("id", VInt id)) (rows (users (db w)))) as [|r rest];
      [reflexivity|].
    destruct (scan_User (project user_fields r)); reflexivity.
Qed.

(** Alice is found under her id 1; nobody is under 7. *)
Lemma X1_GetByID_witness :
  fst (GetByID 1 (world_at "token" T0 T0)) = Ok alice /\
  fst (GetByID 7 (world_at "token" T0 T0)) = Err (errors_New "user not found").
Proof.
  destruct (X1_GetByID_by_id 1 (world_at "token" T0 T0) eq_refl eq_refl)
    as [_ [Hfound _]].
  destruct (X1_GetByID_by_id 7 (world_at "token" T0 T0) eq_refl eq_refl)
    as [Hmissing _].
  split.
  - apply (Hfound [] alice_row [] alice); try reflexivity.
    intros x [].
  - rewrite Hmissing; [reflexivity|].
    intros r [<-|[]]. discriminate.
Defined.

(** X2.  [GetByEmail], when its statement runs on the users table of the
    design: with no row of that email it returns an error that names the
    email and logs nothing; it returns the first row that has the email; a
    user it returns has the email that was asked for; and the tables are
    as before. *)
Theorem X2_GetByEmail_by_email : forall (email : string) (w : World),
  users_of_design w -> next_runs w ->
  (no_user_with_email email w ->
     GetByEmail email w
     = (Err (errors_New ("no user found with email " ++ email)),
        sent (lookup_email email) None (db w) w)) /\
  (forall pre r post u,
     rows (users (db w)) = pre ++ r :: post ->
     (forall x, In x pre -> get "email" x <> VText email) ->
     get "email" r = VText email -> scan_User (project user_fields r) = Ok u ->
     fst (GetByEmail email w) = Ok u) /\
  (forall u, fst (GetByEmail email w) = Ok u -> User_Email u = email) /\
  db (snd (GetByEmail email w)) = db w.
Proof.
  intros email w Hc Hf. rewrite (GetByEmail_runs email w Hc Hf).
  split; [|split; [|split]].
  - intros Hno. rewrite filter_none; [reflexivity|].
    intros r Hr. rewrite matches_email. apply value_eqb_false. exact (Hno r Hr).
  - intros pre r post u Hrows Hpre Hr Hs. rewrite Hrows, filter_first.
    + rewrite Hs. reflexivity.
    + intros x Hx. rewrite matches_email. apply value_eqb_false. exact (Hpre x Hx).
    + rewrite matches_email, Hr. apply value_eqb_refl. discriminate.
  - intros u.
    destruct (filter (matches ("email", VText email)) (rows (users (db w))))
      as [|r rest] eqn:Hfl; [discriminate|].
    assert (Hin : In r (filter (matches ("email", VText email)) (rows (users (db w)))))
      by (rewrite Hfl; left; reflexivity).
    apply filter_In in Hin. destruct Hin as [Hin Hm].
    rewrite matches_email in Hm. apply value_eqb_true in Hm.
    destruct (scan_User (project user_fields r)) as [u'|e] eqn:Hs; simpl;
      [|discriminate].
    intros H. inversion H; subst u'. exact (scan_User_email r u email Hs Hm).
  - destruct (filter (matches ("email", VText email)) (rows (users (db w))))
      as [|r rest]; [reflexivity|].
    destruct (scan_User (project user_fields r)); reflexivity.
Qed.

Lemma X2_GetByEmail_witness :
  fst (GetByEmail "alice@example.com" (world_at "token" T0 T0)) = Ok alice /\
  fst (GetByEmail "nobody@example.com" (world_at "token" T0 T0))
  = Err (errors_New "no user found with email nobody@example.com").
Proof.
  destruct (X2_GetByEmail_by_email "alice@example.com" (world_at "token" T0 T0)
                                   eq_refl eq_refl) as [_ [Hfound _]].
  destruct (X2_GetByEmail_by_email "nobody@example.com" (world_at "token" T0 T0)
                                   eq_refl eq_refl) as [Hmissing _].
  split.
  - apply (Hfound [] alice_row [] alice); try reflexivity.
    intros x [].
  - rewrite Hmissing; [reflexivity|].
    intros r [<-|[]]. discriminate.
Defined.

(** ** [Insert] and what can be read back *)

Lemma attempt_runs : forall user h w,
  users_of_design w -> next_runs w ->
  db_QueryRowContext (insert_user user h) w
  = (Ok [VInt (serial (users (db w)))],
     sent (insert_user user h) None (inserted user h (db w)) w).
Proof.
  intros user h w Hc Hf. unfold db_QueryRowContext, bind, run.
  rewrite exec_insert_user. unfold users_of_design in Hc.
  assert (Hm : missing_column (users (db w))
                 ["email"; "first_name"; "last_name"; "password";
                  "created_at"; "updated_at"; "id"] = None).
  { simpl. unfold has_column. rewrite Hc. reflexivity. }
  rewrite Hm. unfold next_runs in Hf. unfold sent.
  destruct (faults w) as [|[e|] fs]; simpl in Hf; try discriminate; reflexivity.
Qed.

(** [Insert] when the salt can be drawn, the password hashed and the
    first INSERT runs. *)
Lemma Insert_runs : forall hash user w hashed,
  users_of_design w -> next_runs w ->
  (16 <= List.length (entropy w))%nat ->
  hash (bytes_of_string (User_Password user)) 12 (firstn 16 (entropy w)) = Ok hashed ->
  Insert hash user w
  = ((0, None),
     sent (insert_user user hashed) None (inserted user hashed (db w)) (drawn 16 w)).
Proof.
  intros hash user w hashed Hc Hf Hlen Hh.
  rewrite (Insert_hashed hash user w hashed Hlen Hh).
  rewrite Insert_loop_turns. unfold bind at 1.
  rewrite call_in_time.
  - rewrite (attempt_runs user hashed (drawn 16 w) Hc Hf). reflexivity.
  - cbn [now drawn]. unfold dbTimeout, time_Second. lia.
  - cbn [faults drawn]. unfold next_runs in Hf. rewrite Hf. discriminate.
Qed.

Lemma bytes_of_string_of_bytes : forall b, bytes_of_string (string_of_bytes b) = b.
Proof. intros b. apply list_byte_of_string_of_list_byte. Qed.

(** X3.  What [Insert] stored is what [GetByEmail] returns, and the
    password it was stored with matches.  On the users table of the
    design, with no row of that email yet, a salt to draw and two
    statements that run: [Insert] reports no error; [GetByEmail] of the
    email then returns the user with the generated id, the fields that
    were given, and as password the hash, not the text; and with a hashing
    primitive whose comparison accepts that password for that hash,
    [PasswordMatches] on the returned user answers [true]. *)
Theorem X3_Insert_then_GetByEmail :
  forall (hash : list byte -> Z -> list byte -> result (list byte))
         (compare : list byte -> list byte -> option error)
         (user : User) (w : World) (hashed : list byte),
  users_of_design w -> next_two_run w ->
  (16 <= List.length (entropy w))%nat ->
  no_user_with_email (User_Email user) w ->
  hash (bytes_of_string (User_Password user)) 12 (firstn 16 (entropy w)) = Ok hashed ->
  compare hashed (bytes_of_string (User_Password user)) = None ->
  fst (Insert hash user w) = (0, None) /\
  fst (GetByEmail (User_Email user) (snd (Insert hash user w)))
  = Ok (stored_user user hashed (serial (users (db w)))) /\
  PasswordMatches compare (stored_user user hashed (serial (users (db w))))
                  (User_Password user) = (true, None).
Proof.
  intros hash compare user w hashed Hc [Hf1 Hf2] Hlen Hno Hh Hcmp.
  rewrite (Insert_runs hash user w hashed Hc Hf1 Hlen Hh).
  split; [reflexivity|]. split.
  - cbn [snd]. rewrite GetByEmail_runs; [|exact Hc|exact Hf2].
    cbn [db sent inserted users rows].
    rewrite (filter_first _ _ (rows (users (db w)))
                          (user_row user hashed (serial (users (db w)))) []).
    + reflexivity.
    + intros r Hr. rewrite matches_email. apply value_eqb_false. exact (Hno r Hr).
    + rewrite matches_email. apply value_eqb_refl. discriminate.
  - unfold PasswordMatches, stored_user. cbn [User_Password].
    rewrite bytes_of_string_of_bytes, Hcmp. reflexivity.
Qed.

(** Bob signs up in an empty table and is found again. *)
Lemma X3_Insert_then_GetByEmail_witness :
  fst (Insert stand_in_hash (bob "secret") world_with_entropy) = (0, None) /\
  fst (GetByEmail "bob@example.com"
                  (snd (Insert stand_in_hash (bob "secret") world_with_entropy)))
  = Ok (stored_user (bob "secret") bobs_hash 1) /\
  PasswordMatches stand_in_compare (stored_user (bob "secret") bobs_hash 1) "secret"
  = (true, None).
Proof.
  apply (X3_Insert_then_GetByEmail stand_in_hash stand_in_compare (bob "secret")
                                   world_with_entropy bobs_hash).
  - reflexivity.
  - split; reflexivity.
  - vm_compute. lia.
  - intros r [].
  - reflexivity.
  - vm_compute. reflexivity.
Defined.

(** X4.  [Insert] adds at most one row and nothing else.  Whatever the
    datastore does to its three attempts, the users table afterwards is
    the table before with at most one row appended, none when [Insert]
    returns an error; no stored row is changed or removed, and the tokens
    table is as before. *)
Theorem X4_Insert_adds_at_most_one_row :
  forall (hash : list byte -> Z -> list byte -> result (list byte))
         (user : User) (w : World),
  exists added,
    rows (users (db (snd (Insert hash user w)))) = rows (users (db w)) ++ added /\
    (List.length added <= 1)%nat /\
    (is_Some (snd (fst (Insert hash user w))) = true -> added = []) /\
    (snd (fst (Insert hash user w)) = None -> List.length added = 1%nat) /\
    columns (users (db (snd (Insert hash user w)))) = columns (users (db w)) /\
    tokens (db (snd (Insert hash user w))) = tokens (db w).
Proof.
  intros hash user w.
  assert (Hfail : forall e msg w0,
            Insert hash user w = ((0, Some e), logged msg w0) -> db w0 = db w ->
            exists added,
              rows (users (db (snd (Insert hash user w)))) = rows (users (db w)) ++ added /\
              (List.length added <= 1)%nat /\
              (is_Some (snd (fst (Insert hash user w))) = true -> added = []) /\
              (snd (fst (Insert hash user w)) = None -> List.length added = 1%nat) /\
              columns (users (db (snd (Insert hash user w)))) = columns (users (db w)) /\
              tokens (db (snd (Insert hash user w))) = tokens (db w)).
  { intros e msg w0 H Hd. rewrite H. simpl. rewrite Hd. exists [].
    rewrite app_nil_r. repeat split; auto. discriminate. }
  destruct (Nat.ltb (List.length (entropy w)) 16) eqn:E.
  { apply Nat.ltb_lt in E.
    destruct (Insert_not_hashed hash user w (or_introl E))
      as [e [msg [w0 [H [_ [Hd _]]]]]].
    exact (Hfail e msg w0 H Hd). }
  apply Nat.ltb_ge in E.
  destruct (hash (bytes_of_string (User_Password user)) 12 (firstn 16 (entropy w)))
    as [hashed|e] eqn:Hh.
  2: { destruct (Insert_not_hashed hash user w) as [e' [msg [w0 [H [_ [Hd _]]]]]].
       - right. rewrite Hh. reflexivity.
       - exact (Hfail e' msg w0 H Hd). }
  rewrite (Insert_hashed hash user w hashed E Hh).
  destruct (Insert_loop_cases user hashed (errors_New "") w (drawn 16 w) eq_refl)
    as [l [elapsed [_ [_ [_ [_ [_ Hdb]]]]]]].
  rewrite Hdb.
  destruct (snd (fst (Insert_loop 3 0 3 (now w + dbTimeout) (insert_user user hashed)
                                  (errors_New "") (drawn 16 w)))) as [e|].
  - exists []. simpl. rewrite app_nil_r. repeat split; auto. discriminate.
  - exists [user_row user hashed (serial (users (db w)))]. simpl.
    repeat split; auto. discriminate.
Qed.

(** ** [Update] and [ResetPassword] *)

Lemma get_set_same : forall c v r, get c (set c v r) = v.
Proof.
  intros c v r. induction r as [|[k x] r IH]; simpl.
  - rewrite String.eqb_refl. reflexivity.
  - destruct (String.eqb k c) eqn:E; simpl; rewrite E; [reflexivity|exact IH].
Qed.

Lemma get_set_other : forall c c' v r, c' <> c -> get c (set c' v r) = get c r.
Proof.
  intros c c' v r Hne. induction r as [|[k x] r IH]; simpl.
  - apply String.eqb_neq in Hne. rewrite Hne. reflexivity.
  - destruct (String.eqb k c') eqn:E; simpl.
    + apply String.eqb_eq in E. subst k.
      apply String.eqb_neq in Hne. rewrite Hne. reflexivity.
    + rewrite IH. reflexivity.
Qed.

(** Rows that meet a condition which the change keeps: changing them and
    then selecting is selecting and then changing. *)
Lemma filter_map_kept : forall (m : row -> bool) (g : row -> row) (l : list row),
  (forall r, m r = true -> m (g r) = true) ->
  filter m (map (fun r => if m r then g r else r) l) = map g (filter m l).
Proof.
  intros m g l Hk. induction l as [|r l IH]; simpl; [reflexivity|].
  destruct (m r) eqn:E.
  - rewrite (Hk r E). simpl. rewrite IH. reflexivity.
  - rewrite E. exact IH.
Qed.

Lemma exec_update_user : forall user d,
  exec (update_user user) d
  = match missing_column (users d)
                         ["email"; "first_name"; "last_name"; "updated_at"; "id"] with
    | Some col => Err (undefined_column col)
    | None => Ok (users_changed (User_ID user) (updated_row user) d, [])
    end.
Proof. reflexivity. Qed.

Lemma exec_reset_password : forall id password d,
  exec (reset_password id password) d
  = match missing_column (users d) ["password"; "id"] with
    | Some col => Err (undefined_column col)
    | None => Ok (users_changed id (reset_row password) d, [])
    end.
Proof. reflexivity. Qed.

Lemma Update_runs : forall user w,
  users_of_design w -> next_runs w ->
  Update user w
  = (None, sent (update_user user) None
                (users_changed (User_ID user) (updated_row user) (db w)) w).
Proof.
  intros user w Hc Hf. unfold Update, db_ExecContext, bind, run.
  fold (update_user user). rewrite exec_update_user.
  assert (Hm : missing_column (users (db w))
                 ["email"; "first_name"; "last_name"; "updated_at"; "id"] = None).
  { unfold users_of_design in Hc. simpl. unfold has_column. rewrite Hc. reflexivity. }
  rewrite Hm. unfold next_runs in Hf. unfold sent.
  destruct (faults w) as [|[e|] fs]; simpl in Hf; try discriminate; reflexivity.
Qed.

Lemma ResetPassword_runs : forall u password w,
  users_of_design w -> next_runs w ->
  ResetPassword u password w
  = (None, sent (reset_password (User_ID u) password) None
                (users_changed (User_ID u) (reset_row password) (db w)) w).
Proof.
  intros u password w Hc Hf. unfold ResetPassword, db_ExecContext, bind, run.
  fold (reset_password (User_ID u) password). rewrite exec_reset_password.
  assert (Hm : missing_column (users (db w)) ["password"; "id"] = None).
  { unfold users_of_design in Hc. simpl. unfold has_column. rewrite Hc. reflexivity. }
  rewrite Hm. unfold next_runs in Hf. unfold sent.
  destruct (faults w) as [|[e|] fs]; simpl in Hf; try discriminate; reflexivity.
Qed.

(** What [Update] leaves and what it writes in a row. *)
Lemma updated_row_fields : forall user r,
  get "id" (updated_row user r) = get "id" r /\
  get "password" (updated_row user r) = get "password" r /\
  get "created_at" (updated_row user r) = get "created_at" r /\
  get "email" (updated_row user r) = VText (User_Email user) /\
  get "first_name" (updated_row user r) = VText (User_FirstName user) /\
  get "last_name" (updated_row user r) = VText (User_LastName user) /\
  get "updated_at" (updated_row user r) = VTime (User_UpdatedAt user).
Proof.
  intros user r. unfold updated_row.
  repeat split;
    repeat first [ rewrite get_set_same; reflexivity
                 | rewrite get_set_other by discriminate ];
    reflexivity.
Qed.

Lemma reset_row_fields : forall password r,
  get "id" (reset_row password r) = get "id" r /\
  get "email" (reset_row password r) = get "email" r /\
  get "first_name" (reset_row password r) = get "first_name" r /\
  get "last_name" (reset_row password r) = get "last_name" r /\
  get "created_at" (reset_row password r) = get "created_at" r /\
  get "updated_at" (reset_row password r) = get "updated_at" r /\
  get "password" (reset_row password r) = VText password.
Proof.
  intros password r. unfold reset_row.
  repeat split;
    repeat first [ rewrite get_set_same; reflexivity
                 | rewrite get_set_other by discriminate ];
    reflexivity.
Qed.

Lemma value_eqb_false_neq : forall a n, value_eqb a (VInt n) = false -> a <> VInt n.
Proof.
  intros a n H Heq. subst a. rewrite value_eqb_refl in H; discriminate.
Qed.

(** X5.  [Update] writes the email, the two names and the update time of
    the rows with the id of [user], and nothing else.  When its statement
    runs on the users table of the design it reports no error, also when
    no row has the id, and then nothing changes; the id, the password and
    the creation time of every row are as before, row by row; a row with
    another id is still there as it was; a row with the id has the four
    values of [user]; and the tokens table is as before. *)
Theorem X5_Update_writes_four_fields : forall (user : User) (w : World),
  users_of_design w -> next_runs w ->
  fst (Update user w) = None /\
  map (get "id") (rows (users (db (snd (Update user w)))))
  = map (get "id") (rows (users (db w))) /\
  map (get "password") (rows (users (db (snd (Update user w)))))
  = map (get "password") (rows (users (db w))) /\
  map (get "created_at") (rows (users (db (snd (Update user w)))))
  = map (get "created_at") (rows (users (db w))) /\
  (forall r, In r (rows (users (db w))) -> get "id" r <> VInt (User_ID user) ->
             In r (rows (users (db (snd (Update user w)))))) /\
  (forall r, In r (rows (users (db (snd (Update user w))))) ->
             get "id" r = VInt (User_ID user) ->
             get "email" r = VText (User_Email user) /\
             get "first_name" r = VText (User_FirstName user) /\
             get "last_name" r = VText (User_LastName user) /\
             get "updated_at" r = VTime (User_UpdatedAt user)) /\
  (no_user_with_id (User_ID user) w -> db (snd (Update user w)) = db w) /\
  tokens (db (snd (Update user w))) = tokens (db w).
Proof.
  intros user w Hc Hf. rewrite (Update_runs user w Hc Hf).
  cbn [fst snd db sent users_changed users rows tokens].
  split; [reflexivity|].
  assert (Hkeep : forall c,
            (forall r, get c (updated_row user r) = get c r) ->
            map (get c) (map (fun r => if value_eqb (get "id" r) (VInt (User_ID user))
                                       then updated_row user r else r)
                             (rows (users (db w))))
            = map (get c) (rows (users (db w)))).
  { intros c Hg. rewrite map_map. apply map_ext. intros r.
    destruct (value_eqb (get "id" r) (VInt (User_ID user))); [apply Hg|reflexivity]. }
  split; [apply Hkeep; intros r; apply (updated_row_fields user r)|].
  split; [apply Hkeep; intros r; apply (updated_row_fields user r)|].
  split; [apply Hkeep; intros r; apply (updated_row_fields user r)|].
  split; [|split; [|split; [|reflexivity]]].
  - intros r Hin Hne. apply in_map_iff. exists r. split; [|exact Hin].
    rewrite (value_eqb_false _ _ Hne). reflexivity.
  - intros r' Hin Hid. apply in_map_iff in Hin. destruct Hin as [r [Hr Hin]].
    destruct (value_eqb (get "id" r) (VInt (User_ID user))) eqn:E.
    + subst r'. destruct (updated_row_fields user r)
        as [_ [_ [_ [He [Hfn [Hln Hu]]]]]]. auto.
    + subst r'. apply value_eqb_false_neq in E. contradiction.
  - intros Hno. unfold users_changed.
    assert (Hrows : map (fun r => if value_eqb (get "id" r) (VInt (User_ID user))
                                  then updated_row user r else r) (rows (users (db w)))
                    = rows (users (db w))).
    { rewrite <- (map_id (rows (users (db w)))) at 2. apply map_ext_in.
      intros r Hr. rewrite (value_eqb_false _ _ (Hno r Hr)). reflexivity. }
    rewrite Hrows. destruct (db w) as [[uc us ur] tt]. reflexivity.
Qed.

Lemma X5_Update_witness :
  fst (Update (updated_from alice (bob "")) (world_at "token" T0 T0)) = None /\
  map (get "email")
      (rows (users (db (snd (Update (updated_from alice (bob ""))
                                    (world_at "token" T0 T0))))))
  = [VText "bob@example.com"] /\
  map (get "password")
      (rows (users (db (snd (Update (updated_from alice (bob ""))
                                    (world_at "token" T0 T0))))))
  = [VText "$2a$12$stored.hash"].
Proof.
  destruct (X5_Update_writes_four_fields (updated_from alice (bob ""))
                                         (world_at "token" T0 T0) eq_refl eq_refl)
    as [Hok [_ [Hpw _]]].
  split; [exact Hok|]. split; [reflexivity|exact Hpw].
Defined.

(** ** Reading a user back after a change *)

Lemma scan_updated_row : forall user r u0,
  scan_User (project user_fields r) = Ok u0 ->
  scan_User (project user_fields (updated_row user r)) = Ok (updated_from u0 user).
Proof.
  intros user r u0. rewrite !project_user_fields.
  destruct (updated_row_fields user r) as [Hi [Hp [Hc [He [Hf [Hl Hu]]]]]].
  rewrite Hi, Hp, Hc, He, Hf, Hl, Hu. unfold scan_User.
  destruct (scan_int (get "id" r)); simpl; try discriminate.
  destruct (scan_string (get "email" r)); simpl; try discriminate.
  destruct (scan_string (get "first_name" r)); simpl; try discriminate.
  destruct (scan_string (get "last_name" r)); simpl; try discriminate.
  destruct (scan_string (get "password" r)); simpl; try discriminate.
  destruct (scan_time (get "created_at" r)); simpl; try discriminate.
  destruct (scan_time (get "updated_at" r)); simpl; try discriminate.
  intros H. inversion H; subst. reflexivity.
Qed.

Lemma scan_reset_row : forall password r u0,
  scan_User (project user_fields r) = Ok u0 ->
  scan_User (project user_fields (reset_row password r))
  = Ok (with_password u0 password).
Proof.
  intros password r u0. rewrite !project_user_fields.
  destruct (reset_row_fields password r) as [Hi [He [Hf [Hl [Hc [Hu Hp]]]]]].
  rewrite Hi, Hp, Hc, He, Hf, Hl, Hu. unfold scan_User.
  destruct (scan_int (get "id" r)); simpl; try discriminate.
  destruct (scan_string (get "email" r)); simpl; try discriminate.
  destruct (scan_string (get "first_name" r)); simpl; try discriminate.
  destruct (scan_string (get "last_name" r)); simpl; try discriminate.
  destruct (scan_string (get "password" r)); simpl; try discriminate.
  destruct (scan_time (get "created_at" r)); simpl; try discriminate.
  destruct (scan_time (get "updated_at" r)); simpl; try discriminate.
  intros H. inversion H; subst. reflexivity.
Qed.

(** A [GetByID] that returned a user read it from the first row with the
    id. *)
Lemma GetByID_Ok_row : forall id w u,
  users_of_design w -> next_runs w -> fst (GetByID id w) = Ok u ->
  exists r rest,
    filter (matches ("id", VInt id)) (rows (users (db w))) = r :: rest /\
    scan_User (project user_fields r) = Ok u.
Proof.
  intros id w u Hc Hf. rewrite (GetByID_runs id w Hc Hf).
  destruct (filter (matches ("id", VInt id)) (rows (users (db w)))) as [|r rest];
    [discriminate|].
  destruct (scan_User (project user_fields r)) as [u'|e] eqn:Hs; simpl;
    [|discriminate].
  intros H. inversion H; subst. exists r, rest. auto.
Qed.

(** [GetByID] after the rows with the id went through a change that keeps
    the id: it reads the first of them, changed. *)
Lemma GetByID_after_change : forall id change q w u0 u1,
  users_of_design w -> next_two_run w ->
  (forall r, get "id" (change r) = get "id" r) ->
  (forall r, scan_User (project user_fields r) = Ok u0 ->
             scan_User (project user_fields (change r)) = Ok u1) ->
  fst (GetByID id w) = Ok u0 ->
  fst (GetByID id (sent q None (users_changed id change (db w)) w)) = Ok u1.
Proof.
  intros id change q w u0 u1 Hc [Hf1 Hf2] Hid Hscan Hbefore.
  destruct (GetByID_Ok_row id w u0 Hc Hf1 Hbefore) as [r [rest [Hfl Hs]]].
  rewrite GetByID_runs; [|exact Hc|exact Hf2].
  cbn [db sent users_changed users rows].
  change (map (fun r0 => if value_eqb (get "id" r0) (VInt id) then change r0 else r0)
              (rows (users (db w))))
    with (map (fun r0 => if matches ("id", VInt id) r0 then change r0 else r0)
              (rows (users (db w)))).
  rewrite filter_map_kept.
  - rewrite Hfl. cbn [map]. rewrite (Hscan r Hs). reflexivity.
  - intros r0 Hm. rewrite matches_id in *. rewrite Hid. exact Hm.
Qed.

(** X6.  What [Update] wrote is what [GetByID] returns.  On the users
    table of the design, when the two statements run: if [GetByID] of the
    id of [user] returned [u0] before, then after [Update user], which
    reports no error, it returns [u0] with the email, the two names and
    the update time of [user], and with the password and the creation time
    that [u0] had. *)
Theorem X6_Update_then_GetByID : forall (user u0 : User) (w : World),
  users_of_design w -> next_two_run w ->
  fst (GetByID (User_ID user) w) = Ok u0 ->
  fst (Update user w) = None /\
  fst (GetByID (User_ID user) (snd (Update user w))) = Ok (updated_from u0 user).
Proof.
  intros user u0 w Hc Hf Hbefore.
  rewrite (Update_runs user w Hc (proj1 Hf)). split; [reflexivity|]. cbn [snd].
  apply (GetByID_after_change (User_ID user) (updated_row user) _ w u0); auto.
  - intros r. apply (updated_row_fields user r).
  - intros r. apply scan_updated_row.
Qed.

Lemma X6_Update_then_GetByID_witness :
  fst (GetByID 1 (snd (Update (updated_from alice (bob "")) (world_at "token" T0 T0))))
  = Ok (updated_from alice (bob "")).
Proof.
  exact (proj2 (X6_Update_then_GetByID (updated_from alice (bob "")) alice
                                       (world_at "token" T0 T0)
                                       eq_refl (conj eq_refl eq_refl) eq_refl)).
Defined.

(** X7.  [ResetPassword] stores the string it is given as it is, without
    hashing it, and reports no error.  On the users table of the design,
    when the two statements run: if [GetByID] of the id of [u] returned
    [u0] before, then after [ResetPassword u password] it returns [u0]
    with exactly [password] as its stored password, so that
    [PasswordMatches] on that user hands the given string to the
    comparison as if it were a hash. *)
Theorem X7_ResetPassword_stores_the_text :
  forall (compare : list byte -> list byte -> option error)
         (u u0 : User) (password candidate : string) (w : World),
  users_of_design w -> next_two_run w ->
  fst (GetByID (User_ID u) w) = Ok u0 ->
  fst (ResetPassword u password w) = None /\
  fst (GetByID (User_ID u) (snd (ResetPassword u password w)))
  = Ok (with_password u0 password) /\
  PasswordMatches compare (with_password u0 password) candidate
  = match compare (bytes_of_string password) (bytes_of_string candidate) with
    | None => (true, None)
    | Some e => if errors_Is e bcrypt_ErrMismatchedHashAndPassword
                then (false, None) else (false, Some e)
    end.
Proof.
  intros compare u u0 password candidate w Hc Hf Hbefore.
  rewrite (ResetPassword_runs u password w Hc (proj1 Hf)).
  split; [reflexivity|]. split; [|reflexivity]. cbn [snd].
  apply (GetByID_after_change (User_ID u) (reset_row password) _ w u0); auto.
  - intros r. apply (reset_row_fields password r).
  - intros r. apply scan_reset_row.
Qed.

(** After alice's password is reset to [hunter2] the stored password is
    that text, and the stand-in comparison cannot read it as a hash. *)
Lemma X7_ResetPassword_witness :
  fst (GetByID 1 (snd (ResetPassword alice "hunter2" (world_at "token" T0 T0))))
  = Ok (with_password alice "hunter2") /\
  PasswordMatches stand_in_compare (with_password alice "hunter2") "hunter2"
  = (false, Some (bcrypt_error
                    "crypto/bcrypt: hashedSecret too short to be a bcrypted password")).
Proof.
  destruct (X7_ResetPassword_stores_the_text stand_in_compare alice alice
              "hunter2" "hunter2" (world_at "token" T0 T0)
              eq_refl (conj eq_refl eq_refl) eq_refl) as [_ [Hget Hpm]].
  split; [exact Hget|]. rewrite Hpm. reflexivity.
Defined.

Lemma Delete_runs : forall id w,
  users_of_design w -> next_runs w ->
  Delete id w
  = (None,
     sent (DELETE "users" ("id", VInt id)) None
          {| users := {| columns := columns (users (db w));
                         serial := serial (users (db w));
                         rows := without_id id (rows (users (db w))) |};
             tokens := tokens (db w) |} w).
Proof.
  intros id w Hc Hf. unfold Delete, db_ExecContext, bind.
  rewrite (run_DELETE_users id w Hc Hf). reflexivity.
Qed.

(** X8.  A deleted user is not found.  On the users table of the design,
    when the two statements run, [GetByID id] after [Delete id] returns the
    error [user not found], whether or not a row had the id; a user with
    another id who was found before is found as before. *)
Theorem X8_Delete_then_GetByID : forall (id : Z) (w : World),
  users_of_design w -> next_two_run w ->
  fst (Delete id w) = None /\
  fst (GetByID id (snd (Delete id w))) = Err (errors_New "user not found") /\
  (forall other, other <> id ->
     fst (GetByID other (snd (Delete id w))) = fst (GetByID other w)).
Proof.
  intros id w Hc [Hf1 Hf2]. rewrite (Delete_runs id w Hc Hf1).
  split; [reflexivity|]. cbn [snd]. split.
  - rewrite GetByID_runs; [|exact Hc|exact Hf2].
    cbn [db sent users rows]. rewrite filter_none; [reflexivity|].
    intros r Hr. unfold without_id in Hr. apply filter_In in Hr.
    destruct Hr as [_ Hr]. rewrite matches_id.
    destruct (value_eqb (get "id" r) (VInt id)); [discriminate Hr|reflexivity].
  - intros other Hne.
    rewrite GetByID_runs; [|exact Hc|exact Hf2].
    rewrite GetByID_runs; [|exact Hc|exact Hf1].
    cbn [db sent users rows].
    assert (Hsame : filter (matches ("id", VInt other))
                           (without_id id (rows (users (db w))))
                    = filter (matches ("id", VInt other)) (rows (users (db w)))).
    { unfold without_id. induction (rows (users (db w))) as [|r l IH];
        [reflexivity|]. simpl.
      destruct (value_eqb (get "id" r) (VInt id)) eqn:E; simpl.
      - rewrite matches_id.
        apply value_eqb_true in E.
        rewrite (value_eqb_false (get "id" r) (VInt other)).
        + exact IH.
        + rewrite E. intros H. inversion H. apply Hne. symmetry. assumption.
      - rewrite IH. reflexivity. }
    rewrite Hsame.
    destruct (filter (matches ("id", VInt other)) (rows (users (db w)))) as [|r rest];
      [reflexivity|].
    destruct (scan_User (project user_fields r)); reflexivity.
Qed.

Lemma X8_Delete_then_GetByID_witness :
  fst (GetByID 1 (world_at "token" T0 T0)) = Ok alice /\
  fst (GetByID 1 (snd (Delete 1 (world_at "token" T0 T0))))
  = Err (errors_New "user not found") /\
  fst (GetByID 1 (snd (Delete 7 (world_at "token" T0 T0)))) = Ok alice.
Proof.
  destruct (X8_Delete_then_GetByID 1 (world_at "token" T0 T0)
                                   eq_refl (conj eq_refl eq_refl))
    as [_ [Hgone _]].
  destruct (X8_Delete_then_GetByID 7 (world_at "token" T0 T0)
                                   eq_refl (conj eq_refl eq_refl))
    as [_ [_ Hother]].
  split; [reflexivity|]. split; [exact Hgone|].
  rewrite (Hother 1); [reflexivity|discriminate].
Defined.

(** ** What the authenticator answers *)

Lemma project_token_fields : forall r,
  project ["id"; "user_id"; "email"; "plainText"; "token_hash";
           "created_at"; "updated_at"; "expiry"] r
  = [get "id" r; get "user_id" r; get "email" r; get "plaintext" r;
     get "token_hash" r; get "created_at" r; get "updated_at" r; get "expiry" r].
Proof. reflexivity. Qed.

(** A token that [GetByToken] returns has the text that was asked for. *)
Lemma GetByToken_Ok_text : forall p w tm w1,
  GetByToken p w = (Ok tm, w1) -> Token_Token tm = p.
Proof.
  intros p w tm w1. unfold GetByToken, bind.
  destruct (QueryRow_SELECT
              ["id"; "user_id"; "email"; "plainText"; "token_hash";
               "created_at"; "updated_at"; "expiry"] "tokens"
              ("plainText", VText p) w) as [res [o [H Hrow]]].
  rewrite H. destruct res as [vs|e]; simpl.
  - destruct (Hrow vs eq_refl) as [tb [r [_ [_ [Hm Hvs]]]]].
    apply value_eqb_true in Hm. change (get "plaintext" r = VText p) in Hm.
    rewrite project_token_fields in Hvs. subst vs. rewrite Hm.
    unfold scan_Token.
    destruct (scan_int (get "id" r)); simpl;
      [|destruct (errors_Is _ _); intros X; inversion X].
    destruct (scan_int (get "user_id" r)); simpl;
      [|destruct (errors_Is _ _); intros X; inversion X].
    destruct (scan_string (get "email" r)); simpl;
      [|destruct (errors_Is _ _); intros X; inversion X].
    destruct (scan_bytes (get "token_hash" r)); simpl;
      [|destruct (errors_Is _ _); intros X; inversion X].
    destruct (scan_time (get "created_at" r)); simpl;
      [|destruct (errors_Is _ _); intros X; inversion X].
    destruct (scan_time (get "updated_at" r)); simpl;
      [|destruct (errors_Is _ _); intros X; inversion X].
    destruct (scan_time (get "expiry" r)); simpl;
      [|destruct (errors_Is _ _); intros X; inversion X].
    intros X. inversion X. reflexivity.
  - destruct (errors_Is e sql_ErrNoRows); intros X; inversion X.
Qed.

(** A user that [GetUserByToken] returns has the user id of the token. *)
Lemma GetUserByToken_Ok_id : forall t w u w1,
  GetUserByToken t w = (Ok u, w1) -> User_ID u = Token_UserID t.
Proof.
  intros t w u w1. unfold GetUserByToken, bind.
  destruct (QueryRow_SELECT
              ["id"; "email"; "first_name"; "last_name"; "password";
               "created_at"; "updated_at"] "users"
              ("id", VInt (Token_UserID t)) w) as [res [o [H Hrow]]].
  rewrite H. destruct res as [vs|e]; simpl.
  - destruct (Hrow vs eq_refl) as [tb [r [_ [_ [Hm Hvs]]]]].
    rewrite matches_id in Hm. apply value_eqb_true in Hm.
    change (vs = project user_fields r) in Hvs. subst vs.
    destruct (scan_User (project user_fields r)) as [u'|e] eqn:Hs.
    + intros X. inversion X; subst u'.
      pose proof (scan_User_id r u Hs) as Hid. rewrite Hm in Hid.
      injection Hid as Hid. symmetry. exact Hid.
    + destruct (errors_Is e sql_ErrNoRows); intros X; inversion X.
  - destruct (errors_Is e sql_ErrNoRows); intros X; inversion X.
Qed.

(** X9.  An error of [AuthenticationToken] is one of its six fixed
    messages: the error of a lookup that failed, whatever it says, goes to
    the log and not to the caller. *)
Theorem X9_AuthenticationToken_errors_are_fixed :
  forall (r : Request) (w : World) (e : error),
  fst (AuthenticationToken r w) = Err e -> In e authentication_errors.
Proof.
  intros r w e. unfold authentication_errors.
  destruct (AuthenticationToken_cases r w)
    as [[_ H]|[[_ [_ H]]|[[tk [_ [_ H]]]|[tk [_ [_ H]]]]]]; rewrite H;
    try (simpl; intros X; inversion X; simpl; tauto).
  unfold bind. destruct (GetByToken tk w) as [found w1].
  destruct (after_lookup_result found w1) as [E|[E|[E|[u E]]]]; rewrite E;
    intros X; inversion X; simpl; tauto.
Qed.

(** The datastore refuses the connection: the caller is told that no
    token matches, and the refusal is in the log. *)
Lemma X9_AuthenticationToken_witness :
  In no_matching_token_found authentication_errors /\
  fst (AuthenticationToken (request ("Bearer " ++ the_token)) datastore_down)
  = Err no_matching_token_found /\
  since datastore_down
        (snd (AuthenticationToken (request ("Bearer " ++ the_token)) datastore_down))
  = [Statement (lookup_token the_token)
               (Some (driver_error "dial tcp 10.0.0.5:5432: connection refused"));
     Log "failed to get plainText by plainText: dial tcp 10.0.0.5:5432: connection refused"].
Proof.
  split; [|split; reflexivity].
  apply (X9_AuthenticationToken_errors_are_fixed
           (request ("Bearer " ++ the_token)) datastore_down).
  reflexivity.
Defined.

(** X10.  [AuthenticationToken] returns a user only for a stored token
    that has not expired.  When it returns [u], the header was [Bearer],
    one space and a 26-byte value; the lookup of that value returned a
    token with that text whose expiry is not before the current time; and
    [u] is the user that [GetUserByToken] returned for that token, with
    the user id of the token as its id. *)
Theorem X10_AuthenticationToken_sound : forall (r : Request) (w : World) (u : User),
  fst (AuthenticationToken r w) = Ok u ->
  exists tk tm w1,
    bearer (authorization r) tk /\ String.length tk = 26%nat /\
    GetByToken tk w = (Ok tm, w1) /\ Token_Token tm = tk /\
    now w <= Token_Expiry tm /\
    fst (GetUserByToken tm w1) = Ok u /\ User_ID u = Token_UserID tm.
Proof.
  intros r w u.
  destruct (AuthenticationToken_cases r w)
    as [[_ H]|[[_ [_ H]]|[[tk [_ [_ H]]]|[tk [Hb [Hl H]]]]]]; rewrite H;
    try (simpl; discriminate).
  unfold bind. pose proof (GetByToken_now tk w) as Hn.
  destruct (GetByToken tk w) as [[tm|e] w1] eqn:Hg; simpl in Hn; simpl;
    [|discriminate].
  unfold bind, time_Now. rewrite Hn.
  destruct (Token_Expiry tm <? now w) eqn:Hlt; [simpl; discriminate|].
  apply Z.ltb_ge in Hlt.
  destruct (GetUserByToken tm w1) as [[u'|e] w2] eqn:Hu; simpl; [|discriminate].
  intros X. inversion X; subst u'.
  exists tk, tm, w1.
  split; [exact Hb|]. split; [exact Hl|]. split; [exact Hg|].
  split; [exact (GetByToken_Ok_text tk w tm w1 Hg)|]. split; [exact Hlt|].
  split; [rewrite Hu; reflexivity|exact (GetUserByToken_Ok_id tm w1 u w2 Hu)].
Qed.

(** Alice's session, stored where the lookup finds it and good for
    another nanosecond, authenticates her. *)
Lemma X10_AuthenticationToken_witness :
  fst (AuthenticationToken (request ("Bearer " ++ the_token))
                           (world_at "plaintext" (T0 + 1) T0)) = Ok alice /\
  exists tk tm w1,
    bearer (authorization (request ("Bearer " ++ the_token))) tk /\
    String.length tk = 26%nat /\
    GetByToken tk (world_at "plaintext" (T0 + 1) T0) = (Ok tm, w1) /\
    Token_Token tm = tk /\
    now (world_at "plaintext" (T0 + 1) T0) <= Token_Expiry tm /\
    fst (GetUserByToken tm w1) = Ok alice /\ User_ID alice = Token_UserID tm.
Proof.
  split; [reflexivity|].
  apply (X10_AuthenticationToken_sound (request ("Bearer " ++ the_token))
                                       (world_at "plaintext" (T0 + 1) T0) alice).
  reflexivity.
Defined.

(** X11.  In the tables of the design nobody is authenticated.  The lookup
    of [GetByToken] names the column [plainText], which the tokens table
    of the design does not have, so [GetByToken] fails for every text, and
    [AuthenticationToken] returns an error for every request: for a
    header of the right shape and length, that no token matches, also
    when a row with that very token is stored and has not expired. *)
Theorem X11_design_tables_authenticate_nobody : forall (r : Request) (w : World),
  schema_of_design w ->
  is_Err (fst (AuthenticationToken r w)) = true /\
  (forall p, is_Err (fst (GetByToken p w)) = true) /\
  (forall tk, bearer (authorization r) tk -> String.length tk = 26%nat ->
     fst (AuthenticationToken r w) = Err no_matching_token_found).
Proof.
  intros r w [_ Hc].
  assert (Hlook : forall tk, bearer (authorization r) tk -> String.length tk = 26%nat ->
                  fst (AuthenticationToken r w) = Err no_matching_token_found).
  { intros tk Hb Hl. rewrite (AuthenticationToken_lookup r w tk Hb Hl). unfold bind.
    pose proof (GetByToken_design tk w Hc) as He.
    destruct (GetByToken tk w) as [[tm|e] w1]; [discriminate He|reflexivity]. }
  split; [|split; [intros p; exact (GetByToken_design p w Hc)|exact Hlook]].
  destruct (AuthenticationToken_cases r w)
    as [[_ H]|[[_ [_ H]]|[[tk [_ [_ H]]]|[tk [Hb [Hl _]]]]]];
    try (rewrite H; reflexivity).
  rewrite (Hlook tk Hb Hl). reflexivity.
Qed.

(** Alice's session is stored in the tables of the design and is good for
    another day; her request is refused. *)
Lemma X11_design_tables_witness :
  token_stored (world_at "token" (T0 + 86400 * time_Second) T0) the_token /\
  fst (AuthenticationToken (request ("Bearer " ++ the_token))
                           (world_at "token" (T0 + 86400 * time_Second) T0))
  = Err no_matching_token_found.
Proof.
  split.
  - exists (session_row "token" (T0 + 86400 * time_Second)), "token".
    split; [left; reflexivity|reflexivity].
  - apply (proj2 (proj2 (X11_design_tables_authenticate_nobody
                           (request ("Bearer " ++ the_token))
                           (world_at "token" (T0 + 86400 * time_Second) T0)
                           (conj eq_refl eq_refl))) the_token).
    + split; reflexivity.
    + reflexivity.
Defined.

(** ** [GetAll] *)

Lemma GetAll_runs : forall w,
  users_of_design w -> next_runs w ->
  GetAll w = (scan_all (map (project user_fields) (rows (users (db w)))),
              sent select_users None (db w) w).
Proof.
  intros w Hc Hf. unfold next_runs in Hf.
  rewrite GetAll_unbroken_runs by (intros after e H; rewrite Hf in H; discriminate H).
  unfold run, sent. rewrite (exec_select_users (db w) Hc).
  destruct (faults w) as [|[e|] fs]; simpl in Hf; try discriminate; reflexivity.
Qed.

Lemma scan_all_Ok : forall rs us,
  scan_all rs = Ok us -> Forall2 (fun vs u => scan_User vs = Ok u) rs us.
Proof.
  induction rs as [|vs rs IH]; intros us H; simpl in H.
  - inversion H. constructor.
  - destruct (scan_User vs) as [u|e] eqn:Hs; simpl in H; [|discriminate].
    destruct (scan_all rs) as [us'|e]; simpl in H; [|discriminate].
    inversion H; subst. constructor; [exact Hs|apply IH; reflexivity].
Qed.

Lemma scan_all_Err : forall rs vs,
  In vs rs -> is_Err (scan_User vs) = true -> is_Err (scan_all rs) = true.
Proof.
  induction rs as [|x rs IH]; intros vs Hin He; [contradiction|].
  simpl. destruct Hin as [->|Hin].
  - destruct (scan_User vs); [discriminate He|reflexivity].
  - destruct (scan_User x); [|reflexivity]. simpl.
    pose proof (IH vs Hin He) as H. destruct (scan_all rs); [discriminate H|reflexivity].
Qed.

Lemma scan_all_ids : forall rs us,
  scan_all (map (project user_fields) rs) = Ok us ->
  map (fun u => VInt (User_ID u)) us = map (get "id") rs.
Proof.
  induction rs as [|r rs IH]; intros us H; cbn [map scan_all] in H.
  - inversion H. reflexivity.
  - destruct (scan_User (project user_fields r)) as [u|e] eqn:Hs;
      cbn [and_then] in H; [|discriminate].
    destruct (scan_all (map (project user_fields) rs)) as [us'|e];
      cbn [and_then] in H; [|discriminate].
    inversion H; subst. cbn [map].
    rewrite (scan_User_id r u Hs), (IH us' eq_refl). reflexivity.
Qed.

Lemma scan_User_no_first_name : forall r,
  get "first_name" r = VNull -> is_Err (scan_User (project user_fields r)) = true.
Proof.
  intros r H. rewrite project_user_fields, H. unfold scan_User.
  destruct (scan_int (get "id" r)); [|reflexivity]. simpl.
  destruct (scan_string (get "email" r)); reflexivity.
Qed.

(** X12.  [GetAll] returns every stored user, in the order of the table,
    or none.  When its statement runs on the users table of the design:
    the rows that [Insert] stored come back as the users that were given,
    each with its generated id and its hash as password, and an empty
    table gives an empty list and no error; a list it returns has one user
    per row, with the ids of the rows in order; and one row that cannot be
    read into a [User], such as a row without a first name, makes the
    whole call fail. *)
Theorem X12_GetAll_all_or_nothing : forall (w : World),
  users_of_design w -> next_runs w ->
  (forall es, rows (users (db w)) = map entry_row es ->
              fst (GetAll w) = Ok (map entry_user es)) /\
  (forall us, fst (GetAll w) = Ok us ->
              map (fun u => VInt (User_ID u)) us = map (get "id") (rows (users (db w)))) /\
  (forall r, In r (rows (users (db w))) -> get "first_name" r = VNull ->
             is_Err (fst (GetAll w)) = true) /\
  db (snd (GetAll w)) = db w.
Proof.
  intros w Hc Hf. rewrite (GetAll_runs w Hc Hf). cbn [fst snd db sent].
  split; [|split; [|split; [|reflexivity]]].
  - intros es Hrows. rewrite Hrows. apply scan_all_entries.
  - intros us H. exact (scan_all_ids _ us H).
  - intros r Hin Hnull.
    apply (scan_all_Err _ (project user_fields r)).
    + apply in_map. exact Hin.
    + exact (scan_User_no_first_name r Hnull).
Qed.

Lemma X12_GetAll_witness :
  fst (GetAll two_users)
  = Ok [stored_user alice [x01; x02] 1; stored_user (bob "secret") [x03] 2] /\
  fst (GetAll world0) = Ok [].
Proof.
  split.
  - apply (proj1 (X12_GetAll_all_or_nothing two_users eq_refl eq_refl)
                 [(alice, [x01; x02], 1); (bob "secret", [x03], 2)]).
    reflexivity.
  - apply (proj1 (X12_GetAll_all_or_nothing world0 eq_refl eq_refl) []).
    reflexivity.
Defined.

(** ** A request without the header *)

Lemma Header_Get_missing : forall h key,
  (forall vs, In (key, vs) h -> vs = []) -> Header_Get h key = "".
Proof.
  induction h as [|[k vs] h IH]; intros key H; simpl; [reflexivity|].
  destruct (String.eqb k key) eqn:E.
  - apply String.eqb_eq in E. subst k.
    rewrite (H vs (or_introl eq_refl)). reflexivity.
  - apply IH. intros vs' Hin. apply (H vs'). right. exact Hin.
Qed.

(** X13.  A request that carries no value under [Authorization], because
    the header is absent or listed without a value, is refused with [no
    token provided] before anything is sent to the datastore, whatever
    other headers it has. *)
Theorem X13_no_Authorization_header : forall (r : Request) (w : World),
  (forall vs, In ("Authorization", vs) (Header r) -> vs = []) ->
  AuthenticationToken r w = (Err no_token_provided, w).
Proof.
  intros r w H. unfold AuthenticationToken.
  rewrite (Header_Get_missing (Header r) "Authorization" H). reflexivity.
Qed.

Lemma X13_no_Authorization_header_witness :
  AuthenticationToken {| Header := [("Cookie", ["session=MFRGGZDFMZTWQ2LKNNWG23TPOA"]);
                                    ("Authorization", [])] |}
                      (world_at "plaintext" (T0 + 1) T0)
  = (Err no_token_provided, world_at "plaintext" (T0 + 1) T0).
Proof.
  apply X13_no_Authorization_header.
  intros vs [H|[H|[]]]; inversion H. reflexivity.
Defined.

(** ** The text of a token keeps its random bytes *)

Lemma for_all_bytes_spec : forall f,
  for_all_bytes f = true -> forall z, is_byte z -> f z = true.
Proof.
  intros f H z [Hlo Hhi]. unfold for_all_bytes in H.
  rewrite forallb_forall in H. apply H. unfold byte_values.
  apply in_map_iff. exists (Z.to_nat z). split; [lia|].
  apply in_seq. lia.
Qed.

Lemma byte_pairs : forall f g : Z -> Z -> Z,
  for_all_bytes (fun a => for_all_bytes (fun b => f a b =? g a b)) = true ->
  forall a b, is_byte a -> is_byte b -> f a b = g a b.
Proof.
  intros f g H a b Ha Hb.
  pose proof (for_all_bytes_spec _ H a Ha) as H1. cbv beta in H1.
  pose proof (for_all_bytes_spec _ H1 b Hb) as H2. cbv beta in H2.
  apply Z.eqb_eq. exact H2.
Qed.

Lemma byte_singles : forall f g : Z -> Z,
  for_all_bytes (fun a => f a =? g a) = true ->
  forall a, is_byte a -> f a = g a.
Proof.
  intros f g H a Ha. apply Z.eqb_eq. exact (for_all_bytes_spec _ H a Ha).
Qed.

(** The blocks of a quantum in arithmetic. *)
Lemma quantum_arith : forall s0 s1 s2 s3 s4,
  is_byte s0 -> is_byte s1 -> is_byte s2 -> is_byte s3 -> is_byte s4 ->
  Base32.quantum s0 s1 s2 s3 s4
  = [s0 / 8; (s0 mod 8) * 4 + s1 / 64; (s1 / 2) mod 32;
     (s1 mod 2) * 16 + s2 / 16; (s2 mod 16) * 2 + s3 / 128; (s3 / 4) mod 32;
     (s3 mod 4) * 8 + s4 / 32; s4 mod 32].
Proof.
  intros s0 s1 s2 s3 s4 H0 H1 H2 H3 H4. unfold Base32.quantum.
  rewrite (byte_singles (fun s => Z.shiftr s 3) (fun s => s / 8)
             ltac:(vm_compute; reflexivity) s0 H0).
  rewrite (byte_pairs
             (fun a b => Z.lor (Z.land (Base32.shl8 a 2) 31) (Z.land (Z.shiftr b 6) 31))
             (fun a b => (a mod 8) * 4 + b / 64)
             ltac:(vm_compute; reflexivity) s0 s1 H0 H1).
  rewrite (byte_singles (fun s => Z.land (Z.shiftr s 1) 31) (fun s => (s / 2) mod 32)
             ltac:(vm_compute; reflexivity) s1 H1).
  rewrite (byte_pairs
             (fun a b => Z.lor (Z.land (Base32.shl8 a 4) 31) (Z.land (Z.shiftr b 4) 31))
             (fun a b => (a mod 2) * 16 + b / 16)
             ltac:(vm_compute; reflexivity) s1 s2 H1 H2).
  rewrite (byte_pairs
             (fun a b => Z.lor (Z.land (Base32.shl8 a 1) 31) (Z.shiftr b 7))
             (fun a b => (a mod 16) * 2 + b / 128)
             ltac:(vm_compute; reflexivity) s2 s3 H2 H3).
  rewrite (byte_singles (fun s => Z.land (Z.shiftr s 2) 31) (fun s => (s / 4) mod 32)
             ltac:(vm_compute; reflexivity) s3 H3).
  rewrite (byte_pairs
             (fun a b => Z.lor (Z.land (Base32.shl8 a 3) 31) (Z.shiftr b 5))
             (fun a b => (a mod 4) * 8 + b / 32)
             ltac:(vm_compute; reflexivity) s3 s4 H3 H4).
  rewrite (byte_singles (fun s => Z.land s 31) (fun s => s mod 32)
             ltac:(vm_compute; reflexivity) s4 H4).
  reflexivity.
Qed.

Lemma decode_encode_char : forall i,
  block_ok i -> decode_char (Base32.encode_char i) = i.
Proof.
  intros i [Hlo Hhi].
  pose proof (byte_singles
    (fun i => if i <? 32 then decode_char (Base32.encode_char i) else i)
    (fun i => i) ltac:(vm_compute; reflexivity) i) as H.
  cbv beta in H. rewrite (proj2 (Z.ltb_lt _ _) Hhi) in H.
  apply H. unfold is_byte. lia.
Qed.

Lemma decode_encode_chars : forall bs,
  Forall block_ok bs -> map decode_char (map Base32.encode_char bs) = bs.
Proof.
  induction 1 as [|b bs Hb _ IH]; simpl; [reflexivity|].
  rewrite decode_encode_char by exact Hb. rewrite IH. reflexivity.
Qed.

Ltac undo_quantum :=
  unfold dec0, dec1, dec2, dec3, dec4, is_byte in *;
  repeat (f_equal; try (Z.div_mod_to_equations; lia)).

Lemma unblocks_blocks : forall n src,
  (List.length src <= n)%nat ->
  Forall is_byte src ->
  unblocks (Base32.blocks src) = src.
Proof.
  assert (Hz : is_byte 0) by (unfold is_byte; lia).
  induction n as [|n IH]; intros src Hlen Hsrc.
  - destruct src; [reflexivity|simpl in Hlen; lia].
  - destruct src as [|a [|b [|c [|d [|e rest]]]]].
    + reflexivity.
    + inversion Hsrc as [|? ? Ha H1]; subst.
      cbn [Base32.blocks]. rewrite quantum_arith by assumption.
      cbn [firstn unblocks]. undo_quantum.
    + inversion Hsrc as [|? ? Ha H1]; subst. inversion H1 as [|? ? Hb H2]; subst.
      cbn [Base32.blocks]. rewrite quantum_arith by assumption.
      cbn [firstn unblocks]. undo_quantum.
    + inversion Hsrc as [|? ? Ha H1]; subst. inversion H1 as [|? ? Hb H2]; subst.
      inversion H2 as [|? ? Hc H3]; subst.
      cbn [Base32.blocks]. rewrite quantum_arith by assumption.
      cbn [firstn unblocks]. undo_quantum.
    + inversion Hsrc as [|? ? Ha H1]; subst. inversion H1 as [|? ? Hb H2]; subst.
      inversion H2 as [|? ? Hc H3]; subst. inversion H3 as [|? ? Hd H4]; subst.
      cbn [Base32.blocks]. rewrite quantum_arith by assumption.
      cbn [firstn unblocks]. undo_quantum.
    + inversion Hsrc as [|? ? Ha H1]; subst. inversion H1 as [|? ? Hb H2]; subst.
      inversion H2 as [|? ? Hc H3]; subst. inversion H3 as [|? ? Hd H4]; subst.
      inversion H4 as [|? ? He H5]; subst.
      cbn [Base32.blocks]. rewrite quantum_arith by assumption.
      cbn [app unblocks].
      rewrite (IH rest) by (simpl in Hlen; lia || exact H5).
      undo_quantum.
Qed.

Lemma byte_of_Z_of_byte : forall b, byte_of_Z (Z_of_byte b) = b.
Proof. intros b. destruct b; reflexivity. Qed.

(** Decoding undoes encoding. *)
Lemma Decode_EncodeToString : forall src,
  base32_Decode (Base32.EncodeToString src) = src.
Proof.
  intros src. unfold base32_Decode, Base32.EncodeToString.
  assert (Hb : Forall is_byte (map Z_of_byte src)).
  { apply Forall_forall. intros z Hz. apply in_map_iff in Hz.
    destruct Hz as [b [<- _]]. apply Z_of_byte_range. }
  rewrite list_ascii_of_string_of_list_ascii.
  rewrite decode_encode_chars
    by (apply (blocks_range (List.length (map Z_of_byte src))); [lia|exact Hb]).
  rewrite (unblocks_blocks (List.length (map Z_of_byte src))) by (lia || exact Hb).
  rewrite map_map. rewrite <- (map_id src) at 2. apply map_ext.
  apply byte_of_Z_of_byte.
Qed.

Lemma EncodeToString_inj : forall a b,
  Base32.EncodeToString a = Base32.EncodeToString b -> a = b.
Proof.
  intros a b H. rewrite <- (Decode_EncodeToString a), <- (Decode_EncodeToString b).
  rewrite H. reflexivity.
Qed.

Lemma GenerateToken_Ok : forall userID ttl w tok w',
  GenerateToken userID ttl w = (Ok tok, w') ->
  Token_Token tok = Base32.EncodeToString (firstn 16 (entropy w)) /\ w' = drawn 16 w.
Proof.
  intros userID ttl w tok w'. unfold GenerateToken, bind, time_Now, rand_Read.
  destruct (Nat.ltb (List.length (entropy w)) 16); cbv beta iota zeta delta [ret].
  - discriminate.
  - intros H. inversion H; subst. split; reflexivity.
Qed.

(** X14.  Two tokens of [GenerateToken] have the same text only when the
    same 16 bytes were drawn for them: the encoding loses nothing of what
    the random source gave, so tokens collide exactly when the random
    bytes do. *)
Theorem X14_tokens_differ_as_their_bytes_do :
  forall (u1 u2 ttl1 ttl2 : Z) (w1 w1' w2 w2' : World) (tok1 tok2 : Token),
  GenerateToken u1 ttl1 w1 = (Ok tok1, w1') ->
  GenerateToken u2 ttl2 w2 = (Ok tok2, w2') ->
  (Token_Token tok1 = Token_Token tok2 <->
   firstn 16 (entropy w1) = firstn 16 (entropy w2)).
Proof.
  intros u1 u2 ttl1 ttl2 w1 w1' w2 w2' tok1 tok2 H1 H2.
  destruct (GenerateToken_Ok _ _ _ _ _ H1) as [E1 _].
  destruct (GenerateToken_Ok _ _ _ _ _ H2) as [E2 _].
  rewrite E1, E2. split.
  - apply EncodeToString_inj.
  - intros ->. reflexivity.
Qed.

Lemma X14_tokens_witness :
  GenerateToken 1 (86400 * time_Second) world_with_entropy
  = (Ok issued, drawn 16 world_with_entropy) /\
  GenerateToken 2 (3600 * time_Second) (drawn 16 world_with_entropy)
  = (Ok issued_next, drawn 16 (drawn 16 world_with_entropy)) /\
  (Token_Token issued = Token_Token issued_next <->
   firstn 16 (entropy world_with_entropy)
   = firstn 16 (entropy (drawn 16 world_with_entropy))).
Proof.
  assert (E1 : GenerateToken 1 (86400 * time_Second) world_with_entropy
               = (Ok issued, drawn 16 world_with_entropy))
    by (vm_compute; reflexivity).
  assert (E2 : GenerateToken 2 (3600 * time_Second) (drawn 16 world_with_entropy)
               = (Ok issued_next, drawn 16 (drawn 16 world_with_entropy)))
    by (vm_compute; reflexivity).
  split; [exact E1|]. split; [exact E2|].
  exact (X14_tokens_differ_as_their_bytes_do _ _ _ _ _ _ _ _ _ _ E1 E2).
Defined.

(** [GetUserByToken] and [GetByID] send the same statement and read its row
    in the same way; they differ in what they say when it fails. *)
Lemma GetUserByToken_as_GetByID : forall t w,
  (forall u w1, GetUserByToken t w = (Ok u, w1) <->
                GetByID (Token_UserID t) w = (Ok u, w1)) /\
  is_Err (fst (GetUserByToken t w)) = is_Err (fst (GetByID (Token_UserID t) w)) /\
  db (snd (GetUserByToken t w)) = db (snd (GetByID (Token_UserID t) w)).
Proof.
  intros t w. unfold GetUserByToken, GetByID, bind.
  destruct (db_QueryRowContext _ w) as [r w1].
  destruct (and_then r scan_User) as [u'|e].
  - cbv beta iota zeta delta [ret fst snd]. split; [|split; reflexivity].
    intros u w2. split; intros H; exact H.
  - destruct (errors_Is e sql_ErrNoRows);
      cbv beta iota zeta delta [ret fst snd bind log_Printf emit is_Err db];
      (split; [|split; reflexivity]);
      intros u w2; split; intros H; discriminate H.
Qed.

Lemma GetByID_db : forall id w, db (snd (GetByID id w)) = db w.
Proof.
  intros id w. unfold GetByID, bind.
  destruct (QueryRow_SELECT
              ["id"; "email"; "first_name"; "last_name"; "password";
               "created_at"; "updated_at"] "users" ("id", VInt id) w)
    as [res [o [H _]]].
  rewrite H. destruct (and_then res scan_User) as [u|e].
  - reflexivity.
  - destruct (errors_Is e sql_ErrNoRows); reflexivity.
Qed.

(** X15.  [GetUserByToken] is [GetByID] of the user id of the token: it
    returns a user exactly when [GetByID] returns that user, fails exactly
    when it fails, and changes no table.  Nothing else of the token is
    looked at: not its text, not its hash, not its expiry. *)
Theorem X15_GetUserByToken_is_GetByID : forall (t : Token) (w : World),
  (forall u w1, GetUserByToken t w = (Ok u, w1) <->
                GetByID (Token_UserID t) w = (Ok u, w1)) /\
  is_Err (fst (GetUserByToken t w)) = is_Err (fst (GetByID (Token_UserID t) w)) /\
  (forall t', Token_UserID t' = Token_UserID t ->
     forall u, fst (GetUserByToken t' w) = Ok u <-> fst (GetUserByToken t w) = Ok u) /\
  db (snd (GetUserByToken t w)) = db w.
Proof.
  intros t w. destruct (GetUserByToken_as_GetByID t w) as [Hok [Herr Hdb]].
  split; [exact Hok|]. split; [exact Herr|]. split.
  - intros t' Hid u.
    destruct (GetUserByToken_as_GetByID t' w) as [Hok' _]. rewrite Hid in Hok'.
    split; intros H.
    + destruct (GetUserByToken t' w) as [r w1] eqn:E. simpl in H. subst r.
      rewrite (proj2 (Hok u w1) (proj1 (Hok' u w1) eq_refl)). reflexivity.
    + destruct (GetUserByToken t w) as [r w1] eqn:E. simpl in H. subst r.
      rewrite (proj2 (Hok' u w1) (proj1 (Hok u w1) eq_refl)). reflexivity.
  - rewrite Hdb. apply GetByID_db.
Qed.

(** [GetByToken] when its statement runs on a table with the columns it
    names: the first row with the text, read into a [Token]. *)
Lemma run_lookup_token : forall p w,
  tokens_as_looked_up w -> next_runs w ->
  run (lookup_token p) w
  = (Ok (map (project token_fields)
             (filter (matches ("plainText", VText p)) (rows (tokens (db w))))),
     sent (lookup_token p) None (db w) w).
Proof.
  intros p w Hc Hf. unfold run, sent.
  assert (Hx : exec (lookup_token p) (db w)
               = Ok (db w, map (project token_fields)
                               (filter (matches ("plainText", VText p))
                                       (rows (tokens (db w)))))).
  { unfold tokens_as_looked_up in Hc. simpl. unfold has_column. rewrite Hc.
    reflexivity. }
  rewrite Hx. unfold next_runs in Hf.
  destruct (faults w) as [|[e|] fs]; simpl in Hf; try discriminate; reflexivity.
Qed.

Lemma matches_plainText : forall v r,
  matches ("plainText", v) r = value_eqb (get "plaintext" r) v.
Proof. reflexivity. Qed.

Lemma GetByToken_finds : forall p w pre r post tm,
  tokens_as_looked_up w -> next_runs w ->
  rows (tokens (db w)) = pre ++ r :: post ->
  (forall x, In x pre -> get "plaintext" x <> VText p) ->
  get "plaintext" r = VText p ->
  scan_Token (project token_fields r) = Ok tm ->
  GetByToken p w = (Ok tm, sent (lookup_token p) None (db w) w).
Proof.
  intros p w pre r post tm Hc Hf Hrows Hpre Hr Hs.
  unfold GetByToken, db_QueryRowContext, bind. fold (lookup_token p).
  rewrite (run_lookup_token p w Hc Hf), Hrows.
  rewrite (filter_first _ _ pre r post).
  - cbv beta iota zeta delta [ret map and_then]. rewrite Hs. reflexivity.
  - intros x Hx. rewrite matches_plainText.
    destruct (value_eqb (get "plaintext" x) (VText p)) eqn:E; [|reflexivity].
    apply value_eqb_true in E. exfalso. exact (Hpre x Hx E).
  - rewrite matches_plainText, Hr. apply value_eqb_refl. discriminate.
Qed.

(** X16.  A request that bears a stored token which has not expired is
    answered with the user of the token.  On a tokens table with the
    columns that the lookup names and the users table of the design, when
    the two statements run: if the header is [Bearer], a space and a
    26-byte text, the first row stored with that text reads as a token
    whose expiry is not before the current time, and [GetByID] of its user
    id returns [u], then [AuthenticationToken] returns [u]. *)
Theorem X16_AuthenticationToken_accepts :
  forall (r : Request) (w : World) (tk : string) (pre post : list row) (row_ : row)
         (tm : Token) (u : User),
  bearer (authorization r) tk -> String.length tk = 26%nat ->
  tokens_as_looked_up w -> users_of_design w -> next_two_run w ->
  rows (tokens (db w)) = pre ++ row_ :: post ->
  (forall x, In x pre -> get "plaintext" x <> VText tk) ->
  get "plaintext" row_ = VText tk ->
  scan_Token (project token_fields row_) = Ok tm ->
  now w <= Token_Expiry tm ->
  fst (GetByID (Token_UserID tm) w) = Ok u ->
  fst (AuthenticationToken r w) = Ok u.
Proof.
  intros r w tk pre post row_ tm u Hb Hl Hc Hu [Hf1 Hf2] Hrows Hpre Hr Hs Hexp Hg.
  rewrite (AuthenticationToken_lookup r w tk Hb Hl). unfold bind at 1.
  rewrite (GetByToken_finds tk w pre row_ post tm Hc Hf1 Hrows Hpre Hr Hs).
  unfold after_lookup, bind, time_Now. cbn [now sent].
  rewrite (proj2 (Z.ltb_ge _ _) Hexp).
  set (w1 := sent (lookup_token tk) None (db w) w).
  assert (Hg1 : fst (GetByID (Token_UserID tm) w1) = Ok u).
  { rewrite GetByID_runs; [|exact Hu|exact Hf2].
    rewrite GetByID_runs in Hg; [|exact Hu|exact Hf1].
    subst w1. cbn [db sent].
    destruct (filter (matches ("id", VInt (Token_UserID tm))) (rows (users (db w))))
      as [|r0 rest]; [discriminate Hg|].
    destruct (scan_User (project user_fields r0)) as [u0|e]; [|discriminate Hg].
    exact Hg. }
  destruct (GetUserByToken_as_GetByID tm w1) as [Hok _].
  destruct (GetByID (Token_UserID tm) w1) as [res w2] eqn:E.
  simpl in Hg1. subst res.
  rewrite (proj2 (Hok u w2) eq_refl). reflexivity.
Qed.

Lemma X16_AuthenticationToken_witness :
  fst (AuthenticationToken (request "Bearer MFRGGZDFMZTWQ2LKNNWG23TPOA")
                           (world_at "plaintext" T0 T0))
  = Ok alice.
Proof.
  apply (X16_AuthenticationToken_accepts
           (request "Bearer MFRGGZDFMZTWQ2LKNNWG23TPOA")
           (world_at "plaintext" T0 T0) the_token [] [] (session_row "plaintext" T0)
           {| Token_ID := 1; Token_UserID := 1;
              Token_Email := "alice@example.com";
              Token_Token := the_token;
              Token_TokenHash := [x01; x02; x03];
              Token_CreatedAt := T0; Token_UpdatedAt := T0;
              Token_Expiry := T0 |}).
  - split; reflexivity.
  - reflexivity.
  - reflexivity.
  - reflexivity.
  - split; reflexivity.
  - reflexivity.
  - intros x [].
  - reflexivity.
  - reflexivity.
  - simpl. lia.
  - vm_compute. reflexivity.
Defined.

(** What a lookup returns depends on the tables and on what the datastore
    does to the next statement, and on nothing else of the world. *)
Lemma run_fst : forall q w w',
  db w = db w' -> faults w = faults w' -> fst (run q w) = fst (run q w').
Proof.
  intros q w w' Hd Hf. unfold run. rewrite Hd, Hf.
  destruct (match faults w' with
            | Some (Fails e) :: _ => Err e
            | Some Hangs :: _ => Err context_DeadlineExceeded
            | _ => exec q (db w')
            end) as [[d rs]|e]; reflexivity.
Qed.

Lemma GetByToken_fst : forall p w w',
  db w = db w' -> faults w = faults w' ->
  fst (GetByToken p w) = fst (GetByToken p w').
Proof.
  intros p w w' Hd Hf. unfold GetByToken, db_QueryRowContext, bind.
  pose proof (run_fst (lookup_token p) w w' Hd Hf) as H.
  unfold lookup_token in H.
  destruct (run _ w) as [r1 w1]. destruct (run _ w') as [r2 w2].
  simpl in H. subst r2.
  cbv beta iota zeta delta [ret].
  destruct (and_then _ scan_Token) as [t|e]; [reflexivity|].
  destruct (errors_Is e sql_ErrNoRows); reflexivity.
Qed.

Lemma timeline_logs : forall msgs, timeline (map Log msgs) = [].
Proof. induction msgs as [|m ms IH]; [reflexivity|exact IH]. Qed.

(** X17.  [GenerateToken] stores nothing.  It sends no statement and
    leaves the tables, the clock and the datastore as they were, whether it
    succeeds or not; so [GetByToken] of any text, that of the new token
    included, answers after it as it would have before: a token is valid
    only once [InsertToken] stored it. *)
Theorem X17_GenerateToken_stores_nothing : forall (userID ttl : Z) (w : World),
  db (snd (GenerateToken userID ttl w)) = db w /\
  faults (snd (GenerateToken userID ttl w)) = faults w /\
  timeline (since w (snd (GenerateToken userID ttl w))) = [] /\
  (forall p, fst (GetByToken p (snd (GenerateToken userID ttl w)))
             = fst (GetByToken p w)).
Proof.
  intros userID ttl w.
  assert (H : db (snd (GenerateToken userID ttl w)) = db w /\
              faults (snd (GenerateToken userID ttl w)) = faults w).
  { unfold GenerateToken, bind, time_Now, rand_Read.
    destruct (Nat.ltb (List.length (entropy w)) 16); split; reflexivity. }
  destruct H as [Hd Hf]. split; [exact Hd|]. split; [exact Hf|]. split.
  - destruct (only_logs_GenerateToken userID ttl w) as [msgs Hm].
    rewrite (since_app _ _ _ Hm). apply timeline_logs.
  - intros p. apply GetByToken_fst; assumption.
Qed.
